(** * pvx-news-agent: persistence, pipeline and scheduler

    A shallow embedding of [main.py], [company_personnel.py] and
    [company_data.py].

    - Python values that travel through [json.loads] / [json.dumps] are
      terms of [json]; a Python [dict] is an association list in insertion
      order whose keys are pairwise distinct ([wf_json]).
    - The [json] module of the Python standard library is an interface
      ([JsonLib]): what is dumped loads back. [Module Codec] implements it.
    - The hosted model service and the wall clock are an interface ([Env]):
      state transformers over an opaque [World].
    - Statements of the program are computations in [M]: a state monad over
      [state] (both files, the heap of list objects, [st.session_state], the
      registered jobs, the trace of observable events) that either returns
      or raises. The trace records every call to the model service with its
      outcome, every write of a file, and what is printed or shown.
    - Type annotations are the types: a company name is a [string], a
      watch-list in memory is a list of strings. What [json.loads] returns
      is dynamically typed, and the operations on it raise as Python does.

    Outside the model: floating point numbers (a JSON number is an
    integer), exceptions that do not derive from [Exception], a failing
    write of a file, and two threads at once (the scheduler thread and a
    run of the page are interleaved, never concurrent). *)

From Stdlib Require Import ZArith String Ascii List Bool Lia DecimalString DecimalPos.
From stdpp Require Import base option list gmap strings sorting.

Set Warnings "-clear-no-such-hyp".

Local Open Scope string_scope.
Local Open Scope list_scope.

(** ** JSON values *)

Unset Elimination Schemes.
Inductive json : Type :=
| JNull
| JBool (b : bool)
| JInt (z : Z)
| JStr (s : string)
| JArr (xs : list json)
| JObj (kvs : list (string * json)).
Set Elimination Schemes.

(** Induction over a value and, through [Forall], over the values nested
    in its arrays and dicts. *)
Section json_induction.
Variable P : json -> Prop.
Hypothesis Hnull : P JNull.
Hypothesis Hbool : forall b, P (JBool b).
Hypothesis Hint : forall z, P (JInt z).
Hypothesis Hstr : forall s, P (JStr s).
Hypothesis Harr : forall xs, Forall P xs -> P (JArr xs).
Hypothesis Hobj : forall kvs, Forall (fun kv => P (snd kv)) kvs -> P (JObj kvs).

Fixpoint json_ind (v : json) : P v :=
  match v with
  | JNull => Hnull
  | JBool b => Hbool b
  | JInt z => Hint z
  | JStr s => Hstr s
  | JArr xs =>
      Harr xs ((fix go (l : list json) : Forall P l :=
                  match l with
                  | [] => List.Forall_nil P
                  | x :: l' => List.Forall_cons _ x l' (json_ind x) (go l')
                  end) xs)
  | JObj kvs =>
      Hobj kvs ((fix go (l : list (string * json))
                   : Forall (fun kv => P (snd kv)) l :=
                   match l with
                   | [] => List.Forall_nil _
                   | kv :: l' => List.Forall_cons _ kv l' (json_ind (snd kv)) (go l')
                   end) kvs)
  end.
End json_induction.

(** Keys of a dict, in insertion order. *)
Definition keys (kvs : list (string * json)) : list string := map fst kvs.

(** No dict, at any depth, holds a key twice. *)
Fixpoint wf_json (v : json) : bool :=
  match v with
  | JArr xs => forallb wf_json xs
  | JObj kvs => bool_decide (NoDup (keys kvs))
                && forallb (fun kv => wf_json (snd kv)) kvs
  | _ => true
  end.

(** ** Python dict operations on string keys *)

(** [d.get(k)] as an option. *)
Fixpoint dict_get (k : string) (d : list (string * json)) : option json :=
  match d with
  | [] => None
  | (k', v) :: d' => if decide (k = k') then Some v else dict_get k d'
  end.

(** [d[k] = v]: an existing key keeps its position, a new key goes last. *)
Fixpoint dict_set (k : string) (v : json) (d : list (string * json))
  : list (string * json) :=
  match d with
  | [] => [(k, v)]
  | (k', v') :: d' =>
      if decide (k = k') then (k, v) :: d' else (k', v') :: dict_set k v d'
  end.

(** ** Exceptions and results *)

(** Every class below derives from [Exception]; [RemoteError] stands for
    whatever the client of the model service raises. *)
Inductive exn : Type :=
| KeyError (key : string)
| TypeError
| AttributeError
| JSONDecodeError
| FileNotFoundError
| RemoteError (msg : string).

Inductive res (A : Type) : Type :=
| Ok (a : A)
| Raise (e : exn).
Arguments Ok {A} a.
Arguments Raise {A} e.

(** ** Dynamic operations on a value obtained from [json.loads] *)

(** [k in o] for a string [k]. *)
Definition py_contains (o : json) (k : string) : res bool :=
  match o with
  | JObj d => Ok (bool_decide (is_Some (dict_get k d)))
  | JArr xs => Ok (existsb (fun x => match x with
                                     | JStr s => bool_decide (s = k)
                                     | _ => false end) xs)
  | JStr s => Ok (bool_decide (is_Some (String.index 0 k s)))
  | _ => Raise TypeError
  end.

(** [o[k]] for a string [k]. *)
Definition py_getitem (o : json) (k : string) : res json :=
  match o with
  | JObj d => match dict_get k d with Some v => Ok v | None => Raise (KeyError k) end
  | _ => Raise TypeError
  end.

(** [o[k] = v] for a string [k]; the result is the mutated object. *)
Definition py_setitem (o : json) (k : string) (v : json) : res json :=
  match o with
  | JObj d => Ok (JObj (dict_set k v d))
  | _ => Raise TypeError
  end.

(** [o.get(k, default)]. *)
Definition py_get (o : json) (k : string) (dflt : json) : res json :=
  match o with
  | JObj d => Ok (default dflt (dict_get k d))
  | _ => Raise AttributeError
  end.

(** [not o]: the falsy values are [None], [False], [0], the empty string,
    list and dict. *)
Definition py_not (o : json) : bool :=
  match o with
  | JNull => true
  | JBool b => negb b
  | JInt z => bool_decide (z = 0%Z)
  | JStr s => bool_decide (s = "")
  | JArr xs => bool_decide (xs = [])
  | JObj d => bool_decide (d = [])
  end.

(** [o[k1][k2] = v]: the inner dict is the object stored under [k1], so the
    assignment is seen through [o]. *)
Definition py_setitem_nested (o : json) (k1 k2 : string) (v : json) : res json :=
  match py_getitem o k1 with
  | Ok r =>
      match py_setitem r k2 v with
      | Ok r' => py_setitem o k1 r'
      | Raise e => Raise e
      end
  | Raise e => Raise e
  end.

(** ** The [json] module *)

(** [dumps i v] is [json.dumps(v)] for [i = None] and
    [json.dumps(v, indent=n)] for [i = Some n]; [loads] is [json.loads],
    [None] standing for [JSONDecodeError]. *)
Class JsonLib : Type := {
  dumps : option nat -> json -> string;
  loads : string -> option json;
  loads_dumps : forall i v, wf_json v = true -> loads (dumps i v) = Some v;
  loads_wf : forall t v, loads t = Some v -> wf_json v = true
}.

(** ** The model service and the clock *)

(** The [text_format] of a [client.responses.parse] call. *)
Inductive shape : Type :=
| CompanyPersonnelResponse
| CompanyPersonnelNewsResponse
| CompanyDetails
| CompanyNewsResponse.

(** [responses_parse sh prompt] is the call of [client.responses.parse]
    with web search forced, followed by [model_dump_json(indent=2)] of its
    [output_parsed]: it returns that text, or raises.
    [chat_completions_create prompt] returns the [content] of the first
    choice. [datetime_now] is
    [dt.datetime.now().isoformat(timespec="seconds")]. *)
Class Env : Type := {
  World : Type;
  responses_parse : shape -> string -> World -> res string * World;
  chat_completions_create : string -> World -> res string * World;
  datetime_now : World -> string
}.

(** ** Program state *)

Inductive file : Type :=
| WATCHLIST_FILE
| COMPANY_DATA_FILE.

(** What the program does that can be seen from outside, oldest first. *)
Inductive event : Type :=
| EPrint (line : string)
| EPrintObj (text : string)
| ERemote (sh : shape) (prompt : string) (outcome : res string)
| EChat (prompt : string) (outcome : res string)
| EWrite (f : file) (text : string)
| ESchedulerError (comp : string) (e : exn)
| EStError (e : exn)
| EStSuccess (msg : string)
| EStInfo (msg : string)
| EStSubheader (body : string)
| EStCaption (updated : json)
| EStMarkdown (body : json).

(** The functions that the program passes as [callback]. *)
Inductive callback : Type :=
| cb_run_news_agent.

(** A registered cron job: the [refresh_all] closure of one call of
    [schedule_weekly_refresh]. It captures its callback and the list object
    it was given, by reference (an index into the heap of list objects). *)
Record job : Type := { job_callback : callback; job_watchlist : nat }.

Section Program.
Context `{JL : JsonLib} `{EV : Env}.

(** Both files ([None]: the file does not exist), the heap of Python list
    objects (a reference is an index), [st.session_state], the jobs of the
    started schedulers, and the trace. *)
Record state : Type := {
  world : World;
  watchlist_json : option string;
  company_data_json : option string;
  heap : list (list string);
  session_state : gset string;
  jobs : list job;
  trace : list event
}.

Definition set_world (w : World) (s : state) : state :=
  {| world := w; watchlist_json := watchlist_json s;
     company_data_json := company_data_json s; heap := heap s;
     session_state := session_state s; jobs := jobs s; trace := trace s |}.

Definition set_file (f : file) (t : string) (s : state) : state :=
  {| world := world s;
     watchlist_json :=
       match f with WATCHLIST_FILE => Some t | _ => watchlist_json s end;
     company_data_json :=
       match f with COMPANY_DATA_FILE => Some t | _ => company_data_json s end;
     heap := heap s; session_state := session_state s; jobs := jobs s;
     trace := trace s |}.

Definition set_heap (h : list (list string)) (s : state) : state :=
  {| world := world s; watchlist_json := watchlist_json s;
     company_data_json := company_data_json s; heap := h;
     session_state := session_state s; jobs := jobs s; trace := trace s |}.

Definition set_session_state (k : gset string) (s : state) : state :=
  {| world := world s; watchlist_json := watchlist_json s;
     company_data_json := company_data_json s; heap := heap s;
     session_state := k; jobs := jobs s; trace := trace s |}.

Definition set_jobs (j : list job) (s : state) : state :=
  {| world := world s; watchlist_json := watchlist_json s;
     company_data_json := company_data_json s; heap := heap s;
     session_state := session_state s; jobs := j; trace := trace s |}.

Definition add_event (e : event) (s : state) : state :=
  {| world := world s; watchlist_json := watchlist_json s;
     company_data_json := company_data_json s; heap := heap s;
     session_state := session_state s; jobs := jobs s;
     trace := trace s ++ [e] |}.

Definition file_text (f : file) (s : state) : option string :=
  match f with
  | WATCHLIST_FILE => watchlist_json s
  | COMPANY_DATA_FILE => company_data_json s
  end.

(** ** Computations *)

Definition M (A : Type) : Type := state -> res A * state.

Definition ret {A} (a : A) : M A := fun s => (Ok a, s).

Definition raise {A} (e : exn) : M A := fun s => (Raise e, s).

Definition bind {A B} (m : M A) (k : A -> M B) : M B :=
  fun s => match m s with
           | (Ok a, s') => k a s'
           | (Raise e, s') => (Raise e, s')
           end.

(** [try: body except Exception as e: handler]. *)
Definition try_except {A} (body : M A) (handler : exn -> M A) : M A :=
  fun s => match body s with
           | (Ok a, s') => (Ok a, s')
           | (Raise e, s') => handler e s'
           end.

Definition lift {A} (r : res A) : M A := fun s => (r, s).

Definition emit (e : event) : M unit := fun s => (Ok tt, add_event e s).

End Program.

Notation "'let*' x ':=' c1 'in' c2" := (bind c1 (fun x => c2))
  (at level 10, x name, c1 at level 100, c2 at level 200).

Section Persistence.
Context `{JL : JsonLib} `{EV : Env}.

(** ** Persistence helpers of [main.py] *)

(** [Path.exists()]. *)
Definition exists_ (f : file) : M bool :=
  fun s => (Ok (bool_decide (is_Some (file_text f s))), s).

(** [Path.read_text()]. *)
Definition read_text (f : file) : M string :=
  fun s => match file_text f s with
           | Some t => (Ok t, s)
           | None => (Raise FileNotFoundError, s)
           end.

(** [Path.write_text(text)]: creates or overwrites the whole file. The
    write itself is taken to succeed. *)
Definition write_text (f : file) (t : string) : M unit :=
  fun s => (Ok tt, add_event (EWrite f t) (set_file f t s)).

(** [json.loads(text)]. *)
Definition json_loads (t : string) : M json :=
  match loads t with
  | Some v => ret v
  | None => raise JSONDecodeError
  end.

(** [sorted(set(watchlist))]: the distinct names in increasing order of
    their code points. *)
Definition sorted_set (watchlist : list string) : list string :=
  merge_sort String.le (remove_dups watchlist).

Definition load_watchlist : M json :=
  try_except
    (let* b := exists_ WATCHLIST_FILE in
     if b then let* t := read_text WATCHLIST_FILE in json_loads t
     else ret (JArr []))
    (fun _ => ret (JArr [])).

Definition save_watchlist (watchlist : list string) : M unit :=
  write_text WATCHLIST_FILE (dumps None (JArr (JStr <$> sorted_set watchlist))).

Definition load_company_data : M json :=
  try_except
    (let* b := exists_ COMPANY_DATA_FILE in
     if b then let* t := read_text COMPANY_DATA_FILE in json_loads t
     else ret (JObj []))
    (fun _ => ret (JObj [])).

Definition save_company_data (company : string) (data : json) : M unit :=
  let* all_data := load_company_data in
  let* all_data := lift (py_setitem_nested all_data company "final_summary" data) in
  write_text COMPANY_DATA_FILE (dumps (Some 2) all_data).

Definition get_company_data (company : string) : M json :=
  let* all_data := load_company_data in
  let* record := lift (py_get all_data company (JObj [])) in
  lift (py_get record "final_summary" JNull).

Definition save_intermediate_data (company key data : string) : M unit :=
  let* all_data := load_company_data in
  let* has := lift (py_contains all_data company) in
  let* all_data := (if negb has then lift (py_setitem all_data company (JObj []))
              else ret all_data) in
  let* value := json_loads data in
  let* all_data := lift (py_setitem_nested all_data company key value) in
  write_text COMPANY_DATA_FILE (dumps (Some 2) all_data).

End Persistence.

(** ** Prompt builders and extraction calls *)

(** A double quote, and a text between double quotes. *)
Definition dq : string := String (ascii_of_nat 34) EmptyString.
Definition q (s : string) : string := dq +:+ s +:+ dq.

(** [str(n)] for a Python [int]. *)
Definition py_str_int (n : Z) : string := NilZero.string_of_int (Z.to_int n).

(** [company_personnel.format_prompt_get_company_personnel]. *)
Definition format_prompt_get_company_personnel (company : string) : string :=
  ("
You are expert in finding the key personnel of a company.

You are given a company name and you need to find the key personnel of the company.

You need to find the key personnel of the company from the following sources:

Sources:
- LinkedIn
- X (Twitter)
- Company blog
- Press releases

Return the key personnel in the following format:

json format (leave blank if you don't find the information):
[
  {" +:+ q "name" +:+ ": " +:+ q "John Doe"
      +:+ ",
    "
      +:+ q "role" +:+ ": " +:+ q "CEO"
      +:+ ",
    "
      +:+ q "linkedin" +:+ ": " +:+ q "https://www.linkedin.com/in/john-doe"
      +:+ ",
    "
      +:+ q "x" +:+ ": " +:+ q "https://x.com/john-doe"
      +:+ "
  }
]

<<TARGET_COMPANY>>: "
      +:+ company
      +:+ "
")%string.

(** [company_data.format_prompt_get_company_details]. *)
Definition format_prompt_get_company_details (company : string) : string :=
  ("
You are given a company name and you need to find the key details of the company.

You need to find the key details of the company from the following sources:

Sources:
- LinkedIn
- X (Twitter)
- Company blog
- Press releases

Return the key details in the following format:

json format:
{" +:+ q "name" +:+ ": " +:+ q "Company Name"
      +:+ ",
    "
      +:+ q "country" +:+ ": " +:+ q "Country of Registration"
      +:+ ",
    "
      +:+ q "business_type" +:+ ": " +:+ q "Business Type"
      +:+ ",
    "
      +:+ q "any_other_details" +:+ ": " +:+ q "Any other details"
      +:+ "
}


<<TARGET_COMPANY>>: "
      +:+ company
      +:+ "
")%string.

(** [main.format_prompt]. *)
Definition format_prompt
    (company personnel personnel_news company_details company_news : string)
  : string :=
  ("
🧠 Prompt for a News AI Agent (Gaming-Focused)
You are a News Intelligence Agent trained to monitor and summarize financial-impacting developments for mobile gaming companies and apps. 
I will give you all the relevant information about the company and the key personnel and their news. I want you to format the information. Add comments if needed.

FORMAT THE GIVEN INFORMATION IN A READABLE FORMAT.

<TARGET_COMPANY>: " +:+ company
      +:+ "
<PERSONNEL>: "
      +:+ personnel
      +:+ "
<PERSONNEL_NEWS>: "
      +:+ personnel_news
      +:+ "
<COMPANY_DETAILS>: "
      +:+ company_details
      +:+ "
<COMPANY_NEWS>: "
      +:+ company_news
      +:+ "

**Output (nothing else):**

### Company Details
- Details of the company

### Key Personnel
- Details of the key personnel

### 📰 Company News (Past 6 Months) [Ensure that the source link is mentioned in the citation]
| Sentiment(✅/Neutral/❌) | Source | Headline | Summary (≤ 30 words) | [Citation-Mention the source link] |
|------|--------|----------|----------------------|------------|
| ...... |

### 📰 Key Personnel News (Past 6 Months) [Ensure that the source link is mentioned in the citation]
| Sentiment(✅/Neutral/❌) | Source | Headline | Summary (≤ 30 words) | [Citation-Mention the source link] |
|------|--------|----------|----------------------|------------|
| ...... |

### ⚡ Financial & Strategic Sentiment
➡️ Positive / Negative / Neutral — *one-sentence justification.*

*Do not output any content outside the sections above.*

")%string.

Section Extraction.
Context `{JL : JsonLib} `{EV : Env}.

(** [d[k]] on a [dict[str, list[str]]]. *)
Definition sources_getitem (d : gmap string (list string)) (k : string)
  : M (list string) :=
  match d !! k with
  | Some l => ret l
  | None => raise (KeyError k)
  end.

(** [company_personnel.format_prompt_company_personnel_news_prompt]. *)
Definition format_prompt_company_personnel_news_prompt
    (company personnel : string) (days : Z)
    (TRUSTED_NEWS_SOURCES : gmap string (list string)) : M string :=
  let* gaming := sources_getitem TRUSTED_NEWS_SOURCES "gaming_industry" in
  let gaming_sources := String.concat "
    - " gaming in
  let* business := sources_getitem TRUSTED_NEWS_SOURCES "business_sources" in
  let business_sources := String.concat "
    - " business in
  let* channels := sources_getitem TRUSTED_NEWS_SOURCES "company_channels" in
  let company_channels := String.concat "
    - " channels in
  let* _ := emit (EPrint ("gaming_sources: " +:+ gaming_sources)) in
  ret ("
    Given the company name and the key personnel of the company, you need to find all the news for each of the key personnel in last " +:+ py_str_int days
    +:+ " days.
    
    You need to find the news for each of the key personnel from the following sources:
    Sources:
    gaming industry: "
    +:+ gaming_sources
    +:+ "
    business sources: "
    +:+ business_sources
    +:+ "
    company channels: "
    +:+ company_channels
    +:+ "

    For each news you find, classify the news into the following categories:
    - Positive
    - Negative
    - Neutral

    Return the news in the following format:
    [
        {
            "
    +:+ q "source_link" +:+ ": " +:+ q "https://www.linkedin.com/in/john-doe"
    +:+ ",
            "
    +:+ q "news" +:+ ": " +:+ q "Summary of the news"
    +:+ ",
            "
    +:+ q "date" +:+ ": " +:+ q "2025-01-01"
    +:+ ",
            "
    +:+ q "sentiment" +:+ ": " +:+ q "positive"
    +:+ ",
        }
    ]
    Prioritise launches, funding, layoffs, hires, licensing, expansion, M&A, KPI milestones, exec thought-leadership, personnel posts.
    You must atleast 5 news in total.
    <TARGET_COMPANY>: "
    +:+ company
    +:+ "
    <KEY_PERSONNEL>: "
    +:+ personnel
    +:+ "

")%string.

(** [company_data.format_prompt_company_news_prompt]. *)
Definition format_prompt_company_news_prompt
    (company company_details : string) (days : Z)
    (TRUSTED_NEWS_SOURCES : gmap string (list string)) : M string :=
  let* gaming := sources_getitem TRUSTED_NEWS_SOURCES "gaming_industry" in
  let gaming_sources := String.concat "
    - " gaming in
  let* business := sources_getitem TRUSTED_NEWS_SOURCES "business_sources" in
  let business_sources := String.concat "
    - " business in
  let* channels := sources_getitem TRUSTED_NEWS_SOURCES "company_channels" in
  let company_channels := String.concat "
    - " channels in
  ret ("
    Given the company name company details and the news sources, you need to find all the news for the company in last " +:+ py_str_int days
    +:+ " days.
        
    You need to find all news from any of the following sources for the company in the last "
    +:+ py_str_int days
    +:+ " days:
    Sources:
    gaming industry: "
    +:+ gaming_sources
    +:+ "
    business sources: "
    +:+ business_sources
    +:+ "
    company channels: "
    +:+ company_channels
    +:+ "

    and classify the news into the following categories:
    - Positive
    - Negative
    - Neutral

    Return the news in the following format:
    [
        {
            "
    +:+ q "source_link" +:+ ": " +:+ q "https://venturebeat.com/2025/01/01/company-launches-new-product"
    +:+ ",
            "
    +:+ q "news" +:+ ": " +:+ q "Summary of the news"
    +:+ ",
            "
    +:+ q "date" +:+ ": " +:+ q "2025-01-01"
    +:+ ",
            "
    +:+ q "sentiment" +:+ ": " +:+ q "positive"
    +:+ "
        }
    ]
    Prioritise launches, funding, layoffs, hires, licensing, expansion, M&A, KPI milestones, exec thought-leadership, personnel posts.

    <TARGET_COMPANY>: "
    +:+ company
    +:+ "
    <COMPANY_DETAILS>: "
    +:+ company_details
    +:+ "

")%string.

(** [client.responses.parse(..., input=prompt, text_format=sh)] and the
    [model_dump_json(indent=2)] of its parsed output. *)
Definition client_responses_parse (sh : shape) (prompt : string) : M string :=
  fun s => let (r, w) := responses_parse sh prompt (world s) in
           (r, add_event (ERemote sh prompt r) (set_world w s)).

(** [client.chat.completions.create(...).choices[0].message.content]. *)
Definition client_chat_completions_create (prompt : string) : M string :=
  fun s => let (r, w) := chat_completions_create prompt (world s) in
           (r, add_event (EChat prompt r) (set_world w s)).

(** [company_personnel.get_company_personnel_news]; the two [print]s of
    the response objects are recorded with the text that is returned. *)
Definition get_company_personnel_news
    (company personnel : string) (days : Z)
    (TRUSTED_NEWS_SOURCES : gmap string (list string)) : M string :=
  let* prompt := format_prompt_company_personnel_news_prompt
                   company personnel days TRUSTED_NEWS_SOURCES in
  let* res := client_responses_parse CompanyPersonnelNewsResponse prompt in
  let* _ := emit (EPrintObj res) in
  let* _ := emit (EPrintObj res) in
  ret res.

(** [company_personnel.get_company_personnel]. *)
Definition get_company_personnel (company : string) : M string :=
  let* res := client_responses_parse CompanyPersonnelResponse
                (format_prompt_get_company_personnel company) in
  let* _ := emit (EPrintObj res) in
  ret res.

(** [company_data.get_company_details]. *)
Definition get_company_details (company : string) : M string :=
  let* res := client_responses_parse CompanyDetails
                (format_prompt_get_company_details company) in
  let* _ := emit (EPrintObj res) in
  ret res.

(** [company_data.get_company_news]. *)
Definition get_company_news
    (company company_details : string) (days : Z)
    (TRUSTED_NEWS_SOURCES : gmap string (list string)) : M string :=
  let* prompt := format_prompt_company_news_prompt
                   company company_details days TRUSTED_NEWS_SOURCES in
  let* res := client_responses_parse CompanyNewsResponse prompt in
  let* _ := emit (EPrintObj res) in
  ret res.

End Extraction.

(** ** [main.py]: configuration, pipeline, scheduler, page *)

Definition NUMBER_OF_DAYS : Z := 180.

Definition TRUSTED_NEWS_SOURCES : gmap string (list string) :=
  list_to_map
    [("gaming_industry",
      ["Pocket Gamer"; "PocketGamer.biz"; "Gamezebo"; "Deconstructor of Fun";
       "IGN"; "Gamespot"; "Kotaku"; "VentureBeat (GamesBeat)"]);
     ("business_sources", ["TechCrunch"; "Bloomberg"; "Reuters"]);
     ("company_channels",
      ["LinkedIn posts"; "X (Twitter) posts"; "Company blog"; "Press releases"])].

(** What one run of the page receives from the browser: the text input
    after [.strip()], and which button was pressed. *)
Record ui : Type := {
  company_input : string;
  fetch_clicked : bool;
  add_clicked : bool
}.

Section Main.
Context `{JL : JsonLib} `{EV : Env}.

Definition run_news_agent (company : string) : M string :=
  let* personnel := get_company_personnel company in
  let* _ := save_intermediate_data company "personnel" personnel in
  let* personnel_news :=
    get_company_personnel_news company personnel NUMBER_OF_DAYS
      TRUSTED_NEWS_SOURCES in
  let* _ := save_intermediate_data company "personnel_news" personnel_news in
  let* company_details := get_company_details company in
  let* _ := save_intermediate_data company "company_details" company_details in
  let* company_news :=
    get_company_news company company_details NUMBER_OF_DAYS
      TRUSTED_NEWS_SOURCES in
  let* _ := emit (EPrint "--------------------------------") in
  let* _ := emit (EPrint (format_prompt company personnel personnel_news
                            company_details company_news)) in
  let* _ := emit (EPrint "--------------------------------") in
  client_chat_completions_create
    (format_prompt company personnel personnel_news company_details
       company_news).

(** [dt.datetime.now().isoformat(timespec="seconds")]. *)
Definition now_isoformat : M string :=
  fun s => (Ok (datetime_now (world s)), s).

(** [{"summary": summary, "timestamp": timestamp}]. *)
Definition final_summary (summary timestamp : string) : json :=
  JObj [("summary", JStr summary); ("timestamp", JStr timestamp)].

(** [for x in l: body(x)]. *)
Fixpoint for_each {A} (l : list A) (body : A -> M unit) : M unit :=
  match l with
  | [] => ret tt
  | x :: l' => let* _ := body x in for_each l' body
  end.

(** The body of the loop of [refresh_all]. *)
Definition refresh_one (callback : string -> M string) (comp : string) : M unit :=
  try_except
    (let* summary := callback comp in
     let* timestamp := now_isoformat in
     save_company_data comp (final_summary summary timestamp))
    (fun exc => emit (ESchedulerError comp exc)).

(** The closure [refresh_all] of [schedule_weekly_refresh]. *)
Definition refresh_all (callback : string -> M string) (watchlist : list string)
  : M unit :=
  for_each watchlist (refresh_one callback).

(** ** List objects *)

(** A new list object. *)
Definition new_list (l : list string) : M nat :=
  fun s => (Ok (length (heap s)), set_heap (heap s ++ [l]) s).

(** The present contents of a list object. *)
Definition list_contents (r : nat) : M (list string) :=
  fun s => (Ok (default [] (heap s !! r)), s).

(** [r.append(x)]. *)
Definition list_append (r : nat) (x : string) : M unit :=
  fun s => (Ok tt, set_heap (alter (fun l => l ++ [x]) r (heap s)) s).

(** ** Scheduler *)

Definition schedule_weekly_refresh (cb : callback) (watchlist : nat) : M unit :=
  fun s => (Ok tt, set_jobs (jobs s ++ [{| job_callback := cb;
                                           job_watchlist := watchlist |}]) s).

Definition call (cb : callback) : string -> M string :=
  match cb with
  | cb_run_news_agent => run_news_agent
  end.

(** The cron trigger of one job (Monday 09:00, Asia/Kolkata) runs its
    [refresh_all] on the list object it captured. *)
Definition fire (j : job) : M unit :=
  let* watchlist := list_contents (job_watchlist j) in
  refresh_all (call (job_callback j)) watchlist.

(** [key not in st.session_state] and [st.session_state.key = True]. *)
Definition session_state_lacks (key : string) : M bool :=
  fun s => (Ok (bool_decide (key ∉ session_state s)), s).

Definition session_state_set (key : string) : M unit :=
  fun s => (Ok tt, set_session_state ({[key]} ∪ session_state s) s).

(** ** The page *)

(** [st.button(label, disabled=d)]: a disabled button is never pressed. *)
Definition st_button (clicked disabled : bool) : bool :=
  clicked && negb disabled.

Definition display_summary (comp : string) : M unit :=
  let* data := get_company_data comp in
  if py_not data then
    emit (EStInfo "No cached data – click *Fetch Summary* first.")
  else
    let* _ := emit (EStSubheader comp) in
    let* updated := lift (py_getitem data "timestamp") in
    let* _ := emit (EStCaption updated) in
    let* body := lift (py_getitem data "summary") in
    emit (EStMarkdown body).

(** A JSON array of strings as a [list[str]]. *)
Definition as_str_list (v : json) : option (list string) :=
  match v with
  | JArr xs => mapM (fun x => match x with JStr s => Some s | _ => None end) xs
  | _ => None
  end.

(** The body of the "Fetch Summary" button. *)
Definition fetch_summary (company_input : string) : M unit :=
  try_except
    (let* summary := run_news_agent company_input in
     let* timestamp := now_isoformat in
     save_company_data company_input (final_summary summary timestamp))
    (fun e => emit (EStError e)).

(** The body of the "Add to Watch-List" button; [watchlist] is the list
    object of this run. *)
Definition add_to_watchlist (company_input : string) (watchlist : nat) : M unit :=
  let* l := list_contents watchlist in
  if bool_decide (company_input ∉ l) then
    let* _ := list_append watchlist company_input in
    let* l := list_contents watchlist in
    let* _ := save_watchlist l in
    emit (EStSuccess (company_input +:+ " added to watch‑list!"))
  else emit (EStInfo "Already in watch‑list.").

(** One run of the page from line 256 on, with [watchlist] bound to a
    new list object holding [loaded]. *)
Definition page (u : ui) (loaded : list string) : M unit :=
  let* watchlist := new_list loaded in
  let company_input := company_input u in
  let disabled := bool_decide (company_input = "") in
  let* _ :=
    if st_button (fetch_clicked u) disabled then fetch_summary company_input
    else ret tt in
  let* _ :=
    if st_button (add_clicked u) disabled
    then add_to_watchlist company_input watchlist
    else ret tt in
  let* _ :=
    if bool_decide (company_input = "") then ret tt
    else display_summary company_input in
  let* l := list_contents watchlist in
  let* _ :=
    if bool_decide (l = []) then
      emit (EStInfo "Watch‑list is empty. Add companies using the input above.")
    else ret tt in
  let* _ := for_each l display_summary in
  let* fresh := session_state_lacks "_scheduler_started" in
  if fresh then
    let* _ := schedule_weekly_refresh cb_run_news_agent watchlist in
    session_state_set "_scheduler_started"
  else ret tt.

(** One run of the page. The annotation [list[str]] of [load_watchlist]
    is the type of the model: a watch-list file that parses to JSON other
    than an array of strings has no run ([None]). *)
Definition script (u : ui) (s : state) : option (res unit * state) :=
  match load_watchlist s with
  | (Ok v, s') =>
      match as_str_list v with
      | Some loaded => Some (page u loaded s')
      | None => None
      end
  | (Raise e, s') => Some (Raise e, s')
  end.

(** What happens to a session: the browser makes the page run again, or
    the cron trigger fires the registered jobs, one after the other. *)
Inductive action : Type :=
| Rerun (u : ui)
| CronTrigger.

Definition step (a : action) (s : state) : option state :=
  match a with
  | Rerun u => snd <$> script u s
  | CronTrigger => Some (snd (for_each (jobs s) fire s))
  end.

Fixpoint session (l : list action) (s : state) : option state :=
  match l with
  | [] => Some s
  | a :: l' => match step a s with Some s' => session l' s' | None => None end
  end.

End Main.

(** ** An implementation of the [json] module

    A printer that lays the text out as [json.dumps] does (separators
    [", "] and [": "], or one item per line under [indent]) and a
    recursive-descent parser. Text that is not ASCII is written as it is
    rather than as [\u] escapes, and a number with a fraction or an exponent
    is not read. *)
Module Codec.

Definition is_ws (c : ascii) : bool :=
  match c with
  | " "%char | "009"%char | "010"%char | "013"%char => true
  | _ => false
  end.

Definition is_digit (c : ascii) : bool :=
  match c with
  | "0"%char | "1"%char | "2"%char | "3"%char | "4"%char
  | "5"%char | "6"%char | "7"%char | "8"%char | "9"%char => true
  | _ => false
  end.

Definition hex_digit (n : N) : ascii :=
  ascii_of_N (if (n <? 10)%N then 48 + n else 87 + n).

Definition hex_value (c : ascii) : option N :=
  let n := N_of_ascii c in
  if is_digit c then Some (n - 48)%N
  else if ((97 <=? n) && (n <=? 102))%N then Some (n - 87)%N
  else if ((65 <=? n) && (n <=? 70))%N then Some (n - 55)%N
  else None.

(** One character of a string literal, written. *)
Definition escape_char (c : ascii) : string :=
  match c with
  | "034"%char => String "\" dq
  | "\"%char => "\\"
  | "010"%char => "\n"
  | "013"%char => "\r"
  | "009"%char => "\t"
  | "008"%char => "\b"
  | "012"%char => "\f"
  | _ =>
      let n := N_of_ascii c in
      if ((n <? 32) || (n =? 127))%N then
        "\u00" +:+ String (hex_digit (n / 16)) (String (hex_digit (n mod 16)) "")
      else String c ""
  end.

Fixpoint escape (s : string) : string :=
  match s with
  | EmptyString => ""
  | String c s' => escape_char c +:+ escape s'
  end.

Definition print_string (s : string) : string := dq +:+ escape s +:+ dq.

Fixpoint spaces (n : nat) : string :=
  match n with
  | O => ""
  | S n' => String " " (spaces n')
  end.

(** The line break and indentation before an item at depth [lvl]. *)
Definition newline_indent (i : option nat) (lvl : nat) : string :=
  match i with
  | None => ""
  | Some n => String "010" (spaces (n * lvl))
  end.

Definition item_separator (i : option nat) (lvl : nat) : string :=
  match i with
  | None => ", "
  | Some _ => "," +:+ newline_indent i lvl
  end.

Fixpoint print (i : option nat) (lvl : nat) (v : json) : string :=
  match v with
  | JNull => "null"
  | JBool true => "true"
  | JBool false => "false"
  | JInt z => py_str_int z
  | JStr s => print_string s
  | JArr xs =>
      match xs with
      | [] => "[]"
      | _ => "[" +:+ newline_indent i (S lvl)
             +:+ String.concat (item_separator i (S lvl))
                   (map (print i (S lvl)) xs)
             +:+ newline_indent i lvl +:+ "]"
      end
  | JObj kvs =>
      match kvs with
      | [] => "{}"
      | _ => "{" +:+ newline_indent i (S lvl)
             +:+ String.concat (item_separator i (S lvl))
                   (map (fun kv => print_string (fst kv) +:+ ": "
                                   +:+ print i (S lvl) (snd kv)) kvs)
             +:+ newline_indent i lvl +:+ "}"
      end
  end.

Definition dumps (i : option nat) (v : json) : string := print i 0 v.

Fixpoint skip_ws (s : string) : string :=
  match s with
  | String c s' => if is_ws c then skip_ws s' else s
  | EmptyString => s
  end.

(** The character that an escape letter stands for. *)
Definition unescape (e : ascii) : option ascii :=
  if Ascii.eqb e "034" then Some "034"%char
  else if Ascii.eqb e "\" then Some "\"%char
  else if Ascii.eqb e "/" then Some "/"%char
  else if Ascii.eqb e "n" then Some "010"%char
  else if Ascii.eqb e "r" then Some "013"%char
  else if Ascii.eqb e "t" then Some "009"%char
  else if Ascii.eqb e "b" then Some "008"%char
  else if Ascii.eqb e "f" then Some "012"%char
  else None.

(** The character of a [\u] escape, when it is below 256. *)
Definition unescape_hex (h1 h2 h3 h4 : ascii) : option ascii :=
  match hex_value h1, hex_value h2, hex_value h3, hex_value h4 with
  | Some 0%N, Some 0%N, Some a, Some b => Some (ascii_of_N (16 * a + b))
  | _, _, _, _ => None
  end.

Definition push (c : ascii) (tl : option (string * string))
  : option (string * string) :=
  match tl with
  | Some (str, r) => Some (String c str, r)
  | None => None
  end.

(** The body of a string literal, up to and including its closing
    quote. *)
Fixpoint parse_chars (s : string) : option (string * string) :=
  match s with
  | EmptyString => None
  | String c r =>
      if Ascii.eqb c "034" then Some ("", r)
      else if Ascii.eqb c "\" then
        match r with
        | String e r' =>
            match unescape e with
            | Some c' => push c' (parse_chars r')
            | None =>
                if Ascii.eqb e "u" then
                  match r' with
                  | String h1 (String h2 (String h3 (String h4 r''))) =>
                      match unescape_hex h1 h2 h3 h4 with
                      | Some c' => push c' (parse_chars r'')
                      | None => None
                      end
                  | _ => None
                  end
                else None
            end
        | EmptyString => None
        end
      else push c (parse_chars r)
  end.

(** The longest run of digits at the head of a text. *)
Fixpoint take_digits (s : string) : string * string :=
  match s with
  | String c s' =>
      if is_digit c then let (d, r) := take_digits s' in (String c d, r)
      else ("", s)
  | EmptyString => ("", s)
  end.

(** What may follow an integer: not the fraction or exponent of a
    float. *)
Definition ends_number (s : string) : bool :=
  match s with
  | String c _ =>
      negb (is_digit c || Ascii.eqb c "." || Ascii.eqb c "e" || Ascii.eqb c "E")
  | EmptyString => true
  end.

Definition parse_int (s : string) : option (json * string) :=
  let (neg, s1) := match s with
                   | String "-" s' => (true, s')
                   | _ => (false, s)
                   end in
  let (d, r) := take_digits s1 in
  if ends_number r then
    match NilZero.uint_of_string d with
    | Some u => Some (JInt (if neg then Z.opp (Z.of_uint u) else Z.of_uint u), r)
    | None => None
    end
  else None.

(** [s] without its prefix [lit]. *)
Fixpoint strip_prefix (lit s : string) : option string :=
  match lit with
  | EmptyString => Some s
  | String c lit' =>
      match s with
      | String d s' => if Ascii.eqb c d then strip_prefix lit' s' else None
      | EmptyString => None
      end
  end.

Definition expect (lit : string) (v : json) (s : string) : option (json * string) :=
  match strip_prefix lit s with
  | Some r => Some (v, r)
  | None => None
  end.

(** The dict that [json.loads] builds from the members of an object, in
    the order of the text: a repeated key keeps its first place and its
    last value. *)
Definition dict_of (kvs : list (string * json)) : list (string * json) :=
  fold_left (fun d kv => dict_set (fst kv) (snd kv) d) kvs [].

Fixpoint parse_value (fuel : nat) (s : string) : option (json * string) :=
  match fuel with
  | O => None
  | S fuel =>
      match skip_ws s with
      | EmptyString => None
      | String c r as t =>
          if Ascii.eqb c "n" then expect "null" JNull t
          else if Ascii.eqb c "t" then expect "true" (JBool true) t
          else if Ascii.eqb c "f" then expect "false" (JBool false) t
          else if Ascii.eqb c "034" then
            match parse_chars r with
            | Some (str, r') => Some (JStr str, r')
            | None => None
            end
          else if Ascii.eqb c "[" then
            match strip_prefix "]" (skip_ws r) with
            | Some r' => Some (JArr [], r')
            | None => match parse_elements fuel r with
                      | Some (xs, r') => Some (JArr xs, r')
                      | None => None
                      end
            end
          else if Ascii.eqb c "{" then
            match strip_prefix "}" (skip_ws r) with
            | Some r' => Some (JObj [], r')
            | None => match parse_members fuel r with
                      | Some (kvs, r') => Some (JObj (dict_of kvs), r')
                      | None => None
                      end
            end
          else parse_int t
      end
  end
with parse_elements (fuel : nat) (s : string) : option (list json * string) :=
  match fuel with
  | O => None
  | S fuel =>
      match parse_value fuel s with
      | Some (v, r) =>
          match skip_ws r with
          | String c r' =>
              if Ascii.eqb c "," then
                match parse_elements fuel r' with
                | Some (vs, r'') => Some (v :: vs, r'')
                | None => None
                end
              else if Ascii.eqb c "]" then Some ([v], r')
              else None
          | EmptyString => None
          end
      | None => None
      end
  end
with parse_members (fuel : nat) (s : string)
  : option (list (string * json) * string) :=
  match fuel with
  | O => None
  | S fuel =>
      match strip_prefix dq (skip_ws s) with
      | Some r =>
          match parse_chars r with
          | Some (k, r1) =>
              match strip_prefix ":" (skip_ws r1) with
              | Some r2 =>
                  match parse_value fuel r2 with
                  | Some (v, r3) =>
                      match skip_ws r3 with
                      | String c r4 =>
                          if Ascii.eqb c "," then
                            match parse_members fuel r4 with
                            | Some (kvs, r5) => Some ((k, v) :: kvs, r5)
                            | None => None
                            end
                          else if Ascii.eqb c "}" then Some ([(k, v)], r4)
                          else None
                      | EmptyString => None
                      end
                  | None => None
                  end
              | None => None
              end
          | None => None
          end
      | None => None
      end
  end.

Definition loads (t : string) : option json :=
  match parse_value (2 * String.length t + 2) t with
  | Some (v, r) => if bool_decide (skip_ws r = "") then Some v else None
  | None => None
  end.

End Codec.

(** ** A scripted environment

    The world is a count of the calls made so far. The service fails for
    every prompt that names "Acme Games" and otherwise answers with a small
    document of the requested shape. *)
Module Demo.

Definition mentions (name prompt : string) : bool :=
  bool_decide (is_Some (String.index 0 name prompt)).

Definition answer (sh : shape) : json :=
  match sh with
  | CompanyPersonnelResponse =>
      JObj [("company_personnel",
             JArr [JObj [("name", JStr "Ada Park"); ("role", JStr "CEO");
                         ("linkedin", JStr ""); ("x", JStr "")]])]
  | CompanyPersonnelNewsResponse => JObj [("company_personnel_news", JArr [])]
  | CompanyDetails =>
      JObj [("name", JStr "Bolt Studios"); ("country", JStr "Finland");
            ("business_type", JStr "Mobile games");
            ("any_other_details", JStr "")]
  | CompanyNewsResponse => JObj [("company_news", JArr [])]
  end.

(** [model_dump_json(indent=2)] of the four documents. *)
Definition personnel_text : string :=
  Eval vm_compute in Codec.dumps (Some 2) (answer CompanyPersonnelResponse).
Definition personnel_news_text : string :=
  Eval vm_compute in Codec.dumps (Some 2) (answer CompanyPersonnelNewsResponse).
Definition details_text : string :=
  Eval vm_compute in Codec.dumps (Some 2) (answer CompanyDetails).
Definition news_text : string :=
  Eval vm_compute in Codec.dumps (Some 2) (answer CompanyNewsResponse).

Definition answer_text (sh : shape) : string :=
  match sh with
  | CompanyPersonnelResponse => personnel_text
  | CompanyPersonnelNewsResponse => personnel_news_text
  | CompanyDetails => details_text
  | CompanyNewsResponse => news_text
  end.

Definition responses_parse (sh : shape) (prompt : string) (w : nat)
  : res string * nat :=
  if mentions "Acme Games" prompt then (Raise (RemoteError "quota"), S w)
  else (Ok (answer_text sh), S w).

Definition chat_completions_create (prompt : string) (w : nat)
  : res string * nat :=
  (Ok "### Company Details", S w).

Definition datetime_now (w : nat) : string :=
  "2025-01-06T09:00:0" +:+ py_str_int (Z.of_nat (w mod 10)).

Definition env : Env :=
  Build_Env nat responses_parse chat_completions_create datetime_now.

End Demo.

(** * Properties *)

(** ** Dicts *)

Lemma dict_get_set_eq k v d : dict_get k (dict_set k v d) = Some v.
Proof.
  induction d as [|[k' v'] d IH]; simpl.
  - by rewrite decide_True.
  - destruct (decide (k = k')) as [->|Hne]; simpl.
    + by rewrite decide_True.
    + by rewrite decide_False.
Qed.

Lemma dict_get_set_ne k k' v d :
  k <> k' -> dict_get k' (dict_set k v d) = dict_get k' d.
Proof.
  intros Hne. induction d as [|[k0 v0] d IH]; simpl.
  - rewrite decide_False; [done|congruence].
  - destruct (decide (k = k0)) as [->|Hne0]; simpl.
    + rewrite !decide_False; [done|congruence..].
    + by rewrite IH.
Qed.

Lemma dict_get_elem_of k v d : dict_get k d = Some v -> (k, v) ∈ d.
Proof.
  induction d as [|[k' v'] d IH]; simpl; [done|].
  destruct (decide (k = k')) as [->|]; intros; simplify_eq.
  - apply list_elem_of_here.
  - apply list_elem_of_further; auto.
Qed.

Lemma keys_dict_set k v d :
  keys (dict_set k v d) = if decide (k ∈ keys d) then keys d else keys d ++ [k].
Proof.
  induction d as [|[k' v'] d IH]; simpl.
  - done.
  - destruct (decide (k = k')) as [->|Hne]; simpl.
    + clear IH. case_decide as Hin; [done|]. set_solver.
    + rewrite IH. clear IH. destruct (decide (k ∈ keys d)) as [Hin|Hin].
      * case_decide as Hin'; [done|]. set_solver.
      * case_decide as Hin'; [|done]. set_solver.
Qed.

Lemma NoDup_keys_dict_set k v d : NoDup (keys d) -> NoDup (keys (dict_set k v d)).
Proof.
  intros Hnd. rewrite keys_dict_set. destruct (decide (k ∈ keys d)); [done|].
  apply NoDup_app. split_and!; [done| |apply NoDup_singleton].
  intros x Hx ->%list_elem_of_singleton. done.
Qed.

Lemma dict_set_Forall (P : string * json -> Prop) k v d :
  P (k, v) -> Forall P d -> Forall P (dict_set k v d).
Proof.
  intros Hkv. induction 1 as [|[k' v'] d Hx Hd IH]; simpl.
  - by constructor.
  - destruct (decide (k = k')); constructor; auto.
Qed.

(** ** Well-formed values *)

Lemma wf_json_JObj d :
  wf_json (JObj d) = true <->
  NoDup (keys d) /\ Forall (fun kv => wf_json (snd kv) = true) d.
Proof.
  simpl. rewrite andb_true_iff, bool_decide_eq_true, forallb_forall.
  rewrite Forall_forall. split; intros [? H]; split; try done.
  - intros x Hx. apply H. by apply list_elem_of_In.
  - intros x Hx. apply H. by apply list_elem_of_In.
Qed.

Lemma wf_json_JArr xs :
  wf_json (JArr xs) = true <-> Forall (fun x => wf_json x = true) xs.
Proof.
  simpl. rewrite forallb_forall, Forall_forall. split; intros H x Hx; apply H.
  - by apply list_elem_of_In.
  - by apply list_elem_of_In.
Qed.

Lemma wf_json_dict_set k v d :
  wf_json (JObj d) = true -> wf_json v = true ->
  wf_json (JObj (dict_set k v d)) = true.
Proof.
  rewrite !wf_json_JObj. intros [Hnd Hall] Hv. split.
  - by apply NoDup_keys_dict_set.
  - by apply dict_set_Forall.
Qed.

Lemma wf_json_dict_get k v d :
  wf_json (JObj d) = true -> dict_get k d = Some v -> wf_json v = true.
Proof.
  rewrite wf_json_JObj. intros [_ Hall] Hget%dict_get_elem_of.
  rewrite Forall_forall in Hall. by apply (Hall (k, v)).
Qed.

Lemma wf_json_strings (l : list string) : wf_json (JArr (JStr <$> l)) = true.
Proof. apply wf_json_JArr, Forall_fmap, Forall_forall. done. Qed.

Section Facts.
Context `{JL : JsonLib} `{EV : Env}.

(** ** What the loaders return *)

(** The value of a file: its parse, or [dflt] when the file is absent
    or does not parse. *)
Definition file_value (dflt : json) (t : option string) : json :=
  match t with
  | Some t => default dflt (loads t)
  | None => dflt
  end.

Definition store_value (s : state) : json :=
  file_value (JObj []) (company_data_json s).

Definition watchlist_value (s : state) : json :=
  file_value (JArr []) (watchlist_json s).

Lemma load_company_data_eq s : load_company_data s = (Ok (store_value s), s).
Proof.
  unfold load_company_data, store_value, file_value, try_except, bind,
    exists_, read_text, json_loads, ret, raise, file_text.
  destruct (company_data_json s) as [t|] eqn:Hf; simpl; rewrite ?Hf; [|done].
  by destruct (loads t).
Qed.

Lemma load_watchlist_eq s : load_watchlist s = (Ok (watchlist_value s), s).
Proof.
  unfold load_watchlist, watchlist_value, file_value, try_except, bind,
    exists_, read_text, json_loads, ret, raise, file_text.
  destruct (watchlist_json s) as [t|] eqn:Hf; simpl; rewrite ?Hf; [|done].
  by destruct (loads t).
Qed.

Lemma file_value_wf dflt t :
  wf_json dflt = true -> wf_json (file_value dflt t) = true.
Proof.
  intros Hd. destruct t as [t|]; simpl; [|done].
  destruct (loads t) as [v|] eqn:Hl; simpl; [|done]. by eapply loads_wf.
Qed.

Lemma store_value_wf s : wf_json (store_value s) = true.
Proof. by apply file_value_wf. Qed.

(** ** Bind, step by step *)

Lemma bind_Ok {A B} (m : M A) (k : A -> M B) s a s' :
  m s = (Ok a, s') -> bind m k s = k a s'.
Proof. unfold bind. by intros ->. Qed.

Lemma bind_Raise {A B} (m : M A) (k : A -> M B) s e s' :
  m s = (Raise e, s') -> bind m k s = (Raise e, s').
Proof. unfold bind. by intros ->. Qed.

Lemma bind_inv_Ok {A B} (m : M A) (k : A -> M B) s b s' :
  bind m k s = (Ok b, s') ->
  exists a s1, m s = (Ok a, s1) /\ k a s1 = (Ok b, s').
Proof.
  unfold bind. destruct (m s) as [[a|e] s1]; [eauto|done].
Qed.

Create HintDb preserves.

(** ** Invariants of a computation

    [preserves P m]: whatever [m] does, returning or raising, it takes a
    state of [P] to a state of [P]. *)
Definition preserves {A} (P : state -> Prop) (m : M A) : Prop :=
  forall s, P s -> P (snd (m s)).

Lemma preserves_ret {A} P (a : A) : preserves P (ret a).
Proof. by intros s. Qed.

Lemma preserves_raise {A} P e : preserves P (@raise _ A e).
Proof. by intros s. Qed.

Lemma preserves_lift {A} P (r : res A) : preserves P (lift r).
Proof. by intros s. Qed.

Lemma preserves_bind {A B} P (m : M A) (k : A -> M B) :
  preserves P m -> (forall a, preserves P (k a)) -> preserves P (bind m k).
Proof.
  intros Hm Hk s HP. unfold bind. specialize (Hm s HP).
  destruct (m s) as [[a|e] s1]; simpl in *; [by apply Hk|done].
Qed.

Lemma preserves_try_except {A} P (m : M A) h :
  preserves P m -> (forall e, preserves P (h e)) -> preserves P (try_except m h).
Proof.
  intros Hm Hh s HP. unfold try_except. specialize (Hm s HP).
  destruct (m s) as [[a|e] s1]; simpl in *; [done|by apply Hh].
Qed.

Lemma preserves_for_each {A} P (l : list A) body :
  (forall x, preserves P (body x)) -> preserves P (for_each l body).
Proof.
  intros Hb. induction l as [|x l IH]; simpl.
  - apply preserves_ret.
  - apply preserves_bind; [apply Hb|by intros _].
Qed.

(** ** The two writers of the company-data file *)

(** The dict that [save_intermediate_data] builds in memory from the
    loaded one, or the exception that stops it. *)
Definition intermediate_update (all_data : json) (company key data : string)
  : res json :=
  match py_contains all_data company with
  | Ok has =>
      match (if negb has then py_setitem all_data company (JObj [])
             else Ok all_data) with
      | Ok all_data' =>
          match loads data with
          | Some value => py_setitem_nested all_data' company key value
          | None => Raise JSONDecodeError
          end
      | Raise e => Raise e
      end
  | Raise e => Raise e
  end.

(** The state after [COMPANY_DATA_FILE.write_text(json.dumps(v, indent=2))]. *)
Definition written (v : json) (s : state) : state :=
  add_event (EWrite COMPANY_DATA_FILE (dumps (Some 2) v))
    (set_file COMPANY_DATA_FILE (dumps (Some 2) v) s).

Lemma save_intermediate_data_eq company key data s :
  save_intermediate_data company key data s =
  match intermediate_update (store_value s) company key data with
  | Ok v => (Ok tt, written v s)
  | Raise e => (Raise e, s)
  end.
Proof.
  unfold save_intermediate_data, intermediate_update.
  rewrite (bind_Ok _ _ _ _ _ (load_company_data_eq s)).
  unfold bind, lift, json_loads, ret, raise, write_text, written.
  destruct (py_contains (store_value s) company) as [has|e]; [|done].
  destruct has; simpl.
  - destruct (loads data) as [v|]; [|done].
    by destruct (py_setitem_nested _ company key v).
  - destruct (py_setitem (store_value s) company (JObj [])) as [a|e]; [|done].
    destruct (loads data) as [v|]; [|done].
    by destruct (py_setitem_nested a company key v).
Qed.

Lemma save_company_data_eq company data s :
  save_company_data company data s =
  match py_setitem_nested (store_value s) company "final_summary" data with
  | Ok v => (Ok tt, written v s)
  | Raise e => (Raise e, s)
  end.
Proof.
  unfold save_company_data.
  rewrite (bind_Ok _ _ _ _ _ (load_company_data_eq s)).
  unfold bind, lift, write_text, written.
  by destruct (py_setitem_nested _ _ _ _).
Qed.

Lemma get_company_data_eq company s :
  get_company_data company s =
  (match py_get (store_value s) company (JObj []) with
   | Ok record => py_get record "final_summary" JNull
   | Raise e => Raise e
   end, s).
Proof.
  unfold get_company_data.
  rewrite (bind_Ok _ _ _ _ _ (load_company_data_eq s)).
  unfold bind, lift. by destruct (py_get _ _ _).
Qed.

Lemma store_value_written v s :
  wf_json v = true -> store_value (written v s) = v.
Proof. intros Hv. unfold store_value, written. simpl. by rewrite loads_dumps. Qed.

(** On a dict whose entry for the company is absent or a dict, the update
    sets the key in that entry. *)
Lemma intermediate_update_dict d company key data value :
  loads data = Some value ->
  (dict_get company d = None \/ exists r, dict_get company d = Some (JObj r)) ->
  intermediate_update (JObj d) company key data =
  Ok (JObj (dict_set company
              (JObj (dict_set key value
                       (match dict_get company d with
                        | Some (JObj r) => r
                        | _ => []
                        end))) d)).
Proof.
  intros Hl Hrec. unfold intermediate_update. simpl. rewrite Hl.
  destruct Hrec as [Hnone|[r Hr]].
  - rewrite Hnone. rewrite bool_decide_eq_false_2 by (by intros [? ?]). simpl.
    unfold py_setitem_nested. simpl. rewrite dict_get_set_eq. simpl.
    f_equal. f_equal. induction d as [|[k0 v0] d IH]; simpl in *.
    + by rewrite decide_True.
    + destruct (decide (company = k0)); [done|]. simpl.
      rewrite decide_False by done. f_equal. by apply IH.
  - rewrite Hr. rewrite bool_decide_eq_true_2 by eauto. simpl.
    unfold py_setitem_nested. simpl. by rewrite Hr.
Qed.

Lemma dict_set_set k v1 v2 d :
  dict_set k v2 (dict_set k v1 d) = dict_set k v2 d.
Proof.
  induction d as [|[k0 v0] d IH]; simpl.
  - by rewrite decide_True.
  - destruct (decide (k = k0)); simpl.
    + by rewrite decide_True.
    + rewrite decide_False by done. by rewrite IH.
Qed.

(** When the update succeeds, the loaded value was a dict, [data] was
    JSON text, the entry of the company was absent or a dict, and the
    result sets the key in that entry. *)
Lemma intermediate_update_Ok v company key data v' :
  intermediate_update v company key data = Ok v' ->
  exists d value r,
    v = JObj d /\ loads data = Some value /\
    (dict_get company d = None /\ r = [] \/ dict_get company d = Some (JObj r)) /\
    v' = JObj (dict_set company (JObj (dict_set key value r)) d).
Proof.
  unfold intermediate_update.
  destruct v as [| | | s0|xs|d]; simpl; try done.
  - destruct (bool_decide _); simpl; [|done].
    destruct (loads data); done.
  - destruct (existsb _ xs); simpl; [|done].
    destruct (loads data); done.
  - destruct (dict_get company d) as [rec|] eqn:Hg.
    + rewrite bool_decide_eq_true_2 by eauto. simpl.
      destruct (loads data) as [value|]; [|done].
      unfold py_setitem_nested. simpl. rewrite Hg.
      destruct rec as [| | | | |r]; simpl; try done.
      intros [= <-]. exists d, value, r. eauto.
    + rewrite bool_decide_eq_false_2 by (by intros [? ?]). simpl.
      destruct (loads data) as [value|]; [|done].
      unfold py_setitem_nested. simpl. rewrite dict_get_set_eq. simpl.
      rewrite dict_set_set. intros [= <-]. exists d, value, [].
      split_and!; [done|done|by left|done].
Qed.

(** When setting the final summary succeeds, the loaded value was a
    dict with a dict for the company. *)
Lemma final_update_Ok v company data v' :
  py_setitem_nested v company "final_summary" data = Ok v' ->
  exists d r,
    v = JObj d /\ dict_get company d = Some (JObj r) /\
    v' = JObj (dict_set company (JObj (dict_set "final_summary" data r)) d).
Proof.
  unfold py_setitem_nested. destruct v as [| | | | |d]; simpl; try done.
  destruct (dict_get company d) as [rec|] eqn:Hg; [|done].
  destruct rec as [| | | | |r]; simpl; try done.
  intros [= <-]. eauto.
Qed.

Lemma wf_json_record_update company key value r d :
  wf_json (JObj d) = true -> wf_json value = true ->
  (dict_get company d = None /\ r = [] \/ dict_get company d = Some (JObj r)) ->
  wf_json (JObj (dict_set company (JObj (dict_set key value r)) d)) = true.
Proof.
  intros Hd Hv Hr. apply wf_json_dict_set; [done|].
  apply wf_json_dict_set; [|done].
  destruct Hr as [[_ ->]|Hr]; [done|]. by eapply wf_json_dict_get.
Qed.

(** ** Invariants of the program's own operations *)

#[local] Hint Resolve preserves_ret preserves_raise preserves_lift : preserves.

Lemma preserves_unchanged {A} P (m : M A) :
  (forall s, snd (m s) = s) -> preserves P m.
Proof. intros Hm s HP. by rewrite Hm. Qed.

(** The invariant does not look at the trace or at the world. *)
Definition ignores_io (P : state -> Prop) : Prop :=
  (forall e s, P s -> P (add_event e s)) /\
  (forall w s, P s -> P (set_world w s)).

(** The invariant does not look at the company-data file. *)
Definition ignores_store (P : state -> Prop) : Prop :=
  forall t s, P s -> P (set_file COMPANY_DATA_FILE t s).

Lemma preserves_emit P e : ignores_io P -> preserves P (emit e).
Proof. intros [Ht _] s HP. by apply Ht. Qed.
#[local] Hint Resolve preserves_emit : preserves.

Lemma preserves_client_responses_parse P sh prompt :
  ignores_io P -> preserves P (client_responses_parse sh prompt).
Proof.
  intros [Ht Hw] s HP. unfold client_responses_parse.
  destruct (responses_parse sh prompt (world s)) as [r w]. simpl.
  by apply Ht, Hw.
Qed.
#[local] Hint Resolve preserves_client_responses_parse : preserves.

Lemma preserves_client_chat_completions_create P prompt :
  ignores_io P -> preserves P (client_chat_completions_create prompt).
Proof.
  intros [Ht Hw] s HP. unfold client_chat_completions_create.
  destruct (chat_completions_create prompt (world s)) as [r w]. simpl.
  by apply Ht, Hw.
Qed.
#[local] Hint Resolve preserves_client_chat_completions_create : preserves.

Lemma preserves_sources_getitem P d k : preserves P (sources_getitem d k).
Proof.
  apply preserves_unchanged. intros s. unfold sources_getitem.
  by destruct (d !! k).
Qed.
#[local] Hint Resolve preserves_sources_getitem : preserves.

Lemma preserves_load_company_data P : preserves P load_company_data.
Proof.
  apply preserves_unchanged. intros s. by rewrite load_company_data_eq.
Qed.
#[local] Hint Resolve preserves_load_company_data : preserves.

Lemma preserves_get_company_data P company :
  preserves P (get_company_data company).
Proof.
  apply preserves_unchanged. intros s. by rewrite get_company_data_eq.
Qed.
#[local] Hint Resolve preserves_get_company_data : preserves.

Lemma preserves_personnel_news_prompt P company personnel days sources :
  ignores_io P ->
  preserves P
    (format_prompt_company_personnel_news_prompt company personnel days sources).
Proof.
  intros Hio. unfold format_prompt_company_personnel_news_prompt.
  repeat (apply preserves_bind; [|intros ?]); auto with preserves.
Qed.
#[local] Hint Resolve preserves_personnel_news_prompt : preserves.

Lemma preserves_company_news_prompt P company details days sources :
  ignores_io P ->
  preserves P (format_prompt_company_news_prompt company details days sources).
Proof.
  intros Hio. unfold format_prompt_company_news_prompt.
  repeat (apply preserves_bind; [|intros ?]); auto with preserves.
Qed.
#[local] Hint Resolve preserves_company_news_prompt : preserves.

Lemma preserves_get_company_personnel P company :
  ignores_io P -> preserves P (get_company_personnel company).
Proof.
  intros Hio. unfold get_company_personnel.
  repeat (apply preserves_bind; [|intros ?]); auto with preserves.
Qed.
#[local] Hint Resolve preserves_get_company_personnel : preserves.

Lemma preserves_get_company_details P company :
  ignores_io P -> preserves P (get_company_details company).
Proof.
  intros Hio. unfold get_company_details.
  repeat (apply preserves_bind; [|intros ?]); auto with preserves.
Qed.
#[local] Hint Resolve preserves_get_company_details : preserves.

Lemma preserves_get_company_personnel_news P company personnel days sources :
  ignores_io P ->
  preserves P (get_company_personnel_news company personnel days sources).
Proof.
  intros Hio. unfold get_company_personnel_news.
  repeat (apply preserves_bind; [|intros ?]); auto with preserves.
Qed.
#[local] Hint Resolve preserves_get_company_personnel_news : preserves.

Lemma preserves_get_company_news P company details days sources :
  ignores_io P ->
  preserves P (get_company_news company details days sources).
Proof.
  intros Hio. unfold get_company_news.
  repeat (apply preserves_bind; [|intros ?]); auto with preserves.
Qed.
#[local] Hint Resolve preserves_get_company_news : preserves.

(** The keys under which [run_news_agent] saves. *)
Definition stage_keys : list string :=
  ["personnel"; "personnel_news"; "company_details"].

(** What follows the third save of [run_news_agent]. *)
Definition format_stage
    (company personnel personnel_news company_details : string) : M string :=
  let* company_news :=
    get_company_news company company_details NUMBER_OF_DAYS
      TRUSTED_NEWS_SOURCES in
  let* _ := emit (EPrint "--------------------------------") in
  let* _ := emit (EPrint (format_prompt company personnel personnel_news
                            company_details company_news)) in
  let* _ := emit (EPrint "--------------------------------") in
  client_chat_completions_create
    (format_prompt company personnel personnel_news company_details
       company_news).

Lemma preserves_format_stage P company personnel personnel_news details :
  ignores_io P ->
  preserves P (format_stage company personnel personnel_news details).
Proof.
  intros Hio. unfold format_stage.
  repeat (apply preserves_bind; [|intros ?]); auto with preserves.
Qed.

Lemma preserves_run_news_agent P company :
  ignores_io P ->
  (forall key data, key ∈ stage_keys ->
     preserves P (save_intermediate_data company key data)) ->
  preserves P (run_news_agent company).
Proof.
  intros Hio Hsave. unfold run_news_agent.
  apply preserves_bind; [by apply preserves_get_company_personnel|intros ?].
  apply preserves_bind; [apply Hsave; set_solver|intros _].
  apply preserves_bind; [by apply preserves_get_company_personnel_news|intros ?].
  apply preserves_bind; [apply Hsave; set_solver|intros _].
  apply preserves_bind; [by apply preserves_get_company_details|intros ?].
  apply preserves_bind; [apply Hsave; set_solver|intros _].
  by apply preserves_format_stage.
Qed.

Lemma preserves_now_isoformat P : preserves P now_isoformat.
Proof. by apply preserves_unchanged. Qed.

Lemma preserves_refresh_one P callback comp :
  ignores_io P -> preserves P (callback comp) ->
  (forall summary timestamp,
     preserves P (save_company_data comp (final_summary summary timestamp))) ->
  preserves P (refresh_one callback comp).
Proof.
  intros Hio Hcb Hsave. unfold refresh_one.
  apply preserves_try_except; [|intros e; by apply preserves_emit].
  apply preserves_bind; [done|intros ?].
  apply preserves_bind; [apply preserves_now_isoformat|intros ?]. apply Hsave.
Qed.

Lemma preserves_fetch_summary P company :
  ignores_io P -> preserves P (run_news_agent company) ->
  (forall summary timestamp,
     preserves P (save_company_data company (final_summary summary timestamp))) ->
  preserves P (fetch_summary company).
Proof.
  intros Hio Hcb Hsave. unfold fetch_summary.
  apply preserves_try_except; [|intros e; by apply preserves_emit].
  apply preserves_bind; [done|intros ?].
  apply preserves_bind; [apply preserves_now_isoformat|intros ?]. apply Hsave.
Qed.

(** Either writer leaves the state as it is or alters the company-data
    file and the trace. *)
Lemma preserves_save_intermediate_data P company key data :
  ignores_io P -> ignores_store P ->
  preserves P (save_intermediate_data company key data).
Proof.
  intros [Ht _] Hs s HP. rewrite save_intermediate_data_eq.
  destruct (intermediate_update _ _ _ _); [|done]. simpl.
  by apply Ht, Hs.
Qed.

Lemma preserves_save_company_data P company data :
  ignores_io P -> ignores_store P ->
  preserves P (save_company_data company data).
Proof.
  intros [Ht _] Hs s HP. rewrite save_company_data_eq.
  destruct (py_setitem_nested _ _ _ _); [|done]. simpl.
  by apply Ht, Hs.
Qed.

End Facts.

Section Claims.
Context `{JL : JsonLib} `{EV : Env}.

(** A store in which neither file exists. *)
Definition fresh (w : World) : state :=
  {| world := w; watchlist_json := None; company_data_json := None;
     heap := []; session_state := ∅; jobs := []; trace := [] |}.

(** A file that is absent, or whose text does not parse. *)
Definition unreadable (t : option string) : Prop :=
  t = None \/ exists text, t = Some text /\ loads text = None.

(** The company-data file holds nothing, or a dict of dicts: what the
    program itself writes. *)
Definition store_ok (s : state) : Prop :=
  exists d, store_value s = JObj d /\
            Forall (fun kv => exists r, snd kv = JObj r) d.

(** [load_company_data()[company][key]]. *)
Definition lookup_stage (company key : string) : M json :=
  let* all_data := load_company_data in
  let* record := lift (py_getitem all_data company) in
  lift (py_getitem record key).

(** ** The sorted set of names *)

Lemma sorted_set_Sorted l : Sorted String.le (sorted_set l).
Proof. apply Sorted_merge_sort; apply _. Qed.

Lemma sorted_set_NoDup l : NoDup (sorted_set l).
Proof.
  unfold sorted_set. rewrite merge_sort_Permutation. apply NoDup_remove_dups.
Qed.

Lemma elem_of_sorted_set l x : x ∈ sorted_set l <-> x ∈ l.
Proof.
  unfold sorted_set. rewrite merge_sort_Permutation. apply elem_of_remove_dups.
Qed.

(** The order in which [set] enumerates the names does not matter, and
    neither do repetitions. *)
Lemma sorted_set_ext l1 l2 :
  (forall x, x ∈ l1 <-> x ∈ l2) -> sorted_set l1 = sorted_set l2.
Proof.
  intros Heq. apply (Sorted_unique String.le); try apply sorted_set_Sorted.
  apply NoDup_Permutation; try apply sorted_set_NoDup.
  intros x. rewrite !elem_of_sorted_set. apply Heq.
Qed.

Lemma unreadable_file_value dflt t : unreadable t -> file_value dflt t = dflt.
Proof. intros [->|(text & -> & Hl)]; simpl; [done|]. by rewrite Hl. Qed.

(** C8. With no watch-list file and no company-data file, or with files
    whose text does not parse, [load_watchlist] returns the empty list,
    [load_company_data] the empty dict and [get_company_data] returns
    [None] for every company; none of them raises and none changes the
    state. *)
Theorem loaders_fail_soft (s : state) (company : string) :
  (unreadable (watchlist_json s) -> load_watchlist s = (Ok (JArr []), s)) /\
  (unreadable (company_data_json s) ->
   load_company_data s = (Ok (JObj []), s) /\
   get_company_data company s = (Ok JNull, s)).
Proof.
  split.
  - intros Hu. rewrite load_watchlist_eq. unfold watchlist_value.
    by rewrite (unreadable_file_value _ _ Hu).
  - intros Hu. rewrite load_company_data_eq, get_company_data_eq.
    unfold store_value. by rewrite (unreadable_file_value _ _ Hu).
Qed.

(** C10. When [data] is not JSON text, [save_intermediate_data] raises
    and the state, the company-data file included, is what it was. *)
Theorem save_intermediate_data_invalid_json
    (s : state) (company key data : string) :
  loads data = None ->
  exists e, save_intermediate_data company key data s = (Raise e, s).
Proof.
  intros Hl. rewrite save_intermediate_data_eq. unfold intermediate_update.
  rewrite Hl.
  destruct (py_contains (store_value s) company) as [has|e]; [|eauto].
  destruct (if negb has then _ else _) as [a|e]; eauto.
Qed.

(** In a store without a record for the company, [save_company_data]
    raises [KeyError] and writes nothing. *)
Lemma save_company_data_no_record s d company data :
  store_value s = JObj d -> dict_get company d = None ->
  save_company_data company data s = (Raise (KeyError company), s).
Proof.
  intros Hs Hd. rewrite save_company_data_eq, Hs.
  unfold py_setitem_nested. simpl. by rewrite Hd.
Qed.

(** In a store with a record for the company, [save_company_data] sets
    its ["final_summary"] and leaves the other records as they are. *)
Lemma save_company_data_record s d r company data :
  store_value s = JObj d -> dict_get company d = Some (JObj r) ->
  save_company_data company data s =
  (Ok tt, written (JObj (dict_set company
                           (JObj (dict_set "final_summary" data r)) d)) s).
Proof.
  intros Hs Hd. rewrite save_company_data_eq, Hs.
  unfold py_setitem_nested. simpl. by rewrite Hd.
Qed.

(** C1. On a store in which neither file exists, [save_company_data]
    raises [KeyError] for the company and leaves the store as it was: the
    record is not inserted. *)
Theorem save_company_data_fresh_store (w : World) (company : string) (data : json) :
  save_company_data company data (fresh w) = (Raise (KeyError company), fresh w).
Proof. by apply (save_company_data_no_record _ []). Qed.

Lemma fresh_store_ok w : store_ok (fresh w).
Proof. exists []. split; [done|constructor]. Qed.

Lemma unreadable_store_ok s : unreadable (company_data_json s) -> store_ok s.
Proof.
  intros Hu. exists []. unfold store_value.
  rewrite (unreadable_file_value _ _ Hu). split; [done|constructor].
Qed.

Lemma store_ok_record s :
  store_ok s ->
  exists d, store_value s = JObj d /\
    forall company, dict_get company d = None \/
                    exists r, dict_get company d = Some (JObj r).
Proof.
  intros (d & Hs & Hall). exists d. split; [done|]. intros company.
  destruct (dict_get company d) as [v|] eqn:Hg; [right|by left].
  apply dict_get_elem_of in Hg. rewrite Forall_forall in Hall.
  destruct (Hall _ Hg) as [r Hr]. simpl in Hr. subst. eauto.
Qed.

(** C4. On a store that is absent, unreadable or a dict of dicts,
    [save_intermediate_data company key data], for [data] the JSON text
    of [value], returns, and [load_company_data()[company][key]] is then
    [value]; this covers the store with no record for the company. *)
Theorem save_intermediate_data_round_trip
    (s : state) (company key data : string) (value : json) :
  store_ok s -> loads data = Some value ->
  exists s', save_intermediate_data company key data s = (Ok tt, s') /\
             lookup_stage company key s' = (Ok value, s').
Proof.
  intros Hok Hl. destruct (store_ok_record _ Hok) as (d & Hs & Hrec).
  pose proof (store_value_wf s) as Hwf. rewrite Hs in Hwf.
  rewrite save_intermediate_data_eq, Hs.
  rewrite (intermediate_update_dict _ _ _ _ _ Hl (Hrec company)).
  eexists. split; [done|]. unfold lookup_stage.
  rewrite (bind_Ok _ _ _ _ _ (load_company_data_eq _)).
  rewrite store_value_written.
  - unfold bind, lift. simpl. rewrite dict_get_set_eq. simpl.
    by rewrite dict_get_set_eq.
  - apply wf_json_dict_set; [done|]. apply wf_json_dict_set.
    + destruct (Hrec company) as [->|[r Hr]]; [done|]. rewrite Hr.
      by eapply wf_json_dict_get.
    + by eapply loads_wf.
Qed.

(** The two writers keep the store a dict of dicts, so every store that
    the program builds from no file at all is one. *)
Lemma store_ok_written s d company key value r :
  store_value s = JObj d -> Forall (fun kv => exists r, snd kv = JObj r) d ->
  wf_json value = true ->
  (dict_get company d = None /\ r = [] \/ dict_get company d = Some (JObj r)) ->
  store_ok (written (JObj (dict_set company (JObj (dict_set key value r)) d)) s).
Proof.
  intros Hs Hall Hv Hr.
  pose proof (store_value_wf s) as Hwf. rewrite Hs in Hwf.
  eexists. split.
  - apply store_value_written. by apply wf_json_record_update.
  - apply dict_set_Forall; [|done]. simpl. eauto.
Qed.

Lemma store_ok_save_intermediate_data company key data :
  preserves store_ok (save_intermediate_data company key data).
Proof.
  intros s (d & Hs & Hall). rewrite save_intermediate_data_eq.
  destruct (intermediate_update _ _ _ _) as [v|e] eqn:Hu; [|by exists d].
  apply intermediate_update_Ok in Hu as (d' & value & r & Hs' & Hl & Hr & ->).
  rewrite Hs in Hs'. simplify_eq. simpl.
  apply store_ok_written; try done. by eapply loads_wf.
Qed.

Lemma store_ok_save_company_data company data :
  wf_json data = true -> preserves store_ok (save_company_data company data).
Proof.
  intros Hwf s (d & Hs & Hall). rewrite save_company_data_eq.
  destruct (py_setitem_nested _ _ _ _) as [v|e] eqn:Hu; [|by exists d].
  apply final_update_Ok in Hu as (d' & r & Hs' & Hr & ->).
  rewrite Hs in Hs'. simplify_eq. simpl.
  apply store_ok_written; try done. by right.
Qed.

(** C3. [save_watchlist] followed by [load_watchlist] returns the names
    of the input, each once, in increasing order; and saving a list to
    which a name it already holds has been appended writes the same
    file. *)
Theorem save_load_watchlist (l : list string) (s : state) :
  let s' := snd (save_watchlist l s) in
  save_watchlist l s = (Ok tt, s') /\
  load_watchlist s' = (Ok (JArr (JStr <$> sorted_set l)), s') /\
  Sorted String.le (sorted_set l) /\
  NoDup (sorted_set l) /\
  (forall x, x ∈ sorted_set l <-> x ∈ l) /\
  (forall x, x ∈ l ->
     watchlist_json (snd (save_watchlist (l ++ [x]) s)) = watchlist_json s').
Proof.
  simpl. split_and!.
  - done.
  - rewrite load_watchlist_eq. f_equal. f_equal.
    unfold watchlist_value, save_watchlist, write_text. simpl.
    rewrite loads_dumps; [done|apply wf_json_strings].
  - apply sorted_set_Sorted.
  - apply sorted_set_NoDup.
  - apply elem_of_sorted_set.
  - intros x Hx. unfold save_watchlist, write_text. simpl.
    do 4 f_equal. apply sorted_set_ext. intros y.
    rewrite elem_of_app, list_elem_of_singleton. naive_solver.
Qed.

(** The categories that both news prompts read from the configuration. *)
Definition required_categories : list string :=
  ["gaming_industry"; "business_sources"; "company_channels"].

Lemma sources_getitem_Some d k l s :
  d !! k = Some l -> sources_getitem d k s = (Ok l, s).
Proof. unfold sources_getitem. by intros ->. Qed.

Lemma sources_getitem_None d k s :
  d !! k = None -> sources_getitem d k s = (Raise (KeyError k), s).
Proof. unfold sources_getitem. by intros ->. Qed.

(** C7. With a configuration that lacks one of the three categories,
    building the personnel-news prompt and building the company-news
    prompt both raise [KeyError] for a missing category; no prompt is
    returned and nothing is printed. *)
Theorem news_prompts_need_every_category
    (company prior : string) (days : Z)
    (sources : gmap string (list string)) (category : string) (s : state) :
  category ∈ required_categories -> sources !! category = None ->
  exists missing,
    missing ∈ required_categories /\ sources !! missing = None /\
    format_prompt_company_personnel_news_prompt company prior days sources s
    = (Raise (KeyError missing), s) /\
    format_prompt_company_news_prompt company prior days sources s
    = (Raise (KeyError missing), s).
Proof.
  intros Hin Hnone.
  unfold format_prompt_company_personnel_news_prompt,
    format_prompt_company_news_prompt.
  destruct (sources !! "gaming_industry") as [g|] eqn:Hg; cycle 1.
  { exists "gaming_industry". split_and!; [set_solver|done|..];
      by rewrite (bind_Raise _ _ _ _ _ (sources_getitem_None _ _ _ Hg)). }
  rewrite !(bind_Ok _ _ _ _ _ (sources_getitem_Some _ _ _ _ Hg)).
  destruct (sources !! "business_sources") as [b|] eqn:Hb; cycle 1.
  { exists "business_sources". split_and!; [set_solver|done|..];
      by rewrite (bind_Raise _ _ _ _ _ (sources_getitem_None _ _ _ Hb)). }
  rewrite !(bind_Ok _ _ _ _ _ (sources_getitem_Some _ _ _ _ Hb)).
  destruct (sources !! "company_channels") as [c|] eqn:Hc; cycle 1.
  { exists "company_channels". split_and!; [set_solver|done|..];
      by rewrite (bind_Raise _ _ _ _ _ (sources_getitem_None _ _ _ Hc)). }
  exfalso. unfold required_categories in Hin.
  repeat (apply elem_of_cons in Hin as [->|Hin]; [congruence|]).
  by apply not_elem_of_nil in Hin.
Qed.

(** ** The keys of a company record *)

Definition allowed_keys : list string := stage_keys ++ ["final_summary"].

(** Every record of the store is a dict whose keys are among
    [allowed_keys]. *)
Definition keys_ok (s : state) : Prop :=
  exists d, store_value s = JObj d /\
    Forall (fun kv => exists r, snd kv = JObj r /\ keys r ⊆ allowed_keys) d.

Lemma keys_ok_record s d company r :
  keys_ok s -> store_value s = JObj d -> dict_get company d = Some (JObj r) ->
  keys r ⊆ allowed_keys.
Proof.
  intros (d' & Hs & Hall) Hs' Hg. rewrite Hs in Hs'. simplify_eq.
  apply dict_get_elem_of in Hg. rewrite Forall_forall in Hall.
  destruct (Hall _ Hg) as (r' & Hr & Hk). simpl in Hr. by simplify_eq.
Qed.

Lemma wf_final_summary summary timestamp :
  wf_json (final_summary summary timestamp) = true.
Proof.
  apply wf_json_JObj. split.
  - simpl. apply NoDup_cons. split; [set_solver|]. apply NoDup_singleton.
  - repeat constructor.
Qed.

(** A write that sets an allowed key in the record of a company. *)
Lemma keys_ok_written s d company key value r :
  keys_ok s -> store_value s = JObj d -> wf_json value = true ->
  (dict_get company d = None /\ r = [] \/ dict_get company d = Some (JObj r)) ->
  key ∈ allowed_keys ->
  keys_ok (written (JObj (dict_set company (JObj (dict_set key value r)) d)) s).
Proof.
  intros Hok Hs Hv Hr Hkey.
  pose proof (store_value_wf s) as Hwf. rewrite Hs in Hwf.
  eexists. split.
  { apply store_value_written. by apply wf_json_record_update. }
  destruct Hok as (d' & Hs' & Hall). rewrite Hs in Hs'. simplify_eq.
  apply dict_set_Forall; [|done]. simpl. eexists. split; [done|].
  rewrite keys_dict_set. intros k Hk.
  assert (keys r ⊆ allowed_keys) as Hsub.
  { destruct Hr as [[_ ->]|Hr]; [set_solver|].
    eapply keys_ok_record; [|done..]. by exists d'. }
  destruct (decide (key ∈ keys r)); [by apply Hsub|].
  apply elem_of_app in Hk as [Hk|Hk%list_elem_of_singleton]; [by apply Hsub|].
  by subst.
Qed.

Lemma keys_ok_save_intermediate_data company key data :
  key ∈ allowed_keys -> preserves keys_ok (save_intermediate_data company key data).
Proof.
  intros Hkey s Hok. rewrite save_intermediate_data_eq.
  destruct (intermediate_update _ _ _ _) as [v|e] eqn:Hu; [|done].
  apply intermediate_update_Ok in Hu as (d & value & r & Hs & Hl & Hr & ->).
  simpl. apply keys_ok_written; try done. by eapply loads_wf.
Qed.

Lemma keys_ok_save_company_data company data :
  wf_json data = true -> preserves keys_ok (save_company_data company data).
Proof.
  intros Hwf s Hok. rewrite save_company_data_eq.
  destruct (py_setitem_nested _ _ _ _) as [v|e] eqn:Hu; [|done].
  apply final_update_Ok in Hu as (d & r & Hs & Hr & ->).
  simpl. apply keys_ok_written; try done; [by right|].
  unfold allowed_keys, stage_keys. set_solver.
Qed.

Lemma keys_ok_ignores_io : ignores_io keys_ok.
Proof. split; by intros ? s. Qed.

Lemma keys_ok_run_news_agent company : preserves keys_ok (run_news_agent company).
Proof.
  apply preserves_run_news_agent; [apply keys_ok_ignores_io|].
  intros key data Hkey. apply keys_ok_save_intermediate_data.
  unfold allowed_keys. set_solver.
Qed.

(** ** Invariants of a session *)

(** The invariant looks at the company-data file only. *)
Definition store_only (P : state -> Prop) : Prop :=
  forall s s', company_data_json s = company_data_json s' -> P s -> P s'.

Lemma preserves_store_only {A} P (m : M A) :
  store_only P ->
  (forall s, company_data_json s = company_data_json (snd (m s))) ->
  preserves P m.
Proof. intros Hso Hm s HP. exact (Hso s _ (Hm s) HP). Qed.

Lemma store_only_ignores_io P : store_only P -> ignores_io P.
Proof. intros Hso. split; intros ? s; by apply Hso. Qed.

Lemma preserves_display_summary P comp :
  store_only P -> preserves P (display_summary comp).
Proof.
  intros Hso. pose proof (store_only_ignores_io P Hso) as Hio.
  unfold display_summary.
  apply preserves_bind; [apply preserves_get_company_data|intros data].
  destruct (py_not data); [by apply preserves_emit|].
  repeat (apply preserves_bind; [|intros ?]);
    auto using preserves_emit, preserves_lift.
Qed.

Lemma preserves_add_to_watchlist P company_input watchlist :
  store_only P -> preserves P (add_to_watchlist company_input watchlist).
Proof.
  intros Hso. pose proof (store_only_ignores_io P Hso) as Hio.
  unfold add_to_watchlist.
  apply preserves_bind; [by apply preserves_unchanged|intros l0].
  destruct (bool_decide _); [|by apply preserves_emit].
  apply preserves_bind; [by apply preserves_store_only|intros _].
  apply preserves_bind; [by apply preserves_unchanged|intros l1].
  apply preserves_bind; [by apply preserves_store_only|intros _].
  by apply preserves_emit.
Qed.

Lemma preserves_page P u loaded :
  store_only P -> preserves P (fetch_summary (company_input u)) ->
  preserves P (page u loaded).
Proof.
  intros Hso Hfetch. pose proof (store_only_ignores_io P Hso) as Hio.
  unfold page.
  apply preserves_bind; [by apply preserves_store_only|intros watchlist].
  apply preserves_bind; [|intros _].
  { destruct (st_button _ _); [done|apply preserves_ret]. }
  apply preserves_bind; [|intros _].
  { destruct (st_button _ _); [|apply preserves_ret].
    by apply preserves_add_to_watchlist. }
  apply preserves_bind; [|intros _].
  { destruct (bool_decide _); [apply preserves_ret|].
    by apply preserves_display_summary. }
  apply preserves_bind; [by apply preserves_unchanged|intros l0].
  apply preserves_bind; [|intros _].
  { destruct (bool_decide _); [by apply preserves_emit|apply preserves_ret]. }
  apply preserves_bind; [|intros _].
  { apply preserves_for_each. intros comp. by apply preserves_display_summary. }
  apply preserves_bind; [by apply preserves_unchanged|intros fresh0].
  destruct fresh0; [|apply preserves_ret].
  apply preserves_bind; [|intros _]; by apply preserves_store_only.
Qed.

(** An invariant of the "Fetch Summary" flow and of the weekly job is an
    invariant of every session. *)
Lemma preserves_session P acts s s' :
  store_only P ->
  (forall company, preserves P (fetch_summary company)) ->
  (forall watchlist, preserves P (refresh_all run_news_agent watchlist)) ->
  P s -> session acts s = Some s' -> P s'.
Proof.
  intros Hso Hfetch Hjob. revert s.
  induction acts as [|a acts IH]; intros s HP; simpl; [by intros [= <-]|].
  destruct (step a s) as [s1|] eqn:Hstep; [|done]. apply IH.
  destruct a as [u|]; simpl in Hstep.
  - unfold script in Hstep. rewrite load_watchlist_eq in Hstep.
    destruct (as_str_list _) as [loaded|]; [|done]. simpl in Hstep.
    injection Hstep as <-. by apply preserves_page.
  - injection Hstep as <-.
    apply (preserves_for_each P (jobs s) fire); [|done]. intros j. unfold fire.
    apply preserves_bind; [by apply preserves_unchanged|intros wl].
    destruct (job_callback j). apply Hjob.
Qed.

Lemma keys_ok_store_only : store_only keys_ok.
Proof.
  intros s s' Heq (d & Hs & Hall). exists d. split; [|done].
  unfold store_value in *. by rewrite <-Heq.
Qed.

Lemma keys_ok_fetch_summary company : preserves keys_ok (fetch_summary company).
Proof.
  apply preserves_fetch_summary;
    [apply keys_ok_ignores_io|apply keys_ok_run_news_agent|].
  intros ??. apply keys_ok_save_company_data, wf_final_summary.
Qed.

Lemma keys_ok_refresh_all watchlist :
  preserves keys_ok (refresh_all run_news_agent watchlist).
Proof.
  apply preserves_for_each. intros comp.
  apply preserves_refresh_one;
    [apply keys_ok_ignores_io|apply keys_ok_run_news_agent|].
  intros ??. apply keys_ok_save_company_data, wf_final_summary.
Qed.

Lemma keys_ok_store_ok s : keys_ok s -> store_ok s.
Proof.
  intros (d & Hs & Hall). exists d. split; [done|].
  eapply Forall_impl; [done|]. intros kv (r & Hr & _). eauto.
Qed.

Lemma keys_ok_fresh w : keys_ok (fresh w).
Proof. exists []. split; [done|constructor]. Qed.

(** Every state that a session reaches from the store with no file has
    records with allowed keys only, and is a dict of dicts. *)
Lemma session_keys_ok w acts s : session acts (fresh w) = Some s -> keys_ok s.
Proof.
  apply (preserves_session keys_ok);
    auto using keys_ok_store_only, keys_ok_fetch_summary, keys_ok_refresh_all,
      keys_ok_fresh.
Qed.

Lemma session_store_ok w acts s : session acts (fresh w) = Some s -> store_ok s.
Proof. intros H. by eapply keys_ok_store_ok, session_keys_ok. Qed.

(** ** The events of a run that returns *)

Lemma client_responses_parse_Ok sh prompt s r s' :
  client_responses_parse sh prompt s = (Ok r, s') ->
  trace s' = trace s ++ [ERemote sh prompt (Ok r)].
Proof.
  unfold client_responses_parse.
  destruct (responses_parse sh prompt (world s)) as [r0 w].
  by intros [= -> <-].
Qed.

Lemma client_chat_completions_create_Ok prompt s r s' :
  client_chat_completions_create prompt s = (Ok r, s') ->
  trace s' = trace s ++ [EChat prompt (Ok r)].
Proof.
  unfold client_chat_completions_create.
  destruct (chat_completions_create prompt (world s)) as [r0 w].
  by intros [= -> <-].
Qed.

Lemma save_intermediate_data_Ok company key data s s' :
  save_intermediate_data company key data s = (Ok tt, s') ->
  exists text, trace s' = trace s ++ [EWrite COMPANY_DATA_FILE text].
Proof.
  rewrite save_intermediate_data_eq.
  destruct (intermediate_update _ _ _ _); [|done]. intros [= <-]. by eexists.
Qed.

Lemma personnel_news_prompt_Ok company personnel days s prompt s' :
  format_prompt_company_personnel_news_prompt company personnel days
    TRUSTED_NEWS_SOURCES s = (Ok prompt, s') ->
  exists line, trace s' = trace s ++ [EPrint line].
Proof.
  unfold format_prompt_company_personnel_news_prompt.
  intros H.
  apply bind_inv_Ok in H as (g & s1 & Hg & H).
  apply bind_inv_Ok in H as (b & s2 & Hb & H).
  apply bind_inv_Ok in H as (c & s3 & Hc & H).
  apply bind_inv_Ok in H as ([] & s4 & He & H).
  unfold sources_getitem in *.
  destruct (TRUSTED_NEWS_SOURCES !! "gaming_industry"); [|done].
  destruct (TRUSTED_NEWS_SOURCES !! "business_sources"); [|done].
  destruct (TRUSTED_NEWS_SOURCES !! "company_channels"); [|done].
  unfold ret, emit in *. simplify_eq. by eexists.
Qed.

Lemma company_news_prompt_Ok company details days s prompt s' :
  format_prompt_company_news_prompt company details days
    TRUSTED_NEWS_SOURCES s = (Ok prompt, s') -> s' = s.
Proof.
  unfold format_prompt_company_news_prompt.
  intros H.
  apply bind_inv_Ok in H as (g & s1 & Hg & H).
  apply bind_inv_Ok in H as (b & s2 & Hb & H).
  apply bind_inv_Ok in H as (c & s3 & Hc & H).
  unfold sources_getitem in *.
  destruct (TRUSTED_NEWS_SOURCES !! "gaming_industry"); [|done].
  destruct (TRUSTED_NEWS_SOURCES !! "business_sources"); [|done].
  destruct (TRUSTED_NEWS_SOURCES !! "company_channels"); [|done].
  unfold ret in *. by simplify_eq.
Qed.

Lemma emit_Ok e s u s' : emit e s = (Ok u, s') -> trace s' = trace s ++ [e].
Proof. by intros [= _ <-]. Qed.

(** The events of a run of the pipeline that returns. *)
Definition run_events
    (company personnel personnel_news details news summary : string)
    (line prompt2 prompt4 text1 text2 text3 : string) : list event :=
  [ERemote CompanyPersonnelResponse
     (format_prompt_get_company_personnel company) (Ok personnel);
   EPrintObj personnel;
   EWrite COMPANY_DATA_FILE text1;
   EPrint line;
   ERemote CompanyPersonnelNewsResponse prompt2 (Ok personnel_news);
   EPrintObj personnel_news;
   EPrintObj personnel_news;
   EWrite COMPANY_DATA_FILE text2;
   ERemote CompanyDetails (format_prompt_get_company_details company) (Ok details);
   EPrintObj details;
   EWrite COMPANY_DATA_FILE text3;
   ERemote CompanyNewsResponse prompt4 (Ok news);
   EPrintObj news;
   EPrint "--------------------------------";
   EPrint (format_prompt company personnel personnel_news details news);
   EPrint "--------------------------------";
   EChat (format_prompt company personnel personnel_news details news)
     (Ok summary)].

Lemma run_news_agent_Ok_trace company s summary s' :
  run_news_agent company s = (Ok summary, s') ->
  exists personnel personnel_news details news line prompt2 prompt4
         text1 text2 text3,
    trace s' = trace s ++ run_events company personnel personnel_news details
                            news summary line prompt2 prompt4 text1 text2 text3.
Proof.
  unfold run_news_agent, get_company_personnel, get_company_personnel_news,
    get_company_details, get_company_news. intros H.
  apply bind_inv_Ok in H as (personnel & s1 & H1 & H).
  apply bind_inv_Ok in H1 as (? & s1a & H1a%client_responses_parse_Ok & H1).
  apply bind_inv_Ok in H1 as ([] & s1b & H1b%emit_Ok & [= -> ->]).
  apply bind_inv_Ok in H as ([] & s2 & (text1 & H2)%save_intermediate_data_Ok & H).
  apply bind_inv_Ok in H as (personnel_news & s3 & H3 & H).
  apply bind_inv_Ok in H3 as (prompt2 & s3a & (line & H3a)%personnel_news_prompt_Ok & H3).
  apply bind_inv_Ok in H3 as (? & s3b & H3b%client_responses_parse_Ok & H3).
  apply bind_inv_Ok in H3 as ([] & s3c & H3c%emit_Ok & H3).
  apply bind_inv_Ok in H3 as ([] & s3d & H3d%emit_Ok & [= -> ->]).
  apply bind_inv_Ok in H as ([] & s4 & (text2 & H4)%save_intermediate_data_Ok & H).
  apply bind_inv_Ok in H as (details & s5 & H5 & H).
  apply bind_inv_Ok in H5 as (? & s5a & H5a%client_responses_parse_Ok & H5).
  apply bind_inv_Ok in H5 as ([] & s5b & H5b%emit_Ok & [= -> ->]).
  apply bind_inv_Ok in H as ([] & s6 & (text3 & H6)%save_intermediate_data_Ok & H).
  apply bind_inv_Ok in H as (news & s7 & H7 & H).
  apply bind_inv_Ok in H7 as (prompt4 & s7a & ->%company_news_prompt_Ok & H7).
  apply bind_inv_Ok in H7 as (? & s7b & H7b%client_responses_parse_Ok & H7).
  apply bind_inv_Ok in H7 as ([] & s7c & H7c%emit_Ok & [= -> ->]).
  apply bind_inv_Ok in H as ([] & s8 & H8%emit_Ok & H).
  apply bind_inv_Ok in H as ([] & s9 & H9%emit_Ok & H).
  apply bind_inv_Ok in H as ([] & s10 & H10%emit_Ok & H).
  apply client_chat_completions_create_Ok in H.
  exists personnel, personnel_news, details, news, line, prompt2, prompt4,
    text1, text2, text3.
  rewrite H, H10, H9, H8, H7c, H7b, H6, H5b, H5a, H4, H3d, H3c, H3b, H3a, H2,
    H1b, H1a.
  unfold run_events. by rewrite <-!(assoc_L (++)).
Qed.

(** C5. In a store whose records have keys among ["personnel"],
    ["personnel_news"], ["company_details"] and ["final_summary"] (the
    store with no file is one), each of the three intermediate saves, the
    save of the final summary, the pipeline, the "Fetch Summary" flow and
    the weekly job keep it so, and so does every session of page runs
    and triggers; hence no record ever holds ["company_news"]. A run of
    the pipeline that returns writes the file
    three times, before its request for the company news, and the answer
    to that request goes into the prompt of the formatter. *)
Theorem record_keys_invariant (s : state) :
  keys_ok s ->
  (forall company key data, key ∈ stage_keys ->
     keys_ok (snd (save_intermediate_data company key data s))) /\
  (forall company summary timestamp,
     keys_ok (snd (save_company_data company
                     (final_summary summary timestamp) s))) /\
  (forall company, keys_ok (snd (run_news_agent company s))) /\
  (forall company, keys_ok (snd (fetch_summary company s))) /\
  (forall watchlist, keys_ok (snd (refresh_all run_news_agent watchlist s))) /\
  (forall acts s', session acts s = Some s' -> keys_ok s') /\
  (forall s', keys_ok s' -> forall d company r,
     store_value s' = JObj d -> dict_get company d = Some (JObj r) ->
     "company_news" ∉ keys r) /\
  (forall company summary s', run_news_agent company s = (Ok summary, s') ->
     exists personnel personnel_news details news line prompt2 prompt4
            text1 text2 text3,
       trace s' = trace s ++ run_events company personnel personnel_news
                               details news summary line prompt2 prompt4
                               text1 text2 text3).
Proof.
  intros Hok. split_and!.
  - intros company key data Hkey.
    apply keys_ok_save_intermediate_data; [|done].
    unfold allowed_keys. set_solver.
  - intros company summary timestamp.
    apply keys_ok_save_company_data; [apply wf_final_summary|done].
  - intros company. by apply keys_ok_run_news_agent.
  - intros company. by apply keys_ok_fetch_summary.
  - intros watchlist. by apply keys_ok_refresh_all.
  - intros acts s'.
    apply (preserves_session keys_ok);
      auto using keys_ok_store_only, keys_ok_fetch_summary, keys_ok_refresh_all.
  - intros s' Hok' d company r Hs Hg Hin.
    pose proof (keys_ok_record _ _ _ _ Hok' Hs Hg _ Hin) as Hbad.
    unfold allowed_keys, stage_keys in Hbad. set_solver.
  - intros company summary s'. apply run_news_agent_Ok_trace.
Qed.

(** ** A failed call ends the run *)

(** The exception of a call to the model service that raised. *)
Definition failed_call (ev : event) : option exn :=
  match ev with
  | ERemote _ _ (Raise e) => Some e
  | EChat _ (Raise e) => Some e
  | _ => None
  end.

Definition quiet (evs : list event) : Prop :=
  Forall (fun ev => failed_call ev = None) evs.

(** The events that [m] adds hold no failed call, unless [m] raises the
    exception of a failed call that is its last event. *)
Definition stops_at_failure {A} (m : M A) : Prop :=
  forall s, exists evs,
    trace (snd (m s)) = trace s ++ evs /\
    match fst (m s) with
    | Ok _ => quiet evs
    | Raise e =>
        quiet evs \/
        exists pre ev, evs = pre ++ [ev] /\ quiet pre /\ failed_call ev = Some e
    end.

Lemma stops_silent {A} (m : M A) :
  (forall s, exists evs, trace (snd (m s)) = trace s ++ evs /\ quiet evs) ->
  stops_at_failure m.
Proof.
  intros Hm s. destruct (Hm s) as (evs & Ht & Hq). exists evs.
  split; [done|]. destruct (fst (m s)); auto.
Qed.

Lemma stops_unchanged {A} (m : M A) :
  (forall s, snd (m s) = s) -> stops_at_failure m.
Proof.
  intros Hm. apply stops_silent. intros s. exists []. rewrite Hm.
  split; [by rewrite app_nil_r|constructor].
Qed.

Lemma stops_emit e : failed_call e = None -> stops_at_failure (emit e).
Proof.
  intros He. apply stops_silent. intros s. exists [e]. split; [done|].
  by constructor.
Qed.

Lemma stops_bind {A B} (m : M A) (k : A -> M B) :
  stops_at_failure m -> (forall a, stops_at_failure (k a)) ->
  stops_at_failure (bind m k).
Proof.
  intros Hm Hk s. unfold bind. destruct (Hm s) as (evs1 & Ht1 & H1).
  destruct (m s) as [[a|e] s1]; simpl in *; [|by exists evs1].
  destruct (Hk a s1) as (evs2 & Ht2 & H2). exists (evs1 ++ evs2).
  rewrite Ht2, Ht1, <-(assoc_L (++)). split; [done|].
  destruct (fst (k a s1)) as [b|e].
  - by apply Forall_app.
  - destruct H2 as [H2|(pre & ev & -> & Hpre & Hev)].
    + left. by apply Forall_app.
    + right. exists (evs1 ++ pre), ev. rewrite <-(assoc_L (++)).
      split_and!; [done| |done]. by apply Forall_app.
Qed.

Lemma stops_client_responses_parse sh prompt :
  stops_at_failure (client_responses_parse sh prompt).
Proof.
  intros s. unfold client_responses_parse.
  destruct (responses_parse sh prompt (world s)) as [r w]. simpl.
  exists [ERemote sh prompt r]. split; [done|]. destruct r as [a|e].
  - by repeat constructor.
  - right. exists [], (ERemote sh prompt (Raise e)). by repeat constructor.
Qed.

Lemma stops_client_chat_completions_create prompt :
  stops_at_failure (client_chat_completions_create prompt).
Proof.
  intros s. unfold client_chat_completions_create.
  destruct (chat_completions_create prompt (world s)) as [r w]. simpl.
  exists [EChat prompt r]. split; [done|]. destruct r as [a|e].
  - by repeat constructor.
  - right. exists [], (EChat prompt (Raise e)). by repeat constructor.
Qed.

Lemma stops_sources_getitem d k : stops_at_failure (sources_getitem d k).
Proof.
  apply stops_unchanged. intros s. unfold sources_getitem. by destruct (d !! k).
Qed.

Lemma stops_save_intermediate_data company key data :
  stops_at_failure (save_intermediate_data company key data).
Proof.
  apply stops_silent. intros s. rewrite save_intermediate_data_eq.
  destruct (intermediate_update _ _ _ _) as [v|e]; simpl.
  - eexists [_]. split; [done|]. by repeat constructor.
  - exists []. split; [by rewrite app_nil_r|constructor].
Qed.

Create HintDb stops.
#[local] Hint Resolve stops_client_responses_parse
  stops_client_chat_completions_create stops_sources_getitem
  stops_save_intermediate_data : stops.

Lemma stops_ret {A} (a : A) : stops_at_failure (ret a).
Proof. by apply stops_unchanged. Qed.
#[local] Hint Resolve stops_ret : stops.

Lemma stops_print line : stops_at_failure (emit (EPrint line)).
Proof. by apply stops_emit. Qed.
Lemma stops_print_obj text : stops_at_failure (emit (EPrintObj text)).
Proof. by apply stops_emit. Qed.
#[local] Hint Resolve stops_print stops_print_obj : stops.

Lemma stops_run_news_agent company : stops_at_failure (run_news_agent company).
Proof.
  unfold run_news_agent, get_company_personnel, get_company_personnel_news,
    get_company_details, get_company_news,
    format_prompt_company_personnel_news_prompt,
    format_prompt_company_news_prompt.
  repeat first [solve [auto with stops]|apply stops_bind; [|intros ?]].
Qed.

(** If a list ends with a failed call and holds no other, a failed call
    in it is that last one. *)
Lemma quiet_split pre ev pre' ev' post :
  quiet pre -> failed_call ev' <> None ->
  pre ++ [ev] = pre' ++ ev' :: post -> post = [] /\ ev = ev'.
Proof.
  intros Hq Hev Heq. destruct (decide (post = [])) as [->|Hne].
  - by apply app_inj_tail in Heq as [_ ?].
  - destruct (exists_last Hne) as (post0 & last & ->). exfalso.
    change (pre ++ [ev] = pre' ++ (ev' :: post0) ++ [last]) in Heq.
    rewrite app_assoc in Heq. apply app_inj_tail in Heq as [-> _].
    apply Forall_app in Hq as [_ Hq]. by inversion Hq.
Qed.

(** ** The final summary seen through [get_company_data] *)

Lemma final_summary_view_written s v company' :
  (forall c, match py_get v c (JObj []) with
             | Ok record => py_get record "final_summary" JNull
             | Raise e => Raise e
             end = fst (get_company_data c s)) ->
  wf_json v = true ->
  fst (get_company_data company' (written v s)) = fst (get_company_data company' s).
Proof.
  intros Hv Hwf. rewrite <-Hv, get_company_data_eq. simpl.
  by rewrite store_value_written.
Qed.

(** A save under a key other than ["final_summary"] does not change
    what [get_company_data] returns, for any company. *)
Lemma save_intermediate_data_keeps_final_summary s0 company key data :
  key <> "final_summary" ->
  preserves (fun s => forall c, fst (get_company_data c s)
                                = fst (get_company_data c s0))
    (save_intermediate_data company key data).
Proof.
  intros Hkey s HP c. rewrite <-HP. clear HP s0.
  rewrite save_intermediate_data_eq.
  destruct (intermediate_update _ _ _ _) as [v|e] eqn:Hu; [|done].
  apply intermediate_update_Ok in Hu as (d & value & r & Hs & Hl & Hr & ->).
  simpl. pose proof (store_value_wf s) as Hwf. rewrite Hs in Hwf.
  apply final_summary_view_written.
  - intros c'. rewrite get_company_data_eq, Hs. simpl.
    destruct (decide (company = c')) as [<-|Hne].
    + rewrite dict_get_set_eq. simpl. rewrite dict_get_set_ne by done.
      by destruct Hr as [[-> ->]| ->].
    + by rewrite dict_get_set_ne.
  - apply wf_json_record_update; [done| |done]. by eapply loads_wf.
Qed.

Lemma run_news_agent_keeps_final_summary company s c :
  fst (get_company_data c (snd (run_news_agent company s)))
  = fst (get_company_data c s).
Proof.
  revert c.
  apply (preserves_run_news_agent
           (fun s' => forall c, fst (get_company_data c s')
                                = fst (get_company_data c s))); [| |done].
  - split; intros ? s' HP c; rewrite <-HP; by rewrite !get_company_data_eq.
  - intros key data Hkey. apply save_intermediate_data_keeps_final_summary.
    unfold stage_keys in Hkey. set_solver.
Qed.

(** C2. In a run of the pipeline, a call to the model service that
    raises is the last thing that happens and the run raises its
    exception. When the run raises, the "Fetch Summary" flow only shows
    the error and the weekly job only logs it: neither writes, and
    [get_company_data] returns for every company what it returned before
    the run. *)
Theorem failed_pipeline_saves_no_final_summary (company : string) (s : state) :
  let r := fst (run_news_agent company s) in
  let s1 := snd (run_news_agent company s) in
  (forall pre sh prompt e post,
     trace s1 = trace s ++ pre ++ ERemote sh prompt (Raise e) :: post ->
     post = [] /\ r = Raise e) /\
  (forall e, r = Raise e ->
     fetch_summary company s = (Ok tt, add_event (EStError e) s1) /\
     refresh_one run_news_agent company s
     = (Ok tt, add_event (ESchedulerError company e) s1) /\
     forall c, fst (get_company_data c (add_event (EStError e) s1))
               = fst (get_company_data c s) /\
               fst (get_company_data c (add_event (ESchedulerError company e) s1))
               = fst (get_company_data c s)).
Proof.
  simpl. split.
  - intros pre sh prompt e post Ht.
    destruct (stops_run_news_agent company s) as (evs & Hevs & Hr).
    rewrite Hevs in Ht. apply app_inv_head in Ht. subst evs.
    destruct (fst (run_news_agent company s)) as [a|e0].
    + apply Forall_app in Hr as [_ Hr]. by inversion Hr.
    + destruct Hr as [Hr|(pre0 & ev & Heq & Hq & Hev)].
      * apply Forall_app in Hr as [_ Hr]. by inversion Hr.
      * symmetry in Heq. apply quiet_split in Heq as [-> ->]; [|done..].
        simpl in Hev. by simplify_eq.
  - intros e Hr. unfold fetch_summary, refresh_one, try_except, bind, emit.
    destruct (run_news_agent company s) as [r s1] eqn:Hrun. simpl in *.
    subst r. split_and!; [done..|]. intros c.
    pose proof (run_news_agent_keeps_final_summary company s c) as Hc.
    rewrite Hrun in Hc. simpl in Hc. rewrite <-Hc.
    by rewrite !get_company_data_eq.
Qed.

(** ** The weekly job *)

(** A run of the pipeline that returns leaves a record, a dict, for its
    company. *)
Lemma run_news_agent_Ok company s summary s' :
  run_news_agent company s = (Ok summary, s') ->
  exists d r, store_value s' = JObj d /\ dict_get company d = Some (JObj r).
Proof.
  unfold run_news_agent. intros Hrun.
  apply bind_inv_Ok in Hrun as (personnel & s1 & _ & Hrun).
  apply bind_inv_Ok in Hrun as ([] & s2 & _ & Hrun).
  apply bind_inv_Ok in Hrun as (personnel_news & s3 & _ & Hrun).
  apply bind_inv_Ok in Hrun as ([] & s4 & _ & Hrun).
  apply bind_inv_Ok in Hrun as (details & s5 & _ & Hrun).
  apply bind_inv_Ok in Hrun as ([] & s6 & Hsave & Hrun).
  rewrite save_intermediate_data_eq in Hsave.
  destruct (intermediate_update _ _ _ _) as [v|e] eqn:Hu; [|done].
  apply intermediate_update_Ok in Hu as (d & value & r & Hs & Hl & Hr & ->).
  injection Hsave as <-.
  pose proof (store_value_wf s5) as Hwf. rewrite Hs in Hwf.
  eexists _, _. split; [|apply dict_get_set_eq].
  pose proof (preserves_format_stage
                (fun s0 => store_value s0 = JObj (dict_set company
                   (JObj (dict_set "company_details" value r)) d))
                company personnel personnel_news details) as Hp.
  change (format_stage company personnel personnel_news details
            (written (JObj (dict_set company
               (JObj (dict_set "company_details" value r)) d)) s5)
          = (Ok summary, s')) in Hrun.
  specialize (Hp ltac:(by split)
                (written (JObj (dict_set company
                   (JObj (dict_set "company_details" value r)) d)) s5)).
  rewrite Hrun in Hp. apply Hp, store_value_written, wf_json_record_update;
    [done|by eapply loads_wf|done].
Qed.

(** After such a run the final summary can be saved, and is then what
    [get_company_data] returns. *)
Lemma save_company_data_after_run company s summary s' timestamp :
  run_news_agent company s = (Ok summary, s') ->
  exists s'', save_company_data company (final_summary summary timestamp) s'
              = (Ok tt, s'') /\
              trace s'' = trace s' ++ [EWrite COMPANY_DATA_FILE
                                         (default "" (company_data_json s''))] /\
              world s'' = world s' /\
              get_company_data company s''
              = (Ok (final_summary summary timestamp), s'').
Proof.
  intros (d & r & Hs & Hr)%run_news_agent_Ok.
  rewrite (save_company_data_record _ _ _ _ _ Hs Hr).
  eexists. split_and!; [done..|].
  rewrite get_company_data_eq, store_value_written.
  - simpl. rewrite dict_get_set_eq. simpl. by rewrite dict_get_set_eq.
  - pose proof (store_value_wf s') as Hwf. rewrite Hs in Hwf.
    apply wf_json_record_update; [done|apply wf_final_summary|by right].
Qed.

Lemma refresh_one_Ok callback comp s : fst (refresh_one callback comp s) = Ok tt.
Proof.
  unfold refresh_one, try_except, emit.
  destruct (bind _ _ s) as [[[]|e] s']; done.
Qed.

Lemma refresh_all_Ok callback watchlist s :
  fst (refresh_all callback watchlist s) = Ok tt.
Proof.
  unfold refresh_all. revert s. induction watchlist as [|comp l IH]; intros s.
  - done.
  - simpl. unfold bind. pose proof (refresh_one_Ok callback comp s) as H1.
    destruct (refresh_one callback comp s) as [[[]|e] s1]; simpl in *; [|done].
    apply IH.
Qed.

(** ** What the job processes *)

(** The prompt of a request for the personnel of a company: the first
    thing the pipeline does for it. *)
Definition personnel_request (ev : event) : option string :=
  match ev with
  | ERemote CompanyPersonnelResponse prompt _ => Some prompt
  | _ => None
  end.

Definition personnel_requests (tr : list event) : list string :=
  omap personnel_request tr.

Definition side_event (ev : event) : Prop := personnel_request ev = None.

(** Every event that [m] adds satisfies [ok]. *)
Definition emits_only {A} (ok : event -> Prop) (m : M A) : Prop :=
  forall s, exists evs, trace (snd (m s)) = trace s ++ evs /\ Forall ok evs.

Lemma emits_unchanged {A} ok (m : M A) :
  (forall s, snd (m s) = s) -> emits_only ok m.
Proof.
  intros Hm s. exists []. rewrite Hm. split; [by rewrite app_nil_r|constructor].
Qed.

Lemma emits_emit (ok : event -> Prop) e : ok e -> emits_only ok (emit e).
Proof. intros He s. exists [e]. split; [done|by constructor]. Qed.

Lemma emits_bind {A B} ok (m : M A) (k : A -> M B) :
  emits_only ok m -> (forall a, emits_only ok (k a)) -> emits_only ok (bind m k).
Proof.
  intros Hm Hk s. unfold bind. destruct (Hm s) as (evs1 & Ht1 & H1).
  destruct (m s) as [[a|e] s1]; simpl in *; [|by exists evs1].
  destruct (Hk a s1) as (evs2 & Ht2 & H2). exists (evs1 ++ evs2).
  rewrite Ht2, Ht1, <-(assoc_L (++)). split; [done|]. by apply Forall_app.
Qed.

Lemma emits_client_responses_parse (ok : event -> Prop) sh prompt :
  (forall r, ok (ERemote sh prompt r)) ->
  emits_only ok (client_responses_parse sh prompt).
Proof.
  intros Hok s. unfold client_responses_parse.
  destruct (responses_parse sh prompt (world s)) as [r w]. simpl.
  exists [ERemote sh prompt r]. split; [done|]. by constructor.
Qed.

Lemma emits_client_chat_completions_create (ok : event -> Prop) prompt :
  (forall r, ok (EChat prompt r)) ->
  emits_only ok (client_chat_completions_create prompt).
Proof.
  intros Hok s. unfold client_chat_completions_create.
  destruct (chat_completions_create prompt (world s)) as [r w]. simpl.
  exists [EChat prompt r]. split; [done|]. by constructor.
Qed.

Lemma emits_save_intermediate_data (ok : event -> Prop) company key data :
  (forall text, ok (EWrite COMPANY_DATA_FILE text)) ->
  emits_only ok (save_intermediate_data company key data).
Proof.
  intros Hok s. rewrite save_intermediate_data_eq.
  destruct (intermediate_update _ _ _ _) as [v|e]; simpl.
  - eexists [_]. split; [done|]. by constructor.
  - exists []. split; [by rewrite app_nil_r|constructor].
Qed.

Lemma emits_save_company_data (ok : event -> Prop) company data :
  (forall text, ok (EWrite COMPANY_DATA_FILE text)) ->
  emits_only ok (save_company_data company data).
Proof.
  intros Hok s. rewrite save_company_data_eq.
  destruct (py_setitem_nested _ _ _ _) as [v|e]; simpl.
  - eexists [_]. split; [done|]. by constructor.
  - exists []. split; [by rewrite app_nil_r|constructor].
Qed.

Lemma emits_sources_getitem ok d k : emits_only ok (sources_getitem d k).
Proof.
  apply emits_unchanged. intros s. unfold sources_getitem. by destruct (d !! k).
Qed.

Lemma emits_ret {A} ok (a : A) : emits_only ok (ret a).
Proof. by apply emits_unchanged. Qed.

(** After its request for the personnel, the pipeline makes no other. *)
Lemma run_news_agent_trace company s :
  exists r evs,
    trace (snd (run_news_agent company s))
    = trace s ++ ERemote CompanyPersonnelResponse
                   (format_prompt_get_company_personnel company) r :: evs /\
    Forall side_event evs.
Proof.
  unfold run_news_agent, get_company_personnel.
  unfold bind at 1. unfold bind at 1. unfold client_responses_parse at 1.
  destruct (responses_parse _ _ (world s)) as [[res|e] w]; simpl.
  2:{ eexists _, []. split; [done|constructor]. }
  match goal with
  | |- context [snd (?k ?s1)] =>
      assert (emits_only side_event k) as Hk; [|destruct (Hk s1) as (evs & Ht & Hev)]
  end.
  { unfold get_company_personnel_news, get_company_details, get_company_news,
      format_prompt_company_personnel_news_prompt,
      format_prompt_company_news_prompt.
    repeat first
      [ apply emits_ret | apply emits_sources_getitem
      | apply emits_emit; done
      | apply emits_client_responses_parse; done
      | apply emits_client_chat_completions_create; done
      | apply emits_save_intermediate_data; done
      | apply emits_bind; [|intros ?] ]. }
  exists (Ok res), (EPrintObj res :: evs). split; [|by constructor].
  rewrite Ht. simpl. by rewrite <-!(assoc_L (++)).
Qed.

Lemma personnel_requests_side evs :
  Forall side_event evs -> personnel_requests evs = [].
Proof.
  induction 1 as [|ev evs Hev _ IH]; [done|].
  unfold personnel_requests, side_event in *. simpl. by rewrite Hev.
Qed.

Lemma personnel_requests_app tr1 tr2 :
  personnel_requests (tr1 ++ tr2)
  = personnel_requests tr1 ++ personnel_requests tr2.
Proof. apply omap_app. Qed.

(** One turn of the loop of the job makes one request for personnel:
    that of its company. *)
Lemma refresh_one_requests comp s :
  personnel_requests (trace (snd (refresh_one run_news_agent comp s)))
  = personnel_requests (trace s) ++ [format_prompt_get_company_personnel comp].
Proof.
  destruct (run_news_agent_trace comp s) as (r & evs & Ht & Hev).
  assert (exists evs', trace (snd (refresh_one run_news_agent comp s))
                       = trace (snd (run_news_agent comp s)) ++ evs'
                       /\ Forall side_event evs') as (evs' & Ht' & Hev').
  { unfold refresh_one, try_except. unfold bind at 1.
    destruct (run_news_agent comp s) as [[summary|e] s1]; simpl.
    - assert (emits_only side_event
                (let* timestamp := now_isoformat in
                 save_company_data comp (final_summary summary timestamp))) as Hk.
      { apply emits_bind; [by apply emits_unchanged|intros ?].
        by apply emits_save_company_data. }
      destruct (Hk s1) as (evs1 & Ht1 & Hev1).
      destruct (bind _ _ s1) as [[[]|e] s2]; simpl in *.
      + by exists evs1.
      + exists (evs1 ++ [ESchedulerError comp e]). rewrite Ht1.
        rewrite <-(assoc_L (++)). split; [done|].
        apply Forall_app. split; [done|]. by constructor.
    - exists [ESchedulerError comp e]. split; [done|]. by constructor. }
  rewrite Ht', Ht. rewrite !personnel_requests_app. simpl.
  rewrite (personnel_requests_side evs), (personnel_requests_side evs') by done.
  by rewrite app_nil_r.
Qed.

Lemma refresh_all_requests watchlist s :
  personnel_requests (trace (snd (refresh_all run_news_agent watchlist s)))
  = personnel_requests (trace s)
    ++ (format_prompt_get_company_personnel <$> watchlist).
Proof.
  unfold refresh_all. revert s.
  induction watchlist as [|comp l IH]; intros s; simpl.
  - by rewrite app_nil_r.
  - unfold bind. pose proof (refresh_one_Ok run_news_agent comp s) as Hok.
    pose proof (refresh_one_requests comp s) as Hreq.
    destruct (refresh_one run_news_agent comp s) as [[[]|e] s1];
      simpl in *; [|done].
    rewrite IH, Hreq. by rewrite <-(assoc_L (++)).
Qed.

(** ** Every name of the list has its turn *)

Lemma save_company_data_keeps_others c comp data s0 :
  c <> comp -> wf_json data = true ->
  preserves (fun s => fst (get_company_data c s) = fst (get_company_data c s0))
    (save_company_data comp data).
Proof.
  intros Hne Hwf s HP. rewrite <-HP. rewrite save_company_data_eq.
  destruct (py_setitem_nested _ _ _ _) as [v|e] eqn:Hu; [|done].
  apply final_update_Ok in Hu as (d & r & Hs & Hr & ->). simpl.
  pose proof (store_value_wf s) as Hwfs. rewrite Hs in Hwfs.
  rewrite !get_company_data_eq, store_value_written, Hs.
  - simpl. by rewrite dict_get_set_ne.
  - apply wf_json_record_update; [done..|by right].
Qed.

Lemma refresh_one_keeps_others c comp s0 :
  c <> comp ->
  preserves (fun s => fst (get_company_data c s) = fst (get_company_data c s0))
    (refresh_one run_news_agent comp).
Proof.
  intros Hne. apply preserves_refresh_one.
  - split; intros ? s HP; rewrite <-HP; by rewrite !get_company_data_eq.
  - intros s HP. rewrite <-HP. apply run_news_agent_keeps_final_summary.
  - intros ??. apply save_company_data_keeps_others; [done|].
    apply wf_final_summary.
Qed.

Lemma refresh_all_keeps_others c watchlist s :
  c ∉ watchlist ->
  fst (get_company_data c (snd (refresh_all run_news_agent watchlist s)))
  = fst (get_company_data c s).
Proof.
  unfold refresh_all. revert s.
  induction watchlist as [|comp l IH]; intros s Hc; [done|].
  apply not_elem_of_cons in Hc as [Hne Hc]. simpl. unfold bind.
  pose proof (refresh_one_keeps_others c comp s Hne s eq_refl) as H1.
  destruct (refresh_one run_news_agent comp s) as [[[]|e] s1]; simpl in *;
    [|done].
  by rewrite IH.
Qed.

(** After its turn in the loop, a name has a final summary, or its
    exception has been logged. *)
Lemma refresh_one_outcome comp s :
  exists evs,
    trace (snd (refresh_one run_news_agent comp s)) = trace s ++ evs /\
    ((exists e, ESchedulerError comp e ∈ evs) \/
     exists summary timestamp,
       fst (get_company_data comp (snd (refresh_one run_news_agent comp s)))
       = Ok (final_summary summary timestamp)).
Proof.
  destruct (stops_run_news_agent comp s) as (evs & Hevs & _).
  destruct (run_news_agent comp s) as [[summary|e] s1] eqn:Hrun; simpl in Hevs.
  - destruct (save_company_data_after_run _ _ _ _ (datetime_now (world s1)) Hrun)
      as (s2 & Hsave & Htr & _ & Hget).
    assert (refresh_one run_news_agent comp s = (Ok tt, s2)) as ->.
    { unfold refresh_one, try_except. unfold bind at 1. rewrite Hrun.
      unfold bind at 1. unfold now_isoformat. by rewrite Hsave. }
    simpl. eexists. rewrite Htr, Hevs, <-(assoc_L (++)).
    split; [done|]. right. exists summary, (datetime_now (world s1)).
    by rewrite Hget.
  - assert (refresh_one run_news_agent comp s
            = (Ok tt, add_event (ESchedulerError comp e) s1)) as ->.
    { unfold refresh_one, try_except. unfold bind at 1. by rewrite Hrun. }
    simpl. exists (evs ++ [ESchedulerError comp e]).
    rewrite Hevs, <-(assoc_L (++)). split; [done|]. left. exists e. set_solver.
Qed.

(** The loop takes the names one after the other: a turn starts in the
    state that the turn before left. *)
Lemma refresh_all_cons callback comp watchlist s :
  refresh_all callback (comp :: watchlist) s
  = refresh_all callback watchlist (snd (refresh_one callback comp s)).
Proof.
  unfold refresh_all. simpl. unfold bind.
  pose proof (refresh_one_Ok callback comp s) as Hok.
  by destruct (refresh_one callback comp s) as [[[]|e] s1].
Qed.

Lemma refresh_all_app callback l1 l2 s :
  refresh_all callback (l1 ++ l2) s
  = refresh_all callback l2 (snd (refresh_all callback l1 s)).
Proof.
  revert s. induction l1 as [|comp l1 IH]; intros s; [done|].
  change ((comp :: l1) ++ l2) with (comp :: (l1 ++ l2)).
  by rewrite !refresh_all_cons, IH.
Qed.

Lemma refresh_all_trace watchlist s :
  exists evs,
    trace (snd (refresh_all run_news_agent watchlist s)) = trace s ++ evs.
Proof.
  revert s. induction watchlist as [|comp l IH]; intros s.
  - exists []. by rewrite app_nil_r.
  - rewrite refresh_all_cons.
    destruct (refresh_one_outcome comp s) as (evs1 & Ht1 & _).
    destruct (IH (snd (refresh_one run_news_agent comp s))) as (evs2 & Ht2).
    exists (evs1 ++ evs2). by rewrite Ht2, Ht1, <-(assoc_L (++)).
Qed.

Lemma get_company_data_fst company s :
  get_company_data company s = (fst (get_company_data company s), s).
Proof. by rewrite get_company_data_eq. Qed.

(** C6. The weekly job over any watch-list in which the pipeline raises
    for one entry. At the turn of that entry the exception is caught and
    logged, and the turn returns. The loop goes on with every entry after
    it, each in the state that the turn before left, and the job requests
    the personnel of every name on the list, in order. For a later entry
    whose pipeline raises, its exception is logged in the same way; for
    one whose pipeline returns, the record of its summary and of the time
    read after that run, under the keys "summary" and "timestamp", is what
    [get_company_data] returns after its turn, and at the end of the job
    when the name does not come again. The job itself never raises,
    whatever the callback and the watch-list. *)
Theorem refresh_all_continues_after_failure
    (before mid tail : list string) (failing later : string)
    (s s1 : state) (e : exn) :
  let watchlist := before ++ failing :: mid ++ later :: tail in
  let s0 := snd (refresh_all run_news_agent before s) in
  run_news_agent failing s0 = (Raise e, s1) ->
  let logged := add_event (ESchedulerError failing e) s1 in
  let s2 := snd (refresh_all run_news_agent mid logged) in
  let final := snd (refresh_all run_news_agent watchlist s) in
  refresh_one run_news_agent failing s0 = (Ok tt, logged) /\
  refresh_all run_news_agent watchlist s
  = refresh_all run_news_agent tail
      (snd (refresh_one run_news_agent later s2)) /\
  ESchedulerError failing e ∈ trace final /\
  personnel_requests (trace final)
  = personnel_requests (trace s)
    ++ (format_prompt_get_company_personnel <$> watchlist) /\
  (forall e' s3, run_news_agent later s2 = (Raise e', s3) ->
     refresh_one run_news_agent later s2
     = (Ok tt, add_event (ESchedulerError later e') s3)) /\
  (forall summary s3, run_news_agent later s2 = (Ok summary, s3) ->
     let record := JObj [("summary", JStr summary);
                         ("timestamp", JStr (datetime_now (world s3)))] in
     exists s4,
       refresh_one run_news_agent later s2 = (Ok tt, s4) /\
       get_company_data later s4 = (Ok record, s4) /\
       (later ∉ tail -> get_company_data later final = (Ok record, final))) /\
  (forall callback watchlist s0,
     fst (refresh_all callback watchlist s0) = Ok tt).
Proof.
  intros watchlist s0 Hfail logged s2 final.
  assert (refresh_one run_news_agent failing s0 = (Ok tt, logged)) as Hturn.
  { unfold refresh_one, try_except. unfold bind at 1. by rewrite Hfail. }
  assert (refresh_all run_news_agent watchlist s
          = refresh_all run_news_agent tail
              (snd (refresh_one run_news_agent later s2))) as Hloop.
  { unfold watchlist. rewrite refresh_all_app. fold s0.
    rewrite refresh_all_cons, Hturn. simpl.
    rewrite refresh_all_app. fold s2. by rewrite refresh_all_cons. }
  split_and!; [done|done| |apply refresh_all_requests| | |].
  - unfold final, watchlist. rewrite refresh_all_app. fold s0.
    rewrite refresh_all_cons, Hturn. simpl.
    destruct (refresh_all_trace (mid ++ later :: tail) logged) as (evs & ->).
    apply elem_of_app. left. unfold logged. simpl. set_solver.
  - intros e' s3 Hlater. unfold refresh_one, try_except. unfold bind at 1.
    by rewrite Hlater.
  - intros summary s3 Hlater record.
    destruct (save_company_data_after_run _ _ _ _ (datetime_now (world s3))
                Hlater) as (s4 & Hsave & _ & _ & Hget).
    assert (refresh_one run_news_agent later s2 = (Ok tt, s4)) as Hone.
    { unfold refresh_one, try_except. unfold bind at 1. rewrite Hlater.
      unfold bind at 1. unfold now_isoformat. by rewrite Hsave. }
    exists s4. split_and!; [done|done|].
    intros Htail. rewrite get_company_data_fst. f_equal.
    unfold final. rewrite Hloop, Hone. simpl.
    rewrite (refresh_all_keeps_others later tail s4 Htail). by rewrite Hget.
  - intros callback watchlist0 s5. apply refresh_all_Ok.
Qed.

(** ** The list that a job captured *)

(** Job [j] is registered and the list object it captured holds [l]. *)
Definition captured (j : job) (l : list string) (s : state) : Prop :=
  j ∈ jobs s /\ heap s !! job_watchlist j = Some l.

Lemma captured_ignores_io j l : ignores_io (captured j l).
Proof. split; by intros ? s. Qed.

Lemma captured_ignores_store j l : ignores_store (captured j l).
Proof. by intros ? s. Qed.

Lemma captured_run_news_agent j l company :
  preserves (captured j l) (run_news_agent company).
Proof.
  apply preserves_run_news_agent; [apply captured_ignores_io|].
  intros key data _. apply preserves_save_intermediate_data;
    [apply captured_ignores_io|apply captured_ignores_store].
Qed.

Lemma captured_refresh_all j l watchlist :
  preserves (captured j l) (refresh_all run_news_agent watchlist).
Proof.
  apply preserves_for_each. intros comp.
  apply preserves_refresh_one;
    [apply captured_ignores_io|apply captured_run_news_agent|].
  intros ??. apply preserves_save_company_data;
    [apply captured_ignores_io|apply captured_ignores_store].
Qed.

Lemma captured_fire j l j' : preserves (captured j l) (fire j').
Proof.
  unfold fire. apply preserves_bind; [by apply preserves_unchanged|intros wl].
  destruct (job_callback j'). apply captured_refresh_all.
Qed.

Lemma captured_display_summary j l comp :
  preserves (captured j l) (display_summary comp).
Proof.
  pose proof (captured_ignores_io j l) as Hio.
  unfold display_summary.
  apply preserves_bind; [apply preserves_get_company_data|intros data].
  destruct (py_not data); [by apply preserves_emit|].
  repeat (apply preserves_bind; [|intros ?]);
    auto using preserves_emit, preserves_lift.
Qed.

(** Appending to another list object leaves the captured one alone. *)
Lemma captured_add_to_watchlist j l company_input watchlist :
  watchlist <> job_watchlist j ->
  preserves (captured j l) (add_to_watchlist company_input watchlist).
Proof.
  intros Hne. pose proof (captured_ignores_io j l) as Hio.
  unfold add_to_watchlist.
  apply preserves_bind; [by apply preserves_unchanged|intros l0].
  destruct (bool_decide _); [|by apply preserves_emit].
  apply preserves_bind; [|intros _].
  { intros s [Hj Hl]. split; [done|]. simpl.
    by rewrite list_lookup_alter_ne. }
  apply preserves_bind; [by apply preserves_unchanged|intros l1].
  apply preserves_bind; [|intros _; by apply preserves_emit].
  by intros s.
Qed.

Lemma captured_page j l u loaded : preserves (captured j l) (page u loaded).
Proof.
  pose proof (captured_ignores_io j l) as Hio.
  intros s [Hj Hl]. unfold page. unfold bind at 1. simpl.
  match goal with
  | |- captured j l (snd (?k ?s1)) =>
      assert (preserves (captured j l) k) as Hk; [|apply Hk]
  end.
  - assert (length (heap s) <> job_watchlist j) as Hne.
    { apply lookup_lt_Some in Hl. lia. }
    apply preserves_bind; [|intros _].
    { destruct (st_button _ _); [|apply preserves_ret].
      apply preserves_fetch_summary;
        [done|apply captured_run_news_agent|].
      intros ??. apply preserves_save_company_data;
        [done|apply captured_ignores_store]. }
    apply preserves_bind; [|intros _].
    { destruct (st_button _ _); [|apply preserves_ret].
      by apply captured_add_to_watchlist. }
    apply preserves_bind; [|intros _].
    { destruct (bool_decide _); [apply preserves_ret|].
      apply captured_display_summary. }
    apply preserves_bind; [by apply preserves_unchanged|intros l0].
    apply preserves_bind; [|intros _].
    { destruct (bool_decide _); [by apply preserves_emit|apply preserves_ret]. }
    apply preserves_bind; [|intros _].
    { apply preserves_for_each. intros comp. apply captured_display_summary. }
    apply preserves_bind; [by apply preserves_unchanged|intros fresh0].
    destruct fresh0; [|apply preserves_ret].
    apply preserves_bind; [|intros _; by intros s0].
    intros s0 [Hj0 Hl0]. split; [|done]. simpl. set_solver.
  - split; [done|]. simpl. by apply lookup_app_l_Some.
Qed.

Lemma captured_step j l a s s' :
  captured j l s -> step a s = Some s' -> captured j l s'.
Proof.
  intros Hc. destruct a as [u|]; simpl.
  - unfold script. rewrite load_watchlist_eq.
    destruct (as_str_list _) as [loaded|]; [|done]. simpl.
    intros [= <-]. by apply captured_page.
  - intros [= <-].
    apply (preserves_for_each (captured j l) (jobs s) fire); [|done].
    intros j'. apply captured_fire.
Qed.

Lemma captured_session j l acts s s' :
  captured j l s -> session acts s = Some s' -> captured j l s'.
Proof.
  revert s. induction acts as [|a acts IH]; intros s Hc; simpl.
  - by intros [= <-].
  - destruct (step a s) as [s1|] eqn:Hstep; [|done].
    apply IH. by eapply captured_step.
Qed.


End Claims.

(** ** The implementation of the [json] module is one *)

Lemma append_nil_r (s : string) : s +:+ "" = s.
Proof. induction s as [|c s IH]; [done|]. change (String c (s +:+ "") = String c s). by rewrite IH. Qed.

Lemma append_cons (c : ascii) (s t : string) : String c s +:+ t = String c (s +:+ t).
Proof. done. Qed.

Lemma append_assoc (s t u : string) : (s +:+ t) +:+ u = s +:+ t +:+ u.
Proof.
  induction s as [|c s IH]; [done|]. rewrite !append_cons. by rewrite IH.
Qed.

Lemma length_append (s t : string) :
  String.length (s +:+ t) = String.length s + String.length t.
Proof.
  induction s as [|c s IH]; [done|]. rewrite append_cons. simpl. by rewrite IH.
Qed.

(** Every character of the text is white space. *)
Fixpoint all_ws (s : string) : bool :=
  match s with
  | EmptyString => true
  | String c s' => Codec.is_ws c && all_ws s'
  end.

Lemma skip_ws_app w s : all_ws w = true -> Codec.skip_ws (w +:+ s) = Codec.skip_ws s.
Proof.
  induction w as [|c w IH]; [done|]. simpl. intros [Hc Hw]%andb_true_iff.
  rewrite Hc. by apply IH.
Qed.

Lemma skip_ws_cons c s : Codec.is_ws c = false -> Codec.skip_ws (String c s) = String c s.
Proof. intros Hc. simpl. by rewrite Hc. Qed.

Lemma all_ws_spaces n : all_ws (Codec.spaces n) = true.
Proof. induction n; [done|]. simpl. done. Qed.

Lemma all_ws_newline_indent i lvl : all_ws (Codec.newline_indent i lvl) = true.
Proof. destruct i; [|done]. simpl. apply all_ws_spaces. Qed.

(** *** String literals *)

(** How a character is written: as itself, as an escape letter or as a
    [\u00] escape. *)
Lemma escape_char_cases c :
  (Codec.escape_char c = String c "" /\
   Ascii.eqb c "034" = false /\ Ascii.eqb c "\" = false) \/
  (exists e, Codec.escape_char c = String "\" (String e "") /\
             Codec.unescape e = Some c) \/
  (exists h1 h2,
     Codec.escape_char c = "\u00" +:+ String h1 (String h2 "") /\
     Codec.unescape_hex "0" "0" h1 h2 = Some c).
Proof.
  destruct c as [[] [] [] [] [] [] [] []];
    first [ left; by vm_compute
          | right; left; eexists; split; lazy; reflexivity
          | right; right; eexists _, _; split; lazy; reflexivity ].
Qed.

Lemma parse_chars_escape_char c tail :
  Codec.parse_chars (Codec.escape_char c +:+ tail)
  = Codec.push c (Codec.parse_chars tail).
Proof.
  destruct (escape_char_cases c) as [(-> & H1 & H2)|[(e & -> & He)|(h1 & h2 & -> & Hh)]].
  - rewrite append_cons. simpl. by rewrite H1, H2.
  - rewrite !append_cons. simpl. by rewrite He.
  - change (Codec.parse_chars
              (String "\" (String "u" (String "0" (String "0"
                 (String h1 (String h2 tail))))))
            = Codec.push c (Codec.parse_chars tail)).
    simpl. by rewrite Hh.
Qed.

Lemma parse_chars_escape s rest :
  Codec.parse_chars (Codec.escape s +:+ dq +:+ rest) = Some (s, rest).
Proof.
  induction s as [|c s IH]; [done|]. simpl.
  rewrite append_assoc, parse_chars_escape_char. by rewrite IH.
Qed.

(** *** Integers *)

Lemma take_digits_rest rest :
  Codec.ends_number rest = true -> Codec.take_digits rest = ("", rest).
Proof.
  destruct rest as [|c rest]; [done|]. simpl.
  destruct (Codec.is_digit c); [done|done].
Qed.

Lemma take_digits_uint u rest :
  Codec.ends_number rest = true ->
  Codec.take_digits (NilEmpty.string_of_uint u +:+ rest)
  = (NilEmpty.string_of_uint u, rest).
Proof.
  intros Hrest. induction u; simpl; rewrite ?IHu; try done.
  by apply take_digits_rest.
Qed.

Lemma string_of_uint_nonnil u :
  u <> Decimal.Nil -> NilZero.string_of_uint u = NilEmpty.string_of_uint u.
Proof. by destruct u. Qed.

(** The digits of a number other than [Nil], read back. *)
Lemma parse_digits u rest :
  u <> Decimal.Nil -> Codec.ends_number rest = true ->
  (let (d, r) := Codec.take_digits (NilZero.string_of_uint u +:+ rest) in
   if Codec.ends_number r then
     match NilZero.uint_of_string d with
     | Some u' => Some (u', r)
     | None => None
     end
   else None) = Some (u, rest).
Proof.
  intros Hu Hrest. rewrite string_of_uint_nonnil by done.
  rewrite take_digits_uint by done. rewrite Hrest.
  rewrite <-string_of_uint_nonnil by done. by rewrite NilZero.usu.
Qed.

Lemma parse_int_nonneg u rest :
  u <> Decimal.Nil -> Codec.ends_number rest = true ->
  Codec.parse_int (NilZero.string_of_uint u +:+ rest)
  = Some (JInt (Z.of_uint u), rest).
Proof.
  intros Hu Hrest. pose proof (parse_digits u rest Hu Hrest) as Hd.
  unfold Codec.parse_int.
  assert ((match NilZero.string_of_uint u +:+ rest with
           | String "-" s' => (true, s')
           | _ => (false, NilZero.string_of_uint u +:+ rest)
           end) = (false, NilZero.string_of_uint u +:+ rest)) as ->.
  { by destruct u. }
  destruct (Codec.take_digits _) as [d r].
  destruct (Codec.ends_number r); [|done].
  destruct (NilZero.uint_of_string d); by simplify_eq.
Qed.

Lemma parse_int_neg u rest :
  u <> Decimal.Nil -> Codec.ends_number rest = true ->
  Codec.parse_int (String "-" (NilZero.string_of_uint u +:+ rest))
  = Some (JInt (- Z.of_uint u), rest).
Proof.
  intros Hu Hrest. pose proof (parse_digits u rest Hu Hrest) as Hd.
  unfold Codec.parse_int.
  destruct (Codec.take_digits _) as [d r].
  destruct (Codec.ends_number r); [|done].
  destruct (NilZero.uint_of_string d); by simplify_eq.
Qed.

Lemma parse_int_print z rest :
  Codec.ends_number rest = true ->
  Codec.parse_int (py_str_int z +:+ rest) = Some (JInt z, rest).
Proof.
  intros Hrest. unfold py_str_int. destruct z as [|p|p]; simpl.
  - by rewrite (parse_int_nonneg (Decimal.D0 Decimal.Nil)).
  - rewrite parse_int_nonneg; [|apply DecimalPos.Unsigned.to_uint_nonnil|done].
    unfold Z.of_uint. by rewrite DecimalPos.Unsigned.of_to.
  - rewrite append_cons.
    rewrite parse_int_neg; [|apply DecimalPos.Unsigned.to_uint_nonnil|done].
    unfold Z.of_uint. by rewrite DecimalPos.Unsigned.of_to.
Qed.

(** *** Values *)

(** Fuel that suffices to read a value back. *)
Fixpoint need (v : json) : nat :=
  match v with
  | JArr xs => S (sum_list (map (fun x => S (need x)) xs))
  | JObj kvs => S (sum_list (map (fun kv => S (need (snd kv))) kvs))
  | _ => 1
  end.

(** What the parser may find right after a value. *)
Definition follows (rest : string) : Prop := Codec.ends_number rest = true.

(** [v] is read back from its text at any depth, before any such rest. *)
Definition reads_back (i : option nat) (v : json) : Prop :=
  forall lvl rest fuel,
    need v <= fuel -> follows rest ->
    Codec.parse_value fuel (Codec.print i lvl v +:+ rest) = Some (v, rest).

Lemma parse_value_ws fuel w s :
  all_ws w = true -> Codec.parse_value fuel (w +:+ s) = Codec.parse_value fuel s.
Proof. intros Hw. destruct fuel; [done|]. simpl. by rewrite skip_ws_app. Qed.

Lemma parse_value_number fuel c r :
  Codec.is_digit c = true \/ c = "-"%char ->
  Codec.parse_value (S fuel) (String c r) = Codec.parse_int (String c r).
Proof.
  intros [Hc| ->]; [|done].
  destruct c as [[] [] [] [] [] [] [] []]; try discriminate Hc; reflexivity.
Qed.

Lemma py_str_int_head z rest :
  exists c r, py_str_int z +:+ rest = String c r /\
              (Codec.is_digit c = true \/ c = "-"%char).
Proof.
  unfold py_str_int. destruct z as [|p|p]; simpl.
  - eexists _, _. split; [done|]. by left.
  - pose proof (DecimalPos.Unsigned.to_uint_nonnil p) as Hn.
    destruct (Pos.to_uint p); try done;
      (eexists _, _; split; [done|]; by left).
  - eexists _, _. split; [done|]. by right.
Qed.

Lemma reads_back_scalars i :
  reads_back i JNull /\ (forall b, reads_back i (JBool b)) /\
  (forall z, reads_back i (JInt z)) /\ (forall s, reads_back i (JStr s)).
Proof.
  split_and!.
  - intros lvl rest [|fuel] Hf Hr; [simpl in Hf; lia|]. done.
  - intros [] lvl rest [|fuel] Hf Hr; try (simpl in Hf; lia); done.
  - intros z lvl rest [|fuel] Hf Hr; [simpl in Hf; lia|].
    destruct (py_str_int_head z rest) as (c & r & Heq & Hc).
    change (Codec.print i lvl (JInt z)) with (py_str_int z).
    rewrite Heq, parse_value_number by done. rewrite <-Heq.
    by apply parse_int_print.
  - intros s lvl rest [|fuel] Hf Hr; [simpl in Hf; lia|].
    change (Codec.print i lvl (JStr s)) with (Codec.print_string s).
    unfold Codec.print_string. rewrite !append_assoc. simpl.
    change ("" +:+ Codec.escape s +:+ dq +:+ rest)
      with (Codec.escape s +:+ dq +:+ rest).
    by rewrite parse_chars_escape.
Qed.

(** The text of a value begins with a character that is neither white
    space nor a closing bracket. *)
Definition opens (t : string) : Prop :=
  exists c r, t = String c r /\ Codec.is_ws c = false /\
              Ascii.eqb c "]" = false /\ Ascii.eqb c "}" = false.

Lemma opens_print_string s rest : opens (Codec.print_string s +:+ rest).
Proof.
  unfold Codec.print_string. rewrite !append_assoc.
  eexists _, _. split; [done|]. done.
Qed.

Lemma opens_print i lvl v rest : opens (Codec.print i lvl v +:+ rest).
Proof.
  destruct v as [|[]|z|s|xs|kvs].
  - by eexists _, _.
  - by eexists _, _.
  - by eexists _, _.
  - destruct (py_str_int_head z rest) as (c & r & Heq & Hc).
    exists c, r. split; [done|].
    destruct Hc as [Hc| ->]; [|done].
    destruct c as [[] [] [] [] [] [] [] []]; try discriminate Hc; done.
  - apply opens_print_string.
  - destruct xs; by eexists _, _.
  - destruct kvs; by eexists _, _.
Qed.

Lemma skip_ws_opens w t :
  all_ws w = true -> opens t -> Codec.skip_ws (w +:+ t) = t.
Proof.
  intros Hw (c & r & -> & Hc & _). rewrite skip_ws_app by done.
  by apply skip_ws_cons.
Qed.

Lemma strip_prefix_opens lit w t :
  lit = "]" \/ lit = "}" -> all_ws w = true -> opens t ->
  Codec.strip_prefix lit (Codec.skip_ws (w +:+ t)) = None.
Proof.
  intros Hlit Hw Ht. rewrite skip_ws_opens by done.
  destruct Ht as (c & r & -> & _ & H1 & H2).
  destruct Hlit as [-> | ->].
  - change (Codec.strip_prefix "]" (String c r))
      with (if Ascii.eqb "]" c then Some r else None).
    by rewrite Ascii.eqb_sym, H1.
  - change (Codec.strip_prefix "}" (String c r))
      with (if Ascii.eqb "}" c then Some r else None).
    by rewrite Ascii.eqb_sym, H2.
Qed.

Lemma follows_separator i lvl t : follows (Codec.item_separator i lvl +:+ t).
Proof. by destruct i. Qed.

Lemma follows_closing i lvl c t :
  c = "]"%char \/ c = "}"%char ->
  follows (Codec.newline_indent i lvl +:+ String c t).
Proof. intros [-> | ->]; by destruct i. Qed.

(** The white space after the comma of a separator. *)
Definition separator_space (i : option nat) (lvl : nat) : string :=
  match i with
  | None => " "
  | Some _ => Codec.newline_indent i lvl
  end.

Lemma item_separator_eq i lvl :
  Codec.item_separator i lvl = String "," (separator_space i lvl).
Proof. by destruct i. Qed.

Lemma all_ws_separator_space i lvl : all_ws (separator_space i lvl) = true.
Proof. destruct i; [|done]. apply all_ws_newline_indent. Qed.

Lemma parse_elements_S fuel s :
  Codec.parse_elements (S fuel) s
  = match Codec.parse_value fuel s with
    | Some (v, r) =>
        match Codec.skip_ws r with
        | String c r' =>
            if Ascii.eqb c "," then
              match Codec.parse_elements fuel r' with
              | Some (vs, r'') => Some (v :: vs, r'')
              | None => None
              end
            else if Ascii.eqb c "]" then Some ([v], r')
            else None
        | EmptyString => None
        end
    | None => None
    end.
Proof. done. Qed.

Lemma parse_members_S fuel s :
  Codec.parse_members (S fuel) s
  = match Codec.strip_prefix dq (Codec.skip_ws s) with
    | Some r =>
        match Codec.parse_chars r with
        | Some (k, r1) =>
            match Codec.strip_prefix ":" (Codec.skip_ws r1) with
            | Some r2 =>
                match Codec.parse_value fuel r2 with
                | Some (v, r3) =>
                    match Codec.skip_ws r3 with
                    | String c r4 =>
                        if Ascii.eqb c "," then
                          match Codec.parse_members fuel r4 with
                          | Some (kvs, r5) => Some ((k, v) :: kvs, r5)
                          | None => None
                          end
                        else if Ascii.eqb c "}" then Some ([(k, v)], r4)
                        else None
                    | EmptyString => None
                    end
                | None => None
                end
            | None => None
            end
        | None => None
        end
    | None => None
    end.
Proof. done. Qed.

Lemma parse_value_array fuel r :
  Codec.parse_value (S fuel) (String "[" r)
  = match Codec.strip_prefix "]" (Codec.skip_ws r) with
    | Some r' => Some (JArr [], r')
    | None => match Codec.parse_elements fuel r with
              | Some (xs, r') => Some (JArr xs, r')
              | None => None
              end
    end.
Proof. done. Qed.

Lemma parse_value_object fuel r :
  Codec.parse_value (S fuel) (String "{" r)
  = match Codec.strip_prefix "}" (Codec.skip_ws r) with
    | Some r' => Some (JObj [], r')
    | None => match Codec.parse_members fuel r with
              | Some (kvs, r') => Some (JObj (Codec.dict_of kvs), r')
              | None => None
              end
    end.
Proof. done. Qed.

Lemma parse_elements_comma fuel s v r t :
  Codec.parse_value fuel s = Some (v, r) -> Codec.skip_ws r = String "," t ->
  Codec.parse_elements (S fuel) s
  = match Codec.parse_elements fuel t with
    | Some (vs, r') => Some (v :: vs, r')
    | None => None
    end.
Proof. intros H1 H2. by rewrite parse_elements_S, H1, H2. Qed.

Lemma parse_elements_close fuel s v r t :
  Codec.parse_value fuel s = Some (v, r) -> Codec.skip_ws r = String "]" t ->
  Codec.parse_elements (S fuel) s = Some ([v], t).
Proof. intros H1 H2. by rewrite parse_elements_S, H1, H2. Qed.

Lemma skip_ws_separator i lvl t :
  Codec.skip_ws (Codec.item_separator i lvl +:+ t)
  = String "," (separator_space i lvl +:+ t).
Proof. by rewrite item_separator_eq. Qed.

Lemma skip_ws_closing i lvl c t :
  Codec.is_ws c = false ->
  Codec.skip_ws (Codec.newline_indent i lvl +:+ String c t) = String c t.
Proof.
  intros Hc. rewrite skip_ws_app by apply all_ws_newline_indent.
  by apply skip_ws_cons.
Qed.

Lemma concat_cons2 sep (a b : string) l :
  String.concat sep (a :: b :: l) = a +:+ sep +:+ String.concat sep (b :: l).
Proof. done. Qed.

(** The elements of a printed array, read back up to its bracket. *)
Lemma parse_elements_print i lvl lvl' xs rest w fuel :
  xs <> [] -> Forall (reads_back i) xs ->
  sum_list (map (fun x => S (need x)) xs) <= fuel -> all_ws w = true ->
  Codec.parse_elements fuel
    (w +:+ String.concat (Codec.item_separator i lvl) (map (Codec.print i lvl) xs)
       +:+ Codec.newline_indent i lvl' +:+ String "]" rest)
  = Some (xs, rest).
Proof.
  intros Hne Hall. revert w fuel. induction Hall as [|x xs Hx Hxs IH]; [done|].
  intros w [|fuel] Hfuel Hw; [simpl in Hfuel; lia|].
  rewrite map_cons in Hfuel. simpl sum_list in Hfuel.
  destruct xs as [|y xs].
  - erewrite parse_elements_close; [done| |by apply skip_ws_closing].
    rewrite parse_value_ws by done. simpl map. simpl String.concat.
    apply Hx; [lia|by apply follows_closing; left].
  - erewrite parse_elements_comma; cycle 1.
    + rewrite parse_value_ws by done.
      rewrite (map_cons _ x), (map_cons _ y), concat_cons2, !append_assoc.
      apply Hx; [lia|apply follows_separator].
    + apply skip_ws_separator.
    + rewrite <-(map_cons (Codec.print i lvl) y).
      rewrite IH; [done|done|lia|apply all_ws_separator_space].
Qed.

(** One member of a dict, as [Codec.print] writes it. *)
Definition print_member (i : option nat) (lvl : nat) (kv : string * json) : string :=
  Codec.print_string (fst kv) +:+ ": " +:+ Codec.print i lvl (snd kv).

Lemma parse_member i lvl k v w rest fuel :
  reads_back i v -> need v <= fuel -> all_ws w = true -> follows rest ->
  exists r r1 r2,
    Codec.strip_prefix dq (Codec.skip_ws (w +:+ print_member i lvl (k, v) +:+ rest))
    = Some r /\
    Codec.parse_chars r = Some (k, r1) /\
    Codec.strip_prefix ":" (Codec.skip_ws r1) = Some r2 /\
    Codec.parse_value fuel r2 = Some (v, rest).
Proof.
  intros Hv Hfuel Hw Hrest.
  exists (Codec.escape k +:+ dq +:+ ": " +:+ Codec.print i lvl v +:+ rest),
    (": " +:+ Codec.print i lvl v +:+ rest),
    (" " +:+ Codec.print i lvl v +:+ rest).
  split_and!.
  - rewrite skip_ws_app by done. unfold print_member, Codec.print_string.
    simpl fst. simpl snd. rewrite !append_assoc. done.
  - apply parse_chars_escape.
  - done.
  - rewrite parse_value_ws by done. by apply Hv.
Qed.

Lemma parse_members_comma fuel s r k r1 r2 v r3 t :
  Codec.strip_prefix dq (Codec.skip_ws s) = Some r ->
  Codec.parse_chars r = Some (k, r1) ->
  Codec.strip_prefix ":" (Codec.skip_ws r1) = Some r2 ->
  Codec.parse_value fuel r2 = Some (v, r3) ->
  Codec.skip_ws r3 = String "," t ->
  Codec.parse_members (S fuel) s
  = match Codec.parse_members fuel t with
    | Some (kvs, r') => Some ((k, v) :: kvs, r')
    | None => None
    end.
Proof. intros H1 H2 H3 H4 H5. by rewrite parse_members_S, H1, H2, H3, H4, H5. Qed.

Lemma parse_members_close fuel s r k r1 r2 v r3 t :
  Codec.strip_prefix dq (Codec.skip_ws s) = Some r ->
  Codec.parse_chars r = Some (k, r1) ->
  Codec.strip_prefix ":" (Codec.skip_ws r1) = Some r2 ->
  Codec.parse_value fuel r2 = Some (v, r3) ->
  Codec.skip_ws r3 = String "}" t ->
  Codec.parse_members (S fuel) s = Some ([(k, v)], t).
Proof. intros H1 H2 H3 H4 H5. by rewrite parse_members_S, H1, H2, H3, H4, H5. Qed.

(** The members of a printed dict, read back up to its brace. *)
Lemma parse_members_print i lvl lvl' kvs rest w fuel :
  kvs <> [] -> Forall (fun kv => reads_back i (snd kv)) kvs ->
  sum_list (map (fun kv => S (need (snd kv))) kvs) <= fuel -> all_ws w = true ->
  Codec.parse_members fuel
    (w +:+ String.concat (Codec.item_separator i lvl) (map (print_member i lvl) kvs)
       +:+ Codec.newline_indent i lvl' +:+ String "}" rest)
  = Some (kvs, rest).
Proof.
  intros Hne Hall. revert w fuel.
  induction Hall as [|[k v] kvs Hv Hkvs IH]; [done|].
  intros w [|fuel] Hfuel Hw; [simpl in Hfuel; lia|].
  rewrite map_cons in Hfuel. simpl sum_list in Hfuel. simpl in Hv.
  destruct kvs as [|kv kvs].
  - simpl map. simpl String.concat.
    destruct (parse_member i lvl k v w
                (Codec.newline_indent i lvl' +:+ String "}" rest) fuel)
      as (r & r1 & r2 & H1 & H2 & H3 & H4);
      [done|simpl in Hfuel; lia|done|by apply follows_closing; right|].
    erewrite parse_members_close; [done|done..|by apply skip_ws_closing].
  - rewrite (map_cons _ (k, v)), (map_cons _ kv), concat_cons2, !append_assoc.
    destruct (parse_member i lvl k v w
                (Codec.item_separator i lvl
                 +:+ String.concat (Codec.item_separator i lvl)
                       (print_member i lvl kv :: map (print_member i lvl) kvs)
                 +:+ Codec.newline_indent i lvl' +:+ String "}" rest) fuel)
      as (r & r1 & r2 & H1 & H2 & H3 & H4);
      [done|simpl in Hfuel; lia|done|apply follows_separator|].
    erewrite parse_members_comma; [|done..|apply skip_ws_separator].
    rewrite <-(map_cons (print_member i lvl) kv).
    rewrite IH; [done|done|simpl in *; lia|apply all_ws_separator_space].
Qed.

Lemma dict_set_fresh k v d : k ∉ keys d -> dict_set k v d = d ++ [(k, v)].
Proof.
  induction d as [|[k' v'] d IH]; simpl; [done|].
  intros [Hne Hd]%not_elem_of_cons. rewrite decide_False by done.
  by rewrite IH.
Qed.

Lemma dict_of_NoDup kvs : NoDup (keys kvs) -> Codec.dict_of kvs = kvs.
Proof.
  unfold Codec.dict_of.
  assert (forall acc, NoDup (keys (acc ++ kvs)) ->
            fold_left (fun d kv => dict_set (fst kv) (snd kv) d) kvs acc
            = acc ++ kvs) as H.
  { induction kvs as [|[k v] kvs IH]; intros acc Hnd; simpl.
    - by rewrite app_nil_r.
    - rewrite dict_set_fresh.
      + rewrite IH; rewrite <-(assoc_L (++)); done.
      + unfold keys in *. rewrite fmap_app in Hnd.
        apply NoDup_app in Hnd as (_ & Hd & _). intros Hin.
        apply (Hd k Hin). simpl. apply list_elem_of_here. }
  intros Hnd. by apply (H []).
Qed.

Lemma print_array_cons i lvl x xs rest :
  Codec.print i lvl (JArr (x :: xs)) +:+ rest
  = String "["
      (Codec.newline_indent i (S lvl)
       +:+ String.concat (Codec.item_separator i (S lvl))
             (map (Codec.print i (S lvl)) (x :: xs))
       +:+ Codec.newline_indent i lvl +:+ String "]" rest).
Proof.
  change (Codec.print i lvl (JArr (x :: xs)))
    with ("[" +:+ Codec.newline_indent i (S lvl)
          +:+ String.concat (Codec.item_separator i (S lvl))
                (map (Codec.print i (S lvl)) (x :: xs))
          +:+ Codec.newline_indent i lvl +:+ "]").
  by rewrite !append_assoc.
Qed.

Lemma print_object_cons i lvl kv kvs rest :
  Codec.print i lvl (JObj (kv :: kvs)) +:+ rest
  = String "{"
      (Codec.newline_indent i (S lvl)
       +:+ String.concat (Codec.item_separator i (S lvl))
             (map (print_member i (S lvl)) (kv :: kvs))
       +:+ Codec.newline_indent i lvl +:+ String "}" rest).
Proof.
  change (Codec.print i lvl (JObj (kv :: kvs)))
    with ("{" +:+ Codec.newline_indent i (S lvl)
          +:+ String.concat (Codec.item_separator i (S lvl))
                (map (print_member i (S lvl)) (kv :: kvs))
          +:+ Codec.newline_indent i lvl +:+ "}").
  by rewrite !append_assoc.
Qed.

Lemma opens_concat sep (a : string) l t :
  (forall r, opens (a +:+ r)) -> opens (String.concat sep (a :: l) +:+ t).
Proof.
  intros Ha. destruct l as [|b l]; [apply Ha|].
  rewrite concat_cons2, append_assoc. apply Ha.
Qed.

Lemma opens_print_member i lvl kv rest : opens (print_member i lvl kv +:+ rest).
Proof. unfold print_member. rewrite append_assoc. apply opens_print_string. Qed.

Lemma need_JArr xs : need (JArr xs) = S (sum_list (map (fun x => S (need x)) xs)).
Proof. done. Qed.

Lemma need_JObj kvs :
  need (JObj kvs) = S (sum_list (map (fun kv => S (need (snd kv))) kvs)).
Proof. done. Qed.

(** Every well-formed value is read back from its text. *)
Lemma reads_back_all i v : wf_json v = true -> reads_back i v.
Proof.
  destruct (reads_back_scalars i) as (Hnull & Hbool & Hint & Hstr).
  induction v as [| | | |xs IH|kvs IH] using json_ind; intros Hwf; auto.
  - apply wf_json_JArr in Hwf.
    assert (Forall (reads_back i) xs) as Hall.
    { rewrite Forall_forall in IH, Hwf |- *. intros x Hx. by apply IH, Hwf. }
    intros lvl rest [|fuel] Hfuel Hrest; [simpl in Hfuel; lia|].
    destruct xs as [|x xs]; [done|].
    rewrite print_array_cons, parse_value_array.
    rewrite strip_prefix_opens;
      [|by left|apply all_ws_newline_indent
       |apply opens_concat; intros r; apply opens_print].
    rewrite need_JArr in Hfuel.
    rewrite parse_elements_print;
      [done|done|done|lia|apply all_ws_newline_indent].
  - apply wf_json_JObj in Hwf as [Hnd Hwf].
    assert (Forall (fun kv => reads_back i (snd kv)) kvs) as Hall.
    { rewrite Forall_forall in IH, Hwf |- *. intros x Hx. by apply IH, Hwf. }
    intros lvl rest [|fuel] Hfuel Hrest; [simpl in Hfuel; lia|].
    destruct kvs as [|kv kvs]; [done|].
    rewrite print_object_cons, parse_value_object.
    rewrite strip_prefix_opens;
      [|by right|apply all_ws_newline_indent
       |apply opens_concat; intros r; apply opens_print_member].
    rewrite need_JObj in Hfuel.
    rewrite parse_members_print;
      [|done|done|lia|apply all_ws_newline_indent].
    by rewrite dict_of_NoDup.
Qed.

(** *** Enough fuel *)

Lemma sum_le_concat {A} (f : A -> nat) (pr : A -> string) sep xs :
  Forall (fun x => f x <= 2 * String.length (pr x)) xs ->
  1 <= String.length sep ->
  sum_list (map (fun x => S (f x)) xs)
  <= 2 * String.length (String.concat sep (map pr xs)) + 1.
Proof.
  intros Hall Hsep. induction Hall as [|x xs Hx Hxs IH]; [simpl; lia|].
  destruct xs as [|y xs].
  - simpl. lia.
  - rewrite !map_cons, concat_cons2, !length_append.
    rewrite !map_cons in IH. simpl sum_list in *. lia.
Qed.

Lemma length_cons c s : String.length (String c s) = S (String.length s).
Proof. done. Qed.

Lemma length_item_separator i lvl : 1 <= String.length (Codec.item_separator i lvl).
Proof. destruct i; simpl; lia. Qed.

Lemma need_le_length i v lvl : need v <= 2 * String.length (Codec.print i lvl v).
Proof.
  revert lvl. induction v as [|b|z|s|xs IH|kvs IH] using json_ind; intros lvl.
  - simpl. lia.
  - destruct b; simpl; lia.
  - destruct (py_str_int_head z "") as (c & r & Heq & _).
    rewrite append_nil_r in Heq. simpl. rewrite Heq. simpl. lia.
  - simpl. unfold Codec.print_string. simpl. lia.
  - destruct xs as [|x xs]; [simpl; lia|].
    rewrite need_JArr.
    pose proof (sum_le_concat need (Codec.print i (S lvl))
                  (Codec.item_separator i (S lvl)) (x :: xs)) as Hs.
    rewrite <-(append_nil_r (Codec.print i lvl (JArr (x :: xs)))).
    rewrite print_array_cons, length_cons, !length_append.
    rewrite Forall_forall in IH.
    specialize (Hs ltac:(apply Forall_forall; intros y Hy; by apply IH)
                  (length_item_separator _ _)).
    lia.
  - destruct kvs as [|kv kvs]; [simpl; lia|].
    rewrite need_JObj.
    pose proof (sum_le_concat (fun kv => need (snd kv)) (print_member i (S lvl))
                  (Codec.item_separator i (S lvl)) (kv :: kvs)) as Hs.
    rewrite <-(append_nil_r (Codec.print i lvl (JObj (kv :: kvs)))).
    rewrite print_object_cons, length_cons, !length_append.
    rewrite Forall_forall in IH.
    assert (Forall (fun kv => need (snd kv)
                              <= 2 * String.length (print_member i (S lvl) kv))
              (kv :: kvs)) as Hall.
    { apply Forall_forall. intros y Hy. specialize (IH y Hy (S lvl)).
      unfold print_member. rewrite !length_append. lia. }
    specialize (Hs Hall (length_item_separator _ _)). lia.
Qed.

Lemma codec_loads_dumps i v :
  wf_json v = true -> Codec.loads (Codec.dumps i v) = Some v.
Proof.
  intros Hwf. unfold Codec.loads, Codec.dumps.
  pose proof (reads_back_all i v Hwf 0 ""
                (2 * String.length (Codec.print i 0 v) + 2)) as Hr.
  rewrite append_nil_r in Hr. rewrite Hr; [done| |done].
  pose proof (need_le_length i v 0). lia.
Qed.

(** *** What is read is well formed *)

Lemma parse_value_S fuel s :
  Codec.parse_value (S fuel) s
  = match Codec.skip_ws s with
    | EmptyString => None
    | String c r as t =>
        if Ascii.eqb c "n" then Codec.expect "null" JNull t
        else if Ascii.eqb c "t" then Codec.expect "true" (JBool true) t
        else if Ascii.eqb c "f" then Codec.expect "false" (JBool false) t
        else if Ascii.eqb c "034" then
          match Codec.parse_chars r with
          | Some (str, r') => Some (JStr str, r')
          | None => None
          end
        else if Ascii.eqb c "[" then
          match Codec.strip_prefix "]" (Codec.skip_ws r) with
          | Some r' => Some (JArr [], r')
          | None => match Codec.parse_elements fuel r with
                    | Some (xs, r') => Some (JArr xs, r')
                    | None => None
                    end
          end
        else if Ascii.eqb c "{" then
          match Codec.strip_prefix "}" (Codec.skip_ws r) with
          | Some r' => Some (JObj [], r')
          | None => match Codec.parse_members fuel r with
                    | Some (kvs, r') => Some (JObj (Codec.dict_of kvs), r')
                    | None => None
                    end
          end
        else Codec.parse_int t
    end.
Proof. done. Qed.

Lemma wf_dict_of kvs :
  Forall (fun kv => wf_json (snd kv) = true) kvs ->
  wf_json (JObj (Codec.dict_of kvs)) = true.
Proof.
  unfold Codec.dict_of.
  assert (forall acc, wf_json (JObj acc) = true ->
            Forall (fun kv => wf_json (snd kv) = true) kvs ->
            wf_json (JObj (fold_left (fun d kv => dict_set (fst kv) (snd kv) d)
                             kvs acc)) = true) as H.
  { induction kvs as [|[k v] kvs IH]; intros acc Hacc Hall; [done|].
    apply Forall_cons in Hall as [Hv Hall]. simpl.
    apply IH; [|done]. by apply wf_json_dict_set. }
  by apply H.
Qed.

Lemma expect_wf lit v s v' r :
  wf_json v = true -> Codec.expect lit v s = Some (v', r) -> wf_json v' = true.
Proof.
  unfold Codec.expect. destruct (Codec.strip_prefix lit s); [|done].
  by intros ? [= <- _].
Qed.

Lemma parse_int_wf s v r : Codec.parse_int s = Some (v, r) -> wf_json v = true.
Proof.
  unfold Codec.parse_int.
  destruct (match s with String "-" s' => (true, s') | _ => (false, s) end)
    as [neg s1].
  destruct (Codec.take_digits s1) as [d r'].
  destruct (Codec.ends_number r'); [|done].
  destruct (NilZero.uint_of_string d); [|done]. by intros [= <- _].
Qed.

Lemma parse_wf fuel :
  (forall s v r, Codec.parse_value fuel s = Some (v, r) -> wf_json v = true) /\
  (forall s xs r, Codec.parse_elements fuel s = Some (xs, r) ->
                  Forall (fun x => wf_json x = true) xs) /\
  (forall s kvs r, Codec.parse_members fuel s = Some (kvs, r) ->
                   Forall (fun kv => wf_json (snd kv) = true) kvs).
Proof.
  induction fuel as [|fuel (IHv & IHe & IHm)]; [done|]. split_and!.
  - intros s v r. rewrite parse_value_S.
    destruct (Codec.skip_ws s) as [|c t]; [done|].
    destruct (Ascii.eqb c "n"); [by apply expect_wf|].
    destruct (Ascii.eqb c "t"); [by apply expect_wf|].
    destruct (Ascii.eqb c "f"); [by apply expect_wf|].
    destruct (Ascii.eqb c "034").
    { destruct (Codec.parse_chars t) as [[str r']|]; [|done]. by intros [= <- _]. }
    destruct (Ascii.eqb c "[").
    { destruct (Codec.strip_prefix _ _); [by intros [= <- _]|].
      destruct (Codec.parse_elements fuel t) as [[xs r']|] eqn:He; [|done].
      intros [= <- _]. apply wf_json_JArr. by eapply IHe. }
    destruct (Ascii.eqb c "{").
    { destruct (Codec.strip_prefix _ _); [by intros [= <- _]|].
      destruct (Codec.parse_members fuel t) as [[kvs r']|] eqn:Hm; [|done].
      intros [= <- _]. apply wf_dict_of. by eapply IHm. }
    apply parse_int_wf.
  - intros s xs r. rewrite parse_elements_S.
    destruct (Codec.parse_value fuel s) as [[v r0]|] eqn:Hv; [|done].
    destruct (Codec.skip_ws r0) as [|c t]; [done|].
    destruct (Ascii.eqb c ",").
    { destruct (Codec.parse_elements fuel t) as [[vs r']|] eqn:He; [|done].
      intros [= <- _]. constructor; [by eapply IHv|by eapply IHe]. }
    destruct (Ascii.eqb c "]"); [|done].
    intros [= <- _]. constructor; [by eapply IHv|constructor].
  - intros s kvs r. rewrite parse_members_S.
    destruct (Codec.strip_prefix dq _) as [r0|]; [|done].
    destruct (Codec.parse_chars r0) as [[k r1]|]; [|done].
    destruct (Codec.strip_prefix ":" _) as [r2|]; [|done].
    destruct (Codec.parse_value fuel r2) as [[v r3]|] eqn:Hv; [|done].
    destruct (Codec.skip_ws r3) as [|c t]; [done|].
    destruct (Ascii.eqb c ",").
    { destruct (Codec.parse_members fuel t) as [[kvs' r']|] eqn:Hm; [|done].
      intros [= <- _]. constructor; [by eapply IHv|by eapply IHm]. }
    destruct (Ascii.eqb c "}"); [|done].
    intros [= <- _]. constructor; [by eapply IHv|constructor].
Qed.

Lemma codec_loads_wf t v : Codec.loads t = Some v -> wf_json v = true.
Proof.
  unfold Codec.loads.
  destruct (Codec.parse_value _ t) as [[v' r]|] eqn:Hp; [|done].
  destruct (bool_decide _); [|done]. intros [= <-].
  by eapply (parse_wf _).
Qed.

(** The implementation satisfies the interface. *)
Definition codec : JsonLib :=
  {| dumps := Codec.dumps; loads := Codec.loads;
     loads_dumps := codec_loads_dumps; loads_wf := codec_loads_wf |}.

(** * Further properties of the program *)

Section Further.
Context `{JL : JsonLib} `{EV : Env}.

Lemma lookup_stage_eq company key s :
  lookup_stage company key s =
  (match py_getitem (store_value s) company with
   | Ok record => py_getitem record key
   | Raise e => Raise e
   end, s).
Proof.
  unfold lookup_stage.
  rewrite (bind_Ok _ _ _ _ _ (load_company_data_eq s)).
  unfold bind, lift. by destruct (py_getitem _ _).
Qed.

(** A save that returns: what was loaded, what was parsed and what the
    file holds afterwards. *)
Lemma save_intermediate_data_inv company key data s s' :
  save_intermediate_data company key data s = (Ok tt, s') ->
  exists d value r,
    store_value s = JObj d /\ loads data = Some value /\
    (dict_get company d = None /\ r = [] \/ dict_get company d = Some (JObj r)) /\
    s' = written (JObj (dict_set company (JObj (dict_set key value r)) d)) s /\
    store_value s' = JObj (dict_set company (JObj (dict_set key value r)) d).
Proof.
  rewrite save_intermediate_data_eq.
  destruct (intermediate_update _ _ _ _) as [v|e] eqn:Hu; [|done].
  apply intermediate_update_Ok in Hu as (d & value & r & Hs & Hl & Hr & ->).
  intros [= <-]. exists d, value, r. split_and!; try done.
  apply store_value_written.
  pose proof (store_value_wf s) as Hwf. rewrite Hs in Hwf.
  apply wf_json_record_update; [done|by eapply loads_wf|done].
Qed.

(** X1. In a store that has a record, a dict, for the company,
    [save_company_data] returns; [get_company_data] then returns the saved
    value for that company; what it returns for any other company is
    unchanged, and so is every entry [load_company_data()[c][key]] other
    than the company's ["final_summary"]. *)
Theorem save_company_data_round_trip
    (s : state) (d r : list (string * json)) (company : string) (data : json) :
  store_value s = JObj d -> dict_get company d = Some (JObj r) ->
  wf_json data = true ->
  exists s',
    save_company_data company data s = (Ok tt, s') /\
    get_company_data company s' = (Ok data, s') /\
    (forall c, c <> company ->
       fst (get_company_data c s') = fst (get_company_data c s)) /\
    (forall c key, c <> company \/ key <> "final_summary" ->
       fst (lookup_stage c key s') = fst (lookup_stage c key s)).
Proof.
  intros Hs Hr Hdata. rewrite (save_company_data_record _ _ _ _ _ Hs Hr).
  eexists. split; [done|].
  pose proof (store_value_wf s) as Hwf. rewrite Hs in Hwf.
  assert (wf_json (JObj (dict_set company
            (JObj (dict_set "final_summary" data r)) d)) = true) as Hwf'.
  { apply wf_json_record_update; [done..|by right]. }
  split_and!.
  - rewrite get_company_data_eq, store_value_written by done. simpl.
    rewrite dict_get_set_eq. simpl. by rewrite dict_get_set_eq.
  - intros c Hc.
    rewrite !get_company_data_eq, store_value_written, Hs by done. simpl.
    by rewrite dict_get_set_ne.
  - intros c key Hck.
    rewrite !lookup_stage_eq, store_value_written, Hs by done. simpl.
    destruct (decide (c = company)) as [->|Hne].
    + destruct Hck as [?|Hkey]; [done|].
      rewrite dict_get_set_eq, Hr. simpl. by rewrite dict_get_set_ne.
    + by rewrite dict_get_set_ne.
Qed.

(** X2. When the company-data file holds JSON that is not an object, or
    when the entry of the company is not an object,
    [save_intermediate_data] (called with JSON text) and
    [save_company_data] raise [TypeError], [get_company_data] raises
    [AttributeError], and none of them changes the state. *)
Theorem store_not_a_dict
    (s : state) (company key data : string) (value final : json) :
  loads data = Some value ->
  (forall d, store_value s <> JObj d) \/
  (exists d v, store_value s = JObj d /\ dict_get company d = Some v /\
               forall r, v <> JObj r) ->
  save_intermediate_data company key data s = (Raise TypeError, s) /\
  save_company_data company final s = (Raise TypeError, s) /\
  get_company_data company s = (Raise AttributeError, s).
Proof.
  intros Hl Hbad.
  rewrite save_intermediate_data_eq, save_company_data_eq, get_company_data_eq.
  unfold intermediate_update, py_setitem_nested.
  destruct Hbad as [Hnd|(d & v & Hs & Hg & Hv)].
  - destruct (store_value s) as [| | |t|xs|d]; simpl; try done.
    + destruct (bool_decide _); simpl; by rewrite ?Hl.
    + destruct (existsb _ xs); simpl; by rewrite ?Hl.
    + by destruct (Hnd d).
  - rewrite Hs. simpl. rewrite Hg.
    rewrite bool_decide_eq_true_2 by eauto. simpl. rewrite Hl. simpl. rewrite Hg.
    destruct v as [| | | | |r]; simpl; try done. by destruct (Hv r).
Qed.

(** X3. A [save_intermediate_data] that returns leaves every entry of
    another company as it was and keeps the other keys of the company's
    record; when its key is not ["final_summary"] it does not change what
    [get_company_data] returns; it leaves the world and the watch-list
    file alone and adds one event, the write of the company-data file. *)
Theorem save_intermediate_data_frame
    (s s' : state) (company key data : string) :
  save_intermediate_data company key data s = (Ok tt, s') ->
  (forall c k, c <> company ->
     fst (lookup_stage c k s') = fst (lookup_stage c k s)) /\
  (forall k v, k <> key ->
     fst (lookup_stage company k s') = Ok v <->
     fst (lookup_stage company k s) = Ok v) /\
  (key <> "final_summary" ->
   forall c, fst (get_company_data c s') = fst (get_company_data c s)) /\
  world s' = world s /\ watchlist_json s' = watchlist_json s /\
  trace s' = trace s ++ [EWrite COMPANY_DATA_FILE
                           (default "" (company_data_json s'))].
Proof.
  intros Hsave.
  pose proof (save_intermediate_data_keeps_final_summary s company key data)
    as Hkeep.
  destruct (save_intermediate_data_inv _ _ _ _ _ Hsave)
    as (d & value & r & Hs & Hl & Hr & Hs' & Hv').
  split_and!.
  - intros c k Hc. rewrite !lookup_stage_eq, Hv', Hs. simpl.
    by rewrite dict_get_set_ne.
  - intros k v Hk. rewrite !lookup_stage_eq, Hv', Hs. simpl.
    rewrite dict_get_set_eq. simpl. rewrite dict_get_set_ne by done.
    destruct Hr as [[-> ->]| ->]; [|done]. simpl. split; [|done].
    by destruct (dict_get k []).
  - intros Hkey c. specialize (Hkeep Hkey s (fun _ => eq_refl) c).
    by rewrite Hsave in Hkeep.
  - by subst s'.
  - by subst s'.
  - by subst s'.
Qed.

(** ** The watch-list file *)

Lemma as_str_list_strings (l : list string) :
  as_str_list (JArr (JStr <$> l)) = Some l.
Proof.
  simpl. induction l as [|x l IH]; [done|].
  change (JStr <$> x :: l) with (JStr x :: (JStr <$> l)).
  simpl. by rewrite IH.
Qed.

Lemma watchlist_value_saved l s :
  watchlist_value (snd (save_watchlist l s)) = JArr (JStr <$> sorted_set l).
Proof.
  unfold watchlist_value, save_watchlist, write_text. simpl.
  by rewrite loads_dumps by apply wf_json_strings.
Qed.

(** X4. What [save_watchlist] writes depends on the set of names in its
    argument only: two lists with the same elements give the same state.
    The file then loads as the names, each once, in increasing order;
    saving that list writes the same again; the company-data file is not
    touched. *)
Theorem save_watchlist_names_only (l1 l2 : list string) (s : state) :
  (forall x, x ∈ l1 <-> x ∈ l2) ->
  save_watchlist l1 s = save_watchlist l2 s /\
  as_str_list (watchlist_value (snd (save_watchlist l1 s)))
  = Some (sorted_set l1) /\
  save_watchlist (sorted_set l1) s = save_watchlist l1 s /\
  company_data_json (snd (save_watchlist l1 s)) = company_data_json s.
Proof.
  intros Heq. split_and!.
  - unfold save_watchlist. by rewrite (sorted_set_ext l1 l2).
  - rewrite watchlist_value_saved. apply as_str_list_strings.
  - unfold save_watchlist. rewrite (sorted_set_ext (sorted_set l1) l1); [done|].
    intros x. apply elem_of_sorted_set.
  - done.
Qed.

(** ** The prompt builders *)

Lemma append_inv_head (p a b : string) : p +:+ a = p +:+ b -> a = b.
Proof.
  induction p as [|c p IH]; intros H; [exact H|].
  change (String c (p +:+ a) = String c (p +:+ b)) in H.
  injection H as H. by apply IH.
Qed.

Lemma append_inv_tail (a b t : string) : a +:+ t = b +:+ t -> a = b.
Proof.
  revert b. induction a as [|c a IH]; intros [|c' b] H.
  - done.
  - apply (f_equal String.length) in H.
    change (String c' b +:+ t) with (String c' (b +:+ t)) in H.
    change ("" +:+ t) with t in H. simpl in H. rewrite length_append in H. lia.
  - apply (f_equal String.length) in H.
    change (String c a +:+ t) with (String c (a +:+ t)) in H.
    change ("" +:+ t) with t in H. simpl in H. rewrite length_append in H. lia.
  - change (String c (a +:+ t) = String c' (b +:+ t)) in H.
    injection H as -> H. f_equal. by apply IH.
Qed.

(** X6. The prompt of the personnel request and the prompt of the
    details request determine the company: two names with the same prompt
    are the same name. *)
Theorem extraction_prompts_injective (company1 company2 : string) :
  (format_prompt_get_company_personnel company1
   = format_prompt_get_company_personnel company2 -> company1 = company2) /\
  (format_prompt_get_company_details company1
   = format_prompt_get_company_details company2 -> company1 = company2).
Proof.
  split; intros H.
  - unfold format_prompt_get_company_personnel in H.
    repeat apply append_inv_head in H. by apply append_inv_tail in H.
  - unfold format_prompt_get_company_details in H.
    repeat apply append_inv_head in H. by apply append_inv_tail in H.
Qed.

(** X5. Each of the two builders of a news prompt returns a prompt
    exactly when the sources have all three categories, and the builder of
    the company-news prompt then leaves the state as it is. With the
    [TRUSTED_NEWS_SOURCES] of [main.py] both return, the builder of the
    personnel-news prompt after one print. *)
Theorem news_prompts_return_iff
    (company prior : string) (days : Z)
    (sources : gmap string (list string)) (s : state) :
  ((exists prompt s',
      format_prompt_company_personnel_news_prompt company prior days sources s
      = (Ok prompt, s')) <->
   (forall category, category ∈ required_categories ->
      is_Some (sources !! category))) /\
  ((exists prompt,
      format_prompt_company_news_prompt company prior days sources s
      = (Ok prompt, s)) <->
   (forall category, category ∈ required_categories ->
      is_Some (sources !! category))) /\
  (exists prompt2 prompt4 line,
     format_prompt_company_personnel_news_prompt company prior days
       TRUSTED_NEWS_SOURCES s = (Ok prompt2, add_event (EPrint line) s) /\
     format_prompt_company_news_prompt company prior days
       TRUSTED_NEWS_SOURCES s = (Ok prompt4, s)).
Proof.
  assert (forall d : gmap string (list string),
            (forall category, category ∈ required_categories ->
               is_Some (d !! category)) <->
            is_Some (d !! "gaming_industry") /\
            is_Some (d !! "business_sources") /\
            is_Some (d !! "company_channels")) as Hreq.
  { intros d. unfold required_categories. split.
    - intros H. split_and!; apply H; set_solver.
    - intros (Hg & Hb & Hc) category Hin.
      repeat (apply elem_of_cons in Hin as [->|Hin]; [done|]).
      by apply elem_of_nil in Hin. }
  split_and!.
  - rewrite Hreq.
    unfold format_prompt_company_personnel_news_prompt, bind, sources_getitem,
      ret, raise, emit.
    destruct (sources !! "gaming_industry") as [g|].
    2: { split; [by intros (? & ? & ?)|by intros ([? ?] & _)]. }
    destruct (sources !! "business_sources") as [b|].
    2: { split; [by intros (? & ? & ?)|by intros (_ & [? ?] & _)]. }
    destruct (sources !! "company_channels") as [c|].
    2: { split; [by intros (? & ? & ?)|by intros (_ & _ & [? ?])]. }
    split; [eauto|]. intros _. by eexists _, _.
  - rewrite Hreq.
    unfold format_prompt_company_news_prompt, bind, sources_getitem, ret, raise.
    destruct (sources !! "gaming_industry") as [g|].
    2: { split; [by intros (? & ?)|by intros ([? ?] & _)]. }
    destruct (sources !! "business_sources") as [b|].
    2: { split; [by intros (? & ?)|by intros (_ & [? ?] & _)]. }
    destruct (sources !! "company_channels") as [c|].
    2: { split; [by intros (? & ?)|by intros (_ & _ & [? ?])]. }
    split; [eauto|]. intros _. by eexists.
  - unfold format_prompt_company_personnel_news_prompt,
      format_prompt_company_news_prompt, bind, sources_getitem, ret, raise, emit.
    replace (TRUSTED_NEWS_SOURCES !! "gaming_industry")
      with (Some ["Pocket Gamer"; "PocketGamer.biz"; "Gamezebo";
                  "Deconstructor of Fun"; "IGN"; "Gamespot"; "Kotaku";
                  "VentureBeat (GamesBeat)"]) by (vm_compute; reflexivity).
    replace (TRUSTED_NEWS_SOURCES !! "business_sources")
      with (Some ["TechCrunch"; "Bloomberg"; "Reuters"])
      by (vm_compute; reflexivity).
    replace (TRUSTED_NEWS_SOURCES !! "company_channels")
      with (Some ["LinkedIn posts"; "X (Twitter) posts"; "Company blog";
                  "Press releases"]) by (vm_compute; reflexivity).
    by eexists _, _, _.
Qed.

(** ** The pipeline, call by call *)

(** What reads the company-data file sees the text of the file only. *)
Lemma store_value_file s s' :
  company_data_json s = company_data_json s' -> store_value s = store_value s'.
Proof. unfold store_value. by intros ->. Qed.

Lemma lookup_stage_file company key s s' :
  company_data_json s = company_data_json s' ->
  fst (lookup_stage company key s) = fst (lookup_stage company key s').
Proof. intros H. by rewrite !lookup_stage_eq, (store_value_file _ _ H). Qed.

Lemma lookup_stage_fst company key s :
  lookup_stage company key s = (fst (lookup_stage company key s), s).
Proof. by rewrite lookup_stage_eq. Qed.

Lemma store_ok_file s s' :
  company_data_json s = company_data_json s' -> store_ok s -> store_ok s'.
Proof.
  intros H (d & Hs & Hall). exists d. by rewrite <-(store_value_file _ _ H).
Qed.

(** The state after a request to the model service and the prints that
    follow it. *)
Definition requested (sh : shape) (prompt : string) (r : res string)
    (w : World) (s : state) : state :=
  add_event (ERemote sh prompt r) (set_world w s).

Definition printed (text : string) (s : state) : state :=
  add_event (EPrintObj text) s.

Lemma client_responses_parse_eq sh prompt s :
  client_responses_parse sh prompt s =
  (fst (responses_parse sh prompt (world s)),
   requested sh prompt (fst (responses_parse sh prompt (world s)))
     (snd (responses_parse sh prompt (world s))) s).
Proof.
  unfold client_responses_parse. by destruct (responses_parse _ _ _).
Qed.

Lemma get_company_personnel_eq company s :
  let prompt := format_prompt_get_company_personnel company in
  get_company_personnel company s =
  match responses_parse CompanyPersonnelResponse prompt (world s) with
  | (Ok t, w) =>
      (Ok t, printed t (requested CompanyPersonnelResponse prompt (Ok t) w s))
  | (Raise e, w) =>
      (Raise e, requested CompanyPersonnelResponse prompt (Raise e) w s)
  end.
Proof.
  simpl. unfold get_company_personnel, bind. rewrite client_responses_parse_eq.
  by destruct (responses_parse _ _ _) as [[t|e] w].
Qed.

Lemma get_company_details_eq company s :
  let prompt := format_prompt_get_company_details company in
  get_company_details company s =
  match responses_parse CompanyDetails prompt (world s) with
  | (Ok t, w) => (Ok t, printed t (requested CompanyDetails prompt (Ok t) w s))
  | (Raise e, w) => (Raise e, requested CompanyDetails prompt (Raise e) w s)
  end.
Proof.
  simpl. unfold get_company_details, bind. rewrite client_responses_parse_eq.
  by destruct (responses_parse _ _ _) as [[t|e] w].
Qed.

(** With the sources of [main.py] both builders return: the prompt does
    not depend on the state, and only the first one prints. *)
Lemma personnel_news_prompt_eq company personnel days :
  exists prompt line,
    forall s0,
      format_prompt_company_personnel_news_prompt company personnel days
        TRUSTED_NEWS_SOURCES s0 = (Ok prompt, add_event (EPrint line) s0).
Proof.
  unfold format_prompt_company_personnel_news_prompt, bind, sources_getitem,
    ret, raise, emit.
  replace (TRUSTED_NEWS_SOURCES !! "gaming_industry")
    with (Some ["Pocket Gamer"; "PocketGamer.biz"; "Gamezebo";
                "Deconstructor of Fun"; "IGN"; "Gamespot"; "Kotaku";
                "VentureBeat (GamesBeat)"]) by (vm_compute; reflexivity).
  replace (TRUSTED_NEWS_SOURCES !! "business_sources")
    with (Some ["TechCrunch"; "Bloomberg"; "Reuters"])
    by (vm_compute; reflexivity).
  replace (TRUSTED_NEWS_SOURCES !! "company_channels")
    with (Some ["LinkedIn posts"; "X (Twitter) posts"; "Company blog";
                "Press releases"]) by (vm_compute; reflexivity).
  by eexists _, _.
Qed.

Lemma company_news_prompt_eq company details days :
  exists prompt,
    forall s0,
      format_prompt_company_news_prompt company details days
        TRUSTED_NEWS_SOURCES s0 = (Ok prompt, s0).
Proof.
  unfold format_prompt_company_news_prompt, bind, sources_getitem, ret, raise.
  replace (TRUSTED_NEWS_SOURCES !! "gaming_industry")
    with (Some ["Pocket Gamer"; "PocketGamer.biz"; "Gamezebo";
                "Deconstructor of Fun"; "IGN"; "Gamespot"; "Kotaku";
                "VentureBeat (GamesBeat)"]) by (vm_compute; reflexivity).
  replace (TRUSTED_NEWS_SOURCES !! "business_sources")
    with (Some ["TechCrunch"; "Bloomberg"; "Reuters"])
    by (vm_compute; reflexivity).
  replace (TRUSTED_NEWS_SOURCES !! "company_channels")
    with (Some ["LinkedIn posts"; "X (Twitter) posts"; "Company blog";
                "Press releases"]) by (vm_compute; reflexivity).
  by eexists.
Qed.

Lemma get_company_personnel_news_eq company personnel prompt line s :
  (forall s0,
     format_prompt_company_personnel_news_prompt company personnel
       NUMBER_OF_DAYS TRUSTED_NEWS_SOURCES s0
     = (Ok prompt, add_event (EPrint line) s0)) ->
  get_company_personnel_news company personnel NUMBER_OF_DAYS
    TRUSTED_NEWS_SOURCES s =
  match responses_parse CompanyPersonnelNewsResponse prompt (world s) with
  | (Ok t, w) =>
      (Ok t, printed t (printed t
               (requested CompanyPersonnelNewsResponse prompt (Ok t) w
                  (add_event (EPrint line) s))))
  | (Raise e, w) =>
      (Raise e, requested CompanyPersonnelNewsResponse prompt (Raise e) w
                  (add_event (EPrint line) s))
  end.
Proof.
  intros Hp. unfold get_company_personnel_news.
  rewrite (bind_Ok _ _ _ _ _ (Hp s)). unfold bind.
  rewrite client_responses_parse_eq. simpl.
  by destruct (responses_parse _ _ _) as [[t|e] w].
Qed.

Lemma get_company_news_eq company details prompt s :
  (forall s0,
     format_prompt_company_news_prompt company details
       NUMBER_OF_DAYS TRUSTED_NEWS_SOURCES s0 = (Ok prompt, s0)) ->
  get_company_news company details NUMBER_OF_DAYS TRUSTED_NEWS_SOURCES s =
  match responses_parse CompanyNewsResponse prompt (world s) with
  | (Ok t, w) =>
      (Ok t, printed t (requested CompanyNewsResponse prompt (Ok t) w s))
  | (Raise e, w) =>
      (Raise e, requested CompanyNewsResponse prompt (Raise e) w s)
  end.
Proof.
  intros Hp. unfold get_company_news.
  rewrite (bind_Ok _ _ _ _ _ (Hp s)). unfold bind.
  rewrite client_responses_parse_eq.
  by destruct (responses_parse _ _ _) as [[t|e] w].
Qed.

(** The last stage: the request for the company news, the three prints
    and the request to the formatter. *)
Lemma format_stage_eq company personnel personnel_news details prompt s :
  (forall s0,
     format_prompt_company_news_prompt company details
       NUMBER_OF_DAYS TRUSTED_NEWS_SOURCES s0 = (Ok prompt, s0)) ->
  format_stage company personnel personnel_news details s =
  match responses_parse CompanyNewsResponse prompt (world s) with
  | (Ok news, w) =>
      client_chat_completions_create
        (format_prompt company personnel personnel_news details news)
        (add_event (EPrint "--------------------------------")
           (add_event (EPrint (format_prompt company personnel personnel_news
                                 details news))
              (add_event (EPrint "--------------------------------")
                 (printed news
                    (requested CompanyNewsResponse prompt (Ok news) w s)))))
  | (Raise e, w) =>
      (Raise e, requested CompanyNewsResponse prompt (Raise e) w s)
  end.
Proof.
  intros Hp. unfold format_stage. unfold bind at 1.
  rewrite (get_company_news_eq _ _ _ _ Hp).
  by destruct (responses_parse _ _ _) as [[t|e] w].
Qed.

Lemma run_news_agent_format_stage company s :
  run_news_agent company s =
  (let* personnel := get_company_personnel company in
   let* _ := save_intermediate_data company "personnel" personnel in
   let* personnel_news :=
     get_company_personnel_news company personnel NUMBER_OF_DAYS
       TRUSTED_NEWS_SOURCES in
   let* _ := save_intermediate_data company "personnel_news" personnel_news in
   let* company_details := get_company_details company in
   let* _ := save_intermediate_data company "company_details" company_details in
   format_stage company personnel personnel_news company_details) s.
Proof. reflexivity. Qed.

(** A save that returns has parsed its text and stored the value under
    its key; the other keys of the record are as before, and so is the
    world. *)
Lemma save_intermediate_data_sets company key data s s' :
  save_intermediate_data company key data s = (Ok tt, s') ->
  exists value,
    loads data = Some value /\
    fst (lookup_stage company key s') = Ok value /\
    world s' = world s /\
    forall s0 k v,
      company_data_json s0 = company_data_json s -> k <> key ->
      fst (lookup_stage company k s0) = Ok v ->
      fst (lookup_stage company k s') = Ok v.
Proof.
  intros Hsave.
  destruct (save_intermediate_data_inv _ _ _ _ _ Hsave)
    as (d & value & r & Hs & Hl & Hr & Hs' & Hv').
  exists value. split_and!; [done| |by subst s'|].
  - rewrite lookup_stage_eq, Hv'. simpl. rewrite dict_get_set_eq. simpl.
    by rewrite dict_get_set_eq.
  - intros s0 k v Hs0 Hk. rewrite (lookup_stage_file _ _ _ _ Hs0).
    rewrite !lookup_stage_eq, Hv', Hs. simpl.
    rewrite dict_get_set_eq. simpl. rewrite dict_get_set_ne by done.
    by destruct Hr as [[-> ->]| ->].
Qed.

(** X7. A run of the pipeline that returns has made its four extraction
    requests and the request to the formatter one after the other, each
    in the world that the one before left. The personnel answer goes into
    the personnel-news prompt, the details answer into the company-news
    prompt and all four answers into the prompt of the formatter, whose
    answer is the summary returned. The first three answers are JSON text,
    and their values are what the store then holds for the company under
    ["personnel"], ["personnel_news"] and ["company_details"]. *)
Theorem run_news_agent_returns_inv (company summary : string) (s s' : state) :
  run_news_agent company s = (Ok summary, s') ->
  exists personnel personnel_news details news prompt2 prompt4 w1 w2 w3 w4
         vp vpn vd,
    responses_parse CompanyPersonnelResponse
      (format_prompt_get_company_personnel company) (world s)
    = (Ok personnel, w1) /\
    fst (format_prompt_company_personnel_news_prompt company personnel
           NUMBER_OF_DAYS TRUSTED_NEWS_SOURCES s) = Ok prompt2 /\
    responses_parse CompanyPersonnelNewsResponse prompt2 w1
    = (Ok personnel_news, w2) /\
    responses_parse CompanyDetails
      (format_prompt_get_company_details company) w2 = (Ok details, w3) /\
    fst (format_prompt_company_news_prompt company details
           NUMBER_OF_DAYS TRUSTED_NEWS_SOURCES s) = Ok prompt4 /\
    responses_parse CompanyNewsResponse prompt4 w3 = (Ok news, w4) /\
    chat_completions_create
      (format_prompt company personnel personnel_news details news) w4
    = (Ok summary, world s') /\
    loads personnel = Some vp /\ loads personnel_news = Some vpn /\
    loads details = Some vd /\
    lookup_stage company "personnel" s' = (Ok vp, s') /\
    lookup_stage company "personnel_news" s' = (Ok vpn, s') /\
    lookup_stage company "company_details" s' = (Ok vd, s').
Proof.
  rewrite run_news_agent_format_stage. intros Hrun.
  apply bind_inv_Ok in Hrun as (personnel & s1 & H1 & Hrun).
  rewrite get_company_personnel_eq in H1. simpl in H1.
  destruct (responses_parse CompanyPersonnelResponse _ (world s))
    as [[t|e] w1] eqn:Hr1; [|done]. injection H1 as -> <-.
  apply bind_inv_Ok in Hrun as ([] & s2 & Hsave1 & Hrun).
  apply save_intermediate_data_sets in Hsave1 as (vp & Hl1 & Hp2 & Hw2 & _).
  simpl in Hw2.
  apply bind_inv_Ok in Hrun as (personnel_news & s3 & H3 & Hrun).
  destruct (personnel_news_prompt_eq company personnel NUMBER_OF_DAYS)
    as (prompt2 & line & Hprompt2).
  rewrite (get_company_personnel_news_eq _ _ _ _ _ Hprompt2), Hw2 in H3.
  destruct (responses_parse CompanyPersonnelNewsResponse _ w1)
    as [[t|e] w2] eqn:Hr2; [|done]. injection H3 as -> <-.
  apply bind_inv_Ok in Hrun as ([] & s4 & Hsave2 & Hrun).
  apply save_intermediate_data_sets in Hsave2 as (vpn & Hl2 & Hpn4 & Hw4 & Hk4).
  simpl in Hw4. pose proof (Hk4 s2 "personnel" vp eq_refl ltac:(done) Hp2) as Hp4.
  clear Hk4 Hp2.
  apply bind_inv_Ok in Hrun as (details & s5 & H5 & Hrun).
  rewrite get_company_details_eq in H5. simpl in H5. rewrite Hw4 in H5.
  destruct (responses_parse CompanyDetails _ w2)
    as [[t|e] w3] eqn:Hr3; [|done]. injection H5 as -> <-.
  apply bind_inv_Ok in Hrun as ([] & s6 & Hsave3 & Hrun).
  apply save_intermediate_data_sets in Hsave3 as (vd & Hl3 & Hd6 & Hw6 & Hk6).
  simpl in Hw6. pose proof (Hk6 s4 "personnel" vp eq_refl ltac:(done) Hp4) as Hp6.
  pose proof (Hk6 s4 "personnel_news" vpn eq_refl ltac:(done) Hpn4) as Hpn6.
  clear Hk6 Hp4 Hpn4.
  destruct (company_news_prompt_eq company details NUMBER_OF_DAYS)
    as (prompt4 & Hprompt4).
  rewrite (format_stage_eq _ _ _ _ _ _ Hprompt4), Hw6 in Hrun.
  destruct (responses_parse CompanyNewsResponse _ w3)
    as [[news|e] w4] eqn:Hr4; [|done].
  unfold client_chat_completions_create in Hrun. simpl in Hrun.
  destruct (chat_completions_create _ w4) as [r w5] eqn:Hchat.
  injection Hrun as -> <-.
  exists personnel, personnel_news, details, news, prompt2, prompt4,
    w1, w2, w3, w4, vp, vpn, vd.
  rewrite Hprompt2, Hprompt4.
  split_and!; try done.
  - rewrite lookup_stage_fst. f_equal. rewrite <-Hp6.
    by apply lookup_stage_file.
  - rewrite lookup_stage_fst. f_equal. rewrite <-Hpn6.
    by apply lookup_stage_file.
  - rewrite lookup_stage_fst. f_equal. rewrite <-Hd6.
    by apply lookup_stage_file.
Qed.

(** On a store of the data model, a save of JSON text returns and a save
    of other text raises at [json.loads], before anything is written. *)
Lemma save_intermediate_data_store_ok company key data value s :
  store_ok s -> loads data = Some value ->
  exists s', save_intermediate_data company key data s = (Ok tt, s') /\
             world s' = world s /\ store_ok s'.
Proof.
  intros Hok Hl. pose proof (store_ok_save_intermediate_data company key data s Hok)
    as Hok'.
  destruct (store_ok_record _ Hok) as (d & Hs & Hrec).
  rewrite save_intermediate_data_eq, Hs in *.
  rewrite (intermediate_update_dict _ _ _ _ _ Hl (Hrec company)) in *.
  by eexists.
Qed.

Lemma save_intermediate_data_unparseable company key data s :
  store_ok s -> loads data = None ->
  save_intermediate_data company key data s = (Raise JSONDecodeError, s).
Proof.
  intros Hok Hl. destruct (store_ok_record _ Hok) as (d & Hs & Hrec).
  rewrite save_intermediate_data_eq, Hs. unfold intermediate_update. simpl.
  destruct (bool_decide _); simpl; by rewrite Hl.
Qed.

(** X8. On a store of the data model, when the four extraction requests
    and the request to the formatter return and the first three answers
    are JSON text, the run returns the answer of the formatter. The answer
    to the company-news request need not be JSON text: it is never
    parsed. *)
Theorem run_news_agent_returns
    (company personnel personnel_news details news summary : string)
    (prompt2 prompt4 : string) (w1 w2 w3 w4 w5 : World) (vp vpn vd : json)
    (s : state) :
  store_ok s ->
  responses_parse CompanyPersonnelResponse
    (format_prompt_get_company_personnel company) (world s)
  = (Ok personnel, w1) ->
  loads personnel = Some vp ->
  fst (format_prompt_company_personnel_news_prompt company personnel
         NUMBER_OF_DAYS TRUSTED_NEWS_SOURCES s) = Ok prompt2 ->
  responses_parse CompanyPersonnelNewsResponse prompt2 w1
  = (Ok personnel_news, w2) ->
  loads personnel_news = Some vpn ->
  responses_parse CompanyDetails
    (format_prompt_get_company_details company) w2 = (Ok details, w3) ->
  loads details = Some vd ->
  fst (format_prompt_company_news_prompt company details
         NUMBER_OF_DAYS TRUSTED_NEWS_SOURCES s) = Ok prompt4 ->
  responses_parse CompanyNewsResponse prompt4 w3 = (Ok news, w4) ->
  chat_completions_create
    (format_prompt company personnel personnel_news details news) w4
  = (Ok summary, w5) ->
  exists s', run_news_agent company s = (Ok summary, s') /\
             world s' = w5 /\ store_ok s'.
Proof.
  intros Hok Hr1 Hl1 Hq2 Hr2 Hl2 Hr3 Hl3 Hq4 Hr4 Hchat.
  destruct (personnel_news_prompt_eq company personnel NUMBER_OF_DAYS)
    as (p2 & line & Hprompt2).
  rewrite Hprompt2 in Hq2. injection Hq2 as ->.
  destruct (company_news_prompt_eq company details NUMBER_OF_DAYS)
    as (p4 & Hprompt4).
  rewrite Hprompt4 in Hq4. injection Hq4 as ->.
  rewrite run_news_agent_format_stage.
  pose proof (get_company_personnel_eq company s) as H1. simpl in H1.
  rewrite Hr1 in H1. rewrite (bind_Ok _ _ _ _ _ H1). clear H1.
  destruct (save_intermediate_data_store_ok company "personnel" personnel vp
              (printed personnel
                 (requested CompanyPersonnelResponse
                    (format_prompt_get_company_personnel company)
                    (Ok personnel) w1 s)))
    as (s2 & Hsave1 & Hw2 & Hok2); [by eapply store_ok_file, Hok|done|].
  rewrite (bind_Ok _ _ _ _ _ Hsave1). simpl in Hw2.
  pose proof (get_company_personnel_news_eq _ _ _ _ s2 Hprompt2) as H3.
  rewrite Hw2, Hr2 in H3. rewrite (bind_Ok _ _ _ _ _ H3).
  match type of H3 with
  | _ = (_, ?s3) =>
      destruct (save_intermediate_data_store_ok company "personnel_news"
                  personnel_news vpn s3)
        as (s4 & Hsave2 & Hw4 & Hok4); [by eapply store_ok_file, Hok2|done|]
  end. clear H3.
  rewrite (bind_Ok _ _ _ _ _ Hsave2). simpl in Hw4.
  pose proof (get_company_details_eq company s4) as H5. simpl in H5.
  rewrite Hw4, Hr3 in H5. rewrite (bind_Ok _ _ _ _ _ H5).
  match type of H5 with
  | _ = (_, ?s5) =>
      destruct (save_intermediate_data_store_ok company "company_details"
                  details vd s5)
        as (s6 & Hsave3 & Hw6 & Hok6); [by eapply store_ok_file, Hok4|done|]
  end. clear H5.
  rewrite (bind_Ok _ _ _ _ _ Hsave3). simpl in Hw6.
  rewrite (format_stage_eq _ _ _ _ _ _ Hprompt4), Hw6, Hr4.
  unfold client_chat_completions_create. simpl. rewrite Hchat.
  eexists. split; [done|]. split; [done|].
  by eapply store_ok_file, Hok6.
Qed.

(** X9. On a store of the data model, when the answer to one of the
    first three requests is not JSON text, the run raises
    [JSONDecodeError] at the save of that stage: the last thing it did was
    to print that answer, and the world is the one that request left. For
    the first stage the state is given in full: nothing was written. *)
Theorem unparseable_answer_ends_run
    (company personnel : string) (w1 : World) (s : state) :
  store_ok s ->
  responses_parse CompanyPersonnelResponse
    (format_prompt_get_company_personnel company) (world s)
  = (Ok personnel, w1) ->
  (loads personnel = None ->
   run_news_agent company s
   = (Raise JSONDecodeError,
      printed personnel
        (requested CompanyPersonnelResponse
           (format_prompt_get_company_personnel company) (Ok personnel) w1 s))) /\
  (forall vp prompt2 personnel_news w2,
     loads personnel = Some vp ->
     fst (format_prompt_company_personnel_news_prompt company personnel
            NUMBER_OF_DAYS TRUSTED_NEWS_SOURCES s) = Ok prompt2 ->
     responses_parse CompanyPersonnelNewsResponse prompt2 w1
     = (Ok personnel_news, w2) ->
     (loads personnel_news = None ->
      exists s', run_news_agent company s = (Raise JSONDecodeError, s') /\
                 world s' = w2 /\
                 last (trace s') = Some (EPrintObj personnel_news)) /\
     (forall vpn details w3,
        loads personnel_news = Some vpn ->
        responses_parse CompanyDetails
          (format_prompt_get_company_details company) w2 = (Ok details, w3) ->
        loads details = None ->
        exists s', run_news_agent company s = (Raise JSONDecodeError, s') /\
                   world s' = w3 /\
                   last (trace s') = Some (EPrintObj details))).
Proof.
  intros Hok Hr1.
  pose proof (get_company_personnel_eq company s) as H1. simpl in H1.
  rewrite Hr1 in H1.
  assert (store_ok (printed personnel
            (requested CompanyPersonnelResponse
               (format_prompt_get_company_personnel company)
               (Ok personnel) w1 s))) as Hok1 by by eapply store_ok_file, Hok.
  split.
  { intros Hl1. rewrite run_news_agent_format_stage.
    rewrite (bind_Ok _ _ _ _ _ H1).
    by rewrite (bind_Raise _ _ _ _ _
                  (save_intermediate_data_unparseable _ _ _ _ Hok1 Hl1)). }
  intros vp prompt2 personnel_news w2 Hl1 Hq2 Hr2.
  destruct (personnel_news_prompt_eq company personnel NUMBER_OF_DAYS)
    as (p2 & line & Hprompt2).
  rewrite Hprompt2 in Hq2. injection Hq2 as ->.
  destruct (save_intermediate_data_store_ok company "personnel" personnel vp
              _ Hok1 Hl1) as (s2 & Hsave1 & Hw2 & Hok2).
  simpl in Hw2.
  pose proof (get_company_personnel_news_eq _ _ _ _ s2 Hprompt2) as H3.
  rewrite Hw2, Hr2 in H3.
  match type of H3 with
  | _ = (_, ?s3) => assert (store_ok s3) as Hok3 by by eapply store_ok_file, Hok2
  end.
  split.
  { intros Hl2. rewrite run_news_agent_format_stage.
    rewrite (bind_Ok _ _ _ _ _ H1), (bind_Ok _ _ _ _ _ Hsave1),
      (bind_Ok _ _ _ _ _ H3).
    rewrite (bind_Raise _ _ _ _ _
               (save_intermediate_data_unparseable _ _ _ _ Hok3 Hl2)).
    eexists. split; [done|]. split; [done|]. simpl. by rewrite last_snoc. }
  intros vpn details w3 Hl2 Hr3 Hl3.
  destruct (save_intermediate_data_store_ok company "personnel_news"
              personnel_news vpn _ Hok3 Hl2) as (s4 & Hsave2 & Hw4 & Hok4).
  simpl in Hw4.
  pose proof (get_company_details_eq company s4) as H5. simpl in H5.
  rewrite Hw4, Hr3 in H5.
  match type of H5 with
  | _ = (_, ?s5) => assert (store_ok s5) as Hok5 by by eapply store_ok_file, Hok4
  end.
  rewrite run_news_agent_format_stage.
  rewrite (bind_Ok _ _ _ _ _ H1), (bind_Ok _ _ _ _ _ Hsave1),
    (bind_Ok _ _ _ _ _ H3), (bind_Ok _ _ _ _ _ Hsave2), (bind_Ok _ _ _ _ _ H5).
  rewrite (bind_Raise _ _ _ _ _
             (save_intermediate_data_unparseable _ _ _ _ Hok5 Hl3)).
  eexists. split; [done|]. split; [done|]. simpl. by rewrite last_snoc.
Qed.

(** ** The "Fetch Summary" button and what is shown *)

Lemma fetch_summary_Ok company s : fst (fetch_summary company s) = Ok tt.
Proof.
  unfold fetch_summary, try_except, emit.
  destruct (bind _ _ s) as [[[]|e] s']; done.
Qed.

(** X11. When the pipeline returns, the "Fetch Summary" flow returns,
    [get_company_data] then returns the summary with the time read after
    the run, and [display_summary] shows the company as subheader, that
    time as caption and the summary as markdown. *)
Theorem fetch_summary_then_display
    (company summary : string) (s s1 : state) :
  run_news_agent company s = (Ok summary, s1) ->
  let timestamp := datetime_now (world s1) in
  exists s2,
    fetch_summary company s = (Ok tt, s2) /\
    get_company_data company s2
    = (Ok (final_summary summary timestamp), s2) /\
    display_summary company s2
    = (Ok tt, add_event (EStMarkdown (JStr summary))
                (add_event (EStCaption (JStr timestamp))
                   (add_event (EStSubheader company) s2))).
Proof.
  intros Hrun timestamp.
  destruct (save_company_data_after_run _ _ _ _ timestamp Hrun)
    as (s2 & Hsave & _ & _ & Hget).
  exists s2. split_and!; [|done|].
  - unfold fetch_summary, try_except. unfold bind at 1. rewrite Hrun.
    unfold bind at 1. unfold now_isoformat. fold timestamp. by rewrite Hsave.
  - unfold display_summary. by rewrite (bind_Ok _ _ _ _ _ Hget).
Qed.

(** ** What a run of the page and a trigger leave alone *)

(** What an invariant may not look at. *)
Definition ignores_trace (P : state -> Prop) : Prop :=
  forall e s, P s -> P (add_event e s).

Definition ignores_lists (P : state -> Prop) : Prop :=
  forall h s, P s -> P (set_heap h s).

Definition ignores_watchlist (P : state -> Prop) : Prop :=
  forall t s, P s -> P (set_file WATCHLIST_FILE t s).

Definition ignores_scheduler (P : state -> Prop) : Prop :=
  (forall j s, P s -> P (set_jobs j s)) /\
  (forall k s, P s -> P (set_session_state k s)).

(** Lines 316 to 318 of [main.py]: the scheduler is started unless the
    session has the flag. *)
Definition page_scheduler (watchlist : nat) : M unit :=
  let* fresh := session_state_lacks "_scheduler_started" in
  if fresh then
    let* _ := schedule_weekly_refresh cb_run_news_agent watchlist in
    session_state_set "_scheduler_started"
  else ret tt.

Lemma emit_keeps P e : ignores_trace P -> preserves P (emit e).
Proof. intros Ht s HP. by apply Ht. Qed.

Lemma display_summary_keeps P comp :
  ignores_trace P -> preserves P (display_summary comp).
Proof.
  intros Ht. unfold display_summary.
  apply preserves_bind; [apply preserves_get_company_data|intros data].
  destruct (py_not data); [by apply emit_keeps|].
  repeat (apply preserves_bind; [|intros ?]);
    auto using emit_keeps, preserves_lift.
Qed.

Lemma save_watchlist_keeps P l :
  ignores_trace P -> ignores_watchlist P -> preserves P (save_watchlist l).
Proof. intros Ht Hw s HP. by apply Ht, Hw. Qed.

Lemma add_to_watchlist_keeps P company_input watchlist :
  ignores_trace P -> ignores_lists P ->
  (forall l, preserves P (save_watchlist l)) ->
  preserves P (add_to_watchlist company_input watchlist).
Proof.
  intros Ht Hl Hsave. unfold add_to_watchlist.
  apply preserves_bind; [by apply preserves_unchanged|intros l0].
  destruct (bool_decide _); [|by apply emit_keeps].
  apply preserves_bind; [intros s HP; by apply Hl|intros _].
  apply preserves_bind; [by apply preserves_unchanged|intros l1].
  apply preserves_bind; [apply Hsave|intros _]. by apply emit_keeps.
Qed.

Lemma run_news_agent_keeps P company :
  ignores_io P -> ignores_store P -> preserves P (run_news_agent company).
Proof.
  intros Hio Hs. apply preserves_run_news_agent; [done|].
  intros key data _. by apply preserves_save_intermediate_data.
Qed.

Lemma fetch_summary_keeps P company :
  ignores_io P -> ignores_store P -> preserves P (fetch_summary company).
Proof.
  intros Hio Hs. apply preserves_fetch_summary;
    [done|by apply run_news_agent_keeps|].
  intros ??. by apply preserves_save_company_data.
Qed.

Lemma refresh_all_keeps P watchlist :
  ignores_io P -> ignores_store P ->
  preserves P (refresh_all run_news_agent watchlist).
Proof.
  intros Hio Hs. apply preserves_for_each. intros comp.
  apply preserves_refresh_one; [done|by apply run_news_agent_keeps|].
  intros ??. by apply preserves_save_company_data.
Qed.

Lemma page_scheduler_keeps P watchlist :
  ignores_scheduler P -> preserves P (page_scheduler watchlist).
Proof.
  intros [Hj Hk] s HP. unfold page_scheduler, bind, session_state_lacks.
  simpl. destruct (bool_decide _); [|done]. simpl. by apply Hk, Hj.
Qed.

Definition fetch_pressed (u : ui) : bool :=
  st_button (fetch_clicked u) (bool_decide (company_input u = "")).

Definition add_pressed (u : ui) : bool :=
  st_button (add_clicked u) (bool_decide (company_input u = "")).

Lemma page_keeps P u loaded :
  ignores_trace P -> ignores_lists P ->
  (fetch_pressed u = true -> preserves P (fetch_summary (company_input u))) ->
  (add_pressed u = true -> forall l, preserves P (save_watchlist l)) ->
  (forall watchlist, preserves P (page_scheduler watchlist)) ->
  preserves P (page u loaded).
Proof.
  intros Ht Hl Hfetch Hadd Hsched. unfold page.
  apply preserves_bind; [intros s HP; by apply Hl|intros watchlist].
  apply preserves_bind; [|intros _].
  { fold (fetch_pressed u). destruct (fetch_pressed u); [auto|apply preserves_ret]. }
  apply preserves_bind; [|intros _].
  { fold (add_pressed u). destruct (add_pressed u); [|apply preserves_ret].
    apply add_to_watchlist_keeps; auto. }
  apply preserves_bind; [|intros _].
  { destruct (bool_decide _); [apply preserves_ret|].
    by apply display_summary_keeps. }
  apply preserves_bind; [by apply preserves_unchanged|intros l0].
  apply preserves_bind; [|intros _].
  { destruct (bool_decide _); [by apply emit_keeps|apply preserves_ret]. }
  apply preserves_bind; [|intros _].
  { apply preserves_for_each. intros comp. by apply display_summary_keeps. }
  apply Hsched.
Qed.

Lemma session_keeps P acts s s' :
  ignores_trace P -> ignores_lists P ->
  (forall company, preserves P (fetch_summary company)) ->
  (forall l, preserves P (save_watchlist l)) ->
  (forall watchlist, preserves P (page_scheduler watchlist)) ->
  (forall watchlist, preserves P (refresh_all run_news_agent watchlist)) ->
  P s -> session acts s = Some s' -> P s'.
Proof.
  intros Ht Hl Hfetch Hsave Hsched Hjob. revert s.
  induction acts as [|a acts IH]; intros s HP; simpl; [by intros [= <-]|].
  destruct (step a s) as [s1|] eqn:Hstep; [|done]. apply IH.
  destruct a as [u|]; simpl in Hstep.
  - unfold script in Hstep. rewrite load_watchlist_eq in Hstep.
    destruct (as_str_list _) as [loaded|]; [|done]. simpl in Hstep.
    injection Hstep as <-. apply page_keeps; auto.
  - injection Hstep as <-.
    apply (preserves_for_each P (jobs s) fire); [|done]. intros j. unfold fire.
    apply preserves_bind; [by apply preserves_unchanged|intros wl].
    destruct (job_callback j). apply Hjob.
Qed.

(** Lines 302 to 318 of [main.py]: the two tabs and the scheduler. *)
Definition page_tabs (u : ui) (watchlist : nat) : M unit :=
  let* _ :=
    if bool_decide (company_input u = "") then ret tt
    else display_summary (company_input u) in
  let* l := list_contents watchlist in
  let* _ :=
    if bool_decide (l = []) then
      emit (EStInfo "Watch‑list is empty. Add companies using the input above.")
    else ret tt in
  let* _ := for_each l display_summary in
  page_scheduler watchlist.

Lemma page_eq u loaded s :
  page u loaded s =
  (let* watchlist := new_list loaded in
   let* _ := (if fetch_pressed u then fetch_summary (company_input u)
              else ret tt) in
   let* _ := (if add_pressed u
              then add_to_watchlist (company_input u) watchlist
              else ret tt) in
   page_tabs u watchlist) s.
Proof. reflexivity. Qed.

Lemma bind_inv_Ok_keeps {A B} P (m : M A) (k : A -> M B) s b s' :
  preserves P m -> P s -> bind m k s = (Ok b, s') ->
  exists a s1, P s1 /\ k a s1 = (Ok b, s').
Proof.
  intros Hm HP (a & s1 & H1 & Hk)%bind_inv_Ok. exists a, s1. split; [|done].
  specialize (Hm s HP). by rewrite H1 in Hm.
Qed.

Lemma page_tabs_keeps P u watchlist :
  ignores_trace P -> preserves P (page_scheduler watchlist) ->
  preserves P (page_tabs u watchlist).
Proof.
  intros Ht Hsched. unfold page_tabs.
  apply preserves_bind; [|intros _].
  { destruct (bool_decide _); [apply preserves_ret|].
    by apply display_summary_keeps. }
  apply preserves_bind; [by apply preserves_unchanged|intros l0].
  apply preserves_bind; [|intros _].
  { destruct (bool_decide _); [by apply emit_keeps|apply preserves_ret]. }
  apply preserves_bind; [|intros _; done].
  apply preserves_for_each. intros comp. by apply display_summary_keeps.
Qed.

(** When the tabs are shown without an exception, the scheduler part runs
    in a state that differs by what was shown only. *)
Lemma page_tabs_inv P u watchlist s s' :
  ignores_trace P -> P s -> page_tabs u watchlist s = (Ok tt, s') ->
  exists s1, P s1 /\ page_scheduler watchlist s1 = (Ok tt, s').
Proof.
  intros Ht HP Hrun. unfold page_tabs in Hrun.
  apply (bind_inv_Ok_keeps P) in Hrun as ([] & s1 & HP1 & Hrun); [| |done].
  2: { destruct (bool_decide _); [apply preserves_ret|].
       by apply display_summary_keeps. }
  apply (bind_inv_Ok_keeps P) in Hrun as (l & s2 & HP2 & Hrun);
    [|by apply preserves_unchanged|done].
  apply (bind_inv_Ok_keeps P) in Hrun as ([] & s3 & HP3 & Hrun); [| |done].
  2: { destruct (bool_decide _); [by apply emit_keeps|apply preserves_ret]. }
  apply (bind_inv_Ok_keeps P) in Hrun as ([] & s4 & HP4 & Hrun); [| |done].
  2: { apply preserves_for_each. intros comp. by apply display_summary_keeps. }
  eauto.
Qed.

(** What the page shows. *)
Definition shown (ev : event) : Prop :=
  match ev with
  | EStInfo _ | EStSubheader _ | EStCaption _ | EStMarkdown _ => True
  | _ => False
  end.

Lemma emits_silent {A} ok (m : M A) :
  (forall s, trace (snd (m s)) = trace s) -> emits_only ok m.
Proof.
  intros Hm s. exists []. rewrite Hm. split; [by rewrite app_nil_r|constructor].
Qed.

Lemma emits_display_summary comp : emits_only shown (display_summary comp).
Proof.
  unfold display_summary.
  apply emits_bind; [apply emits_unchanged; intros s;
                     by rewrite get_company_data_eq|intros data].
  destruct (py_not data); [by apply emits_emit|].
  repeat (apply emits_bind; [|intros ?]);
    first [by apply emits_emit | by apply emits_unchanged].
Qed.

Lemma emits_for_each {A} ok (l : list A) body :
  (forall x, emits_only ok (body x)) -> emits_only ok (for_each l body).
Proof.
  intros Hb. induction l as [|x l IH]; simpl.
  - apply emits_ret.
  - apply emits_bind; [apply Hb|by intros _].
Qed.

Lemma emits_page_tabs u watchlist : emits_only shown (page_tabs u watchlist).
Proof.
  unfold page_tabs.
  apply emits_bind; [|intros _].
  { destruct (bool_decide _); [apply emits_ret|apply emits_display_summary]. }
  apply emits_bind; [by apply emits_unchanged|intros l].
  apply emits_bind; [|intros _].
  { destruct (bool_decide _); [by apply emits_emit|apply emits_ret]. }
  apply emits_bind; [|intros _].
  { apply emits_for_each. intros comp. apply emits_display_summary. }
  apply emits_silent. intros s. unfold page_scheduler, bind, session_state_lacks.
  simpl. by destruct (bool_decide _).
Qed.

(** Neither a request to the model service nor a write of the
    company-data file. *)
Definition local_event (ev : event) : Prop :=
  match ev with
  | ERemote _ _ _ | EChat _ _ | EWrite COMPANY_DATA_FILE _ => False
  | _ => True
  end.

Lemma emits_mono {A} (ok1 ok2 : event -> Prop) (m : M A) :
  (forall ev, ok1 ev -> ok2 ev) -> emits_only ok1 m -> emits_only ok2 m.
Proof.
  intros Hok Hm s. destruct (Hm s) as (evs & Ht & Hall). exists evs.
  split; [done|]. by eapply Forall_impl.
Qed.

Lemma emits_add_to_watchlist company_input watchlist :
  emits_only local_event (add_to_watchlist company_input watchlist).
Proof.
  unfold add_to_watchlist.
  apply emits_bind; [by apply emits_unchanged|intros l].
  destruct (bool_decide _); [|by apply emits_emit].
  apply emits_bind; [by apply emits_silent|intros _].
  apply emits_bind; [by apply emits_unchanged|intros l1].
  apply emits_bind; [|intros _; by apply emits_emit].
  intros s. eexists [_]. split; [done|]. by constructor.
Qed.

(** X13. A run of the page in which "Fetch Summary" is not pressed, or
    the text input is empty, leaves the world of the model service and the
    company-data file as they are, and none of its events is a request to
    the model service or a write of the company-data file. When "Add to
    Watch-List" is not pressed either, the watch-list file is unchanged
    too and every event of the run is something the page shows. *)
Theorem page_without_fetch (u : ui) (loaded : list string) (s : state) :
  fetch_clicked u = false \/ company_input u = "" ->
  let s' := snd (page u loaded s) in
  world s' = world s /\
  company_data_json s' = company_data_json s /\
  (exists evs, trace s' = trace s ++ evs /\ Forall local_event evs) /\
  (add_clicked u = false \/ company_input u = "" ->
   watchlist_json s' = watchlist_json s /\
   exists evs, trace s' = trace s ++ evs /\ Forall shown evs).
Proof.
  intros Hfetch.
  assert (fetch_pressed u = false) as Hf.
  { unfold fetch_pressed, st_button. destruct Hfetch as [->| ->]; [done|].
    by rewrite andb_false_r. }
  simpl. split_and!.
  - apply (page_keeps (fun s' => world s' = world s));
      [by intros ??|by intros ??|congruence|by intros _ l s0| |done].
    intros r. apply page_scheduler_keeps. by split.
  - apply (page_keeps (fun s' => company_data_json s' = company_data_json s));
      [by intros ??|by intros ??|congruence|by intros _ l s0| |done].
    intros r. apply page_scheduler_keeps. by split.
  - rewrite page_eq, Hf. unfold bind at 1. simpl. unfold bind at 1. simpl.
    assert (emits_only local_event
              (let* _ := (if add_pressed u
                          then add_to_watchlist (company_input u)
                                 (length (heap s))
                          else ret tt) in
               page_tabs u (length (heap s)))) as Hemits.
    { apply emits_bind; [|intros _].
      - destruct (add_pressed u);
          [apply emits_add_to_watchlist|apply emits_ret].
      - apply (emits_mono shown); [by intros []|apply emits_page_tabs]. }
    apply (Hemits (set_heap (heap s ++ [loaded]) s)).
  - intros Hadd.
    assert (add_pressed u = false) as Ha.
    { unfold add_pressed, st_button. destruct Hadd as [->| ->]; [done|].
      by rewrite andb_false_r. }
    split.
    + apply (page_keeps (fun s' => watchlist_json s' = watchlist_json s));
        [by intros ??|by intros ??|congruence|congruence| |done].
      intros r. apply page_scheduler_keeps. by split.
    + rewrite page_eq, Hf, Ha. unfold bind at 1. simpl.
      apply (emits_page_tabs u (length (heap s))
               (set_heap (heap s ++ [loaded]) s)).
Qed.

(** ** The weekly job *)

(** X17. After the weekly job has gone through a watch-list, every name
    on it has a final summary as the program writes it, or the exception
    of its run has been logged during the job. *)
Theorem refresh_all_covers_watchlist (watchlist : list string) (s : state) :
  let s' := snd (refresh_all run_news_agent watchlist s) in
  exists evs,
    trace s' = trace s ++ evs /\
    forall comp, comp ∈ watchlist ->
      (exists e, ESchedulerError comp e ∈ evs) \/
      exists summary timestamp,
        fst (get_company_data comp s') = Ok (final_summary summary timestamp).
Proof.
  simpl. unfold refresh_all. revert s.
  induction watchlist as [|comp l IH]; intros s.
  - exists []. split; [by rewrite app_nil_r|]. intros comp Hin.
    by apply elem_of_nil in Hin.
  - simpl. unfold bind.
    destruct (refresh_one_outcome comp s) as (evs1 & Ht1 & H1).
    pose proof (refresh_one_Ok run_news_agent comp s) as Hok.
    destruct (refresh_one run_news_agent comp s) as [[[]|e] s1]; simpl in *;
      [|done].
    destruct (IH s1) as (evs2 & Ht2 & H2).
    exists (evs1 ++ evs2). rewrite Ht2, Ht1, <-(assoc_L (++)).
    split; [done|]. intros c Hc.
    destruct (decide (c ∈ l)) as [Hl|Hl].
    + destruct (H2 c Hl) as [[e He]|Hsaved]; [|by right].
      left. exists e. set_solver.
    + apply elem_of_cons in Hc as [->|Hc]; [|done].
      destruct H1 as [[e He]|(summary & timestamp & Hget)].
      * left. exists e. set_solver.
      * right. exists summary, timestamp.
        pose proof (refresh_all_keeps_others comp l s1 Hl) as Hkeep.
        unfold refresh_all in Hkeep. by rewrite Hkeep.
Qed.

(** X18. A trigger of a job never raises. It leaves the watch-list file,
    the list objects, the jobs and the session state as they are, and does
    not change what [get_company_data] returns for a company that is not
    on the list of the job. *)
Theorem weekly_job_frame (j : job) (s : state) :
  let s' := snd (fire j s) in
  fst (fire j s) = Ok tt /\
  watchlist_json s' = watchlist_json s /\
  heap s' = heap s /\ jobs s' = jobs s /\
  session_state s' = session_state s /\
  forall c, c ∉ default [] (heap s !! job_watchlist j) ->
            fst (get_company_data c s') = fst (get_company_data c s).
Proof.
  unfold fire, list_contents. unfold bind. simpl.
  destruct (job_callback j). simpl.
  split_and!.
  - apply refresh_all_Ok.
  - apply (refresh_all_keeps (fun s' => watchlist_json s' = watchlist_json s)); [by split|by intros ??|done].
  - apply (refresh_all_keeps (fun s' => heap s' = heap s)); [by split|by intros ??|done].
  - apply (refresh_all_keeps (fun s' => jobs s' = jobs s)); [by split|by intros ??|done].
  - apply (refresh_all_keeps (fun s' => session_state s' = session_state s)); [by split|by intros ??|done].
  - intros c Hc. by apply refresh_all_keeps_others.
Qed.

(** ** The scheduler of a session *)

(** No job and no flag, or one job and the flag. *)
Definition scheduler_once (s : state) : Prop :=
  jobs s = [] /\ "_scheduler_started" ∉ session_state s \/
  exists j, jobs s = [j] /\ "_scheduler_started" ∈ session_state s.

Lemma scheduler_once_page_scheduler watchlist :
  preserves scheduler_once (page_scheduler watchlist).
Proof.
  intros s HP. unfold page_scheduler, bind, session_state_lacks. simpl.
  case_bool_decide as Hflag; [|done]. simpl.
  destruct HP as [[Hj _]|(j & _ & Hin)]; [|done].
  right. eexists. rewrite Hj. split; [done|]. simpl. set_solver.
Qed.

Lemma registered_page_scheduler js watchlist :
  preserves (fun s => jobs s = js /\ "_scheduler_started" ∈ session_state s)
    (page_scheduler watchlist).
Proof.
  intros s [Hj Hin]. unfold page_scheduler, bind, session_state_lacks. simpl.
  by rewrite bool_decide_eq_false_2 by (by intros ?).
Qed.

(** Once the flag is set, the jobs are what they are. *)
Lemma registered_session js acts s s' :
  jobs s = js -> "_scheduler_started" ∈ session_state s ->
  session acts s = Some s' ->
  jobs s' = js /\ "_scheduler_started" ∈ session_state s'.
Proof.
  intros Hj Hin Hs.
  apply (session_keeps
           (fun s0 => jobs s0 = js /\
                      "_scheduler_started" ∈ session_state s0) acts s s');
    try done.
  - by intros ??.
  - by intros ??.
  - intros c. apply fetch_summary_keeps; [by split|by intros ??].
  - intros l. apply save_watchlist_keeps; by intros ??.
  - apply registered_page_scheduler.
  - intros l. apply refresh_all_keeps; [by split|by intros ??].
Qed.

(** X16. A session has no job and no flag, or one job and the flag:
    reruns of the page and triggers keep it so, and once a job is
    registered the jobs never change. *)
Theorem scheduler_started_once (acts : list action) (s s' : state) :
  scheduler_once s -> session acts s = Some s' ->
  scheduler_once s' /\ (jobs s <> [] -> jobs s' = jobs s).
Proof.
  intros HP Hs. split.
  - apply (session_keeps scheduler_once acts s s'); try done.
    + by intros ??.
    + by intros ??.
    + intros c. apply fetch_summary_keeps; [by split|by intros ??].
    + intros l. apply save_watchlist_keeps; by intros ??.
    + apply scheduler_once_page_scheduler.
    + intros l. apply refresh_all_keeps; [by split|by intros ??].
  - intros Hne. destruct HP as [[? _]|(j & Hj & Hin)]; [done|].
    by apply (registered_session (jobs s) acts s s').
Qed.

(** ** The "Add to Watch-List" button *)

Lemma add_to_watchlist_eq company_input watchlist l s :
  heap s !! watchlist = Some l ->
  add_to_watchlist company_input watchlist s =
  if bool_decide (company_input ∉ l) then
    let text := dumps None (JArr (JStr <$> sorted_set (l ++ [company_input]))) in
    (Ok tt,
     add_event (EStSuccess (company_input +:+ " added to watch‑list!"))
       (add_event (EWrite WATCHLIST_FILE text)
          (set_file WATCHLIST_FILE text
             (set_heap (alter (fun l => l ++ [company_input]) watchlist (heap s))
                s))))
  else (Ok tt, add_event (EStInfo "Already in watch‑list.") s).
Proof.
  intros Hl. unfold add_to_watchlist, bind, list_contents. simpl. rewrite Hl.
  simpl. case_bool_decide; [|done].
  unfold list_append, save_watchlist, write_text, emit. simpl.
  rewrite list_lookup_alter, Hl, decide_True by done. reflexivity.
Qed.

Lemma fetch_step_Ok (b : bool) company s :
  fst ((if b then fetch_summary company else ret tt) s) = Ok tt.
Proof. destruct b; [apply fetch_summary_Ok|done]. Qed.

Lemma fetch_step_keeps P (b : bool) company :
  ignores_io P -> ignores_store P ->
  preserves P (if b then fetch_summary company else ret tt).
Proof.
  intros Hio Hs. destruct b; [by apply fetch_summary_keeps|apply preserves_ret].
Qed.

(** A run of the page in which the button is pressed: the state in
    which the tabs are shown. *)
Lemma page_add_eq u loaded s :
  add_pressed u = true ->
  exists s2,
    heap s2 !! length (heap s) = Some loaded /\
    watchlist_json s2 = watchlist_json s /\
    page u loaded s
    = page_tabs u (length (heap s))
        (snd (add_to_watchlist (company_input u) (length (heap s)) s2)).
Proof.
  intros Ha. rewrite page_eq, Ha. unfold bind at 1. simpl. unfold bind at 1.
  pose proof (fetch_step_Ok (fetch_pressed u) (company_input u)
                (set_heap (heap s ++ [loaded]) s)) as Hok.
  pose proof (fetch_step_keeps
                (fun x => heap x !! length (heap s) = Some loaded /\
                          watchlist_json x = watchlist_json s)
                (fetch_pressed u) (company_input u)
                ltac:(by split) ltac:(by intros ??)
                (set_heap (heap s ++ [loaded]) s)) as Hkeep.
  destruct ((if fetch_pressed u then fetch_summary (company_input u)
             else ret tt) (set_heap (heap s ++ [loaded]) s))
    as [[[]|e] s2]; [|done].
  destruct Hkeep as [Hheap Hfile]; [split; [|done]|].
  { simpl. by apply list_lookup_middle. }
  simpl in Hheap, Hfile. exists s2. split_and!; [done..|].
  unfold bind. rewrite (add_to_watchlist_eq _ _ _ _ Hheap).
  by destruct (bool_decide _).
Qed.

(** X14. A run of the page with a name entered and "Add to Watch-List"
    pressed. When the name is not on the list of the run, the watch-list
    file then loads as the sorted set of that list and the name, and the
    success message is shown; when it is, the file is unchanged and
    "Already in watch-list." is shown. Both hold whether or not the rest
    of the page raises. *)
Theorem add_to_watchlist_persists (u : ui) (loaded : list string) (s : state) :
  add_clicked u = true -> company_input u <> "" ->
  let s' := snd (page u loaded s) in
  (company_input u ∉ loaded ->
   as_str_list (watchlist_value s')
   = Some (sorted_set (loaded ++ [company_input u])) /\
   EStSuccess (company_input u +:+ " added to watch‑list!") ∈ trace s') /\
  (company_input u ∈ loaded ->
   watchlist_json s' = watchlist_json s /\
   EStInfo "Already in watch‑list." ∈ trace s').
Proof.
  intros Hclick Hinput.
  assert (add_pressed u = true) as Ha.
  { unfold add_pressed, st_button. rewrite Hclick.
    by rewrite bool_decide_eq_false_2. }
  destruct (page_add_eq u loaded s Ha) as (s2 & Hheap & Hfile & ->).
  rewrite (add_to_watchlist_eq _ _ _ _ Hheap). simpl.
  split.
  - intros Hnew. rewrite bool_decide_eq_true_2 by done. simpl.
    match goal with
    | |- _ (watchlist_value (snd (page_tabs u ?r ?s3))) = _ /\ _ =>
        pose proof (page_tabs_keeps
                      (fun x => watchlist_json x = watchlist_json s3 /\
                                EStSuccess (company_input u
                                            +:+ " added to watch‑list!")
                                ∈ trace x) u r) as Htabs;
        destruct (Htabs ltac:(intros ? ? [? ?]; split; [done|set_solver])
                    ltac:(apply page_scheduler_keeps; by split) s3)
          as [Hw Hev]
    end.
    { split; [done|]. simpl. set_solver. }
    split; [|done]. unfold watchlist_value. rewrite Hw. simpl.
    rewrite loads_dumps by apply wf_json_strings. simpl.
    apply (as_str_list_strings (sorted_set (loaded ++ [company_input u]))).
  - intros Hold. rewrite bool_decide_eq_false_2 by (by intros H; apply H).
    match goal with
    | |- watchlist_json (snd (page_tabs u ?r ?s3)) = _ /\ _ =>
        pose proof (page_tabs_keeps
                      (fun x => watchlist_json x = watchlist_json s /\
                                EStInfo "Already in watch‑list." ∈ trace x)
                      u r) as Htabs;
        destruct (Htabs ltac:(intros ? ? [? ?]; split; [done|set_solver])
                    ltac:(apply page_scheduler_keeps; by split) s3)
          as [Hw Hev]
    end.
    { split; [done|]. simpl. set_solver. }
    done.
Qed.

(** List object [r] holds [l], and the jobs and the session are those of
    [s]. *)
Definition list_object (s : state) (r : nat) (l : list string) (x : state)
  : Prop :=
  heap x !! r = Some l /\ jobs x = jobs s /\ session_state x = session_state s.

(** A run of the page that returns, in a session without the flag,
    registers one job on the list object of the run. *)
Lemma page_registers u loaded s s' :
  "_scheduler_started" ∉ session_state s ->
  page u loaded s = (Ok tt, s') ->
  jobs s' = jobs s ++ [{| job_callback := cb_run_news_agent;
                          job_watchlist := length (heap s) |}] /\
  "_scheduler_started" ∈ session_state s' /\
  heap s' !! length (heap s)
  = Some (if add_pressed u && bool_decide (company_input u ∉ loaded)
          then loaded ++ [company_input u] else loaded).
Proof.
  intros Hflag Hpage. rewrite page_eq in Hpage.
  unfold bind at 1 in Hpage. simpl in Hpage.
  assert (forall l, ignores_trace (list_object s (length (heap s)) l)) as Ht
    by by intros ????.
  apply (bind_inv_Ok_keeps (list_object s (length (heap s)) loaded)) in Hpage
    as ([] & s2 & HP2 & Hpage).
  2: { apply fetch_step_keeps; [by split|by intros ??]. }
  2: { split; [|done]. simpl. by apply list_lookup_middle. }
  apply bind_inv_Ok in Hpage as ([] & s3 & Hadd & Hpage).
  assert (list_object s (length (heap s))
            (if add_pressed u && bool_decide (company_input u ∉ loaded)
             then loaded ++ [company_input u] else loaded) s3) as HP3.
  { destruct HP2 as (Hheap & Hj & Hk).
    destruct (add_pressed u); simpl; [|by injection Hadd as <-].
    rewrite (add_to_watchlist_eq _ _ _ _ Hheap) in Hadd.
    destruct (bool_decide _); injection Hadd as <-; [|done].
    split; [|done]. simpl. by rewrite list_lookup_alter, Hheap, decide_True. }
  apply (page_tabs_inv _ _ _ _ _ (Ht _) HP3) in Hpage
    as (s4 & (Hheap & Hj & Hk) & Hsched).
  unfold page_scheduler, bind, session_state_lacks in Hsched.
  simpl in Hsched. rewrite Hk in Hsched.
  rewrite bool_decide_eq_true_2 in Hsched by done. simpl in Hsched.
  injection Hsched as <-. simpl. rewrite Hj. split_and!; [done|set_solver|done].
Qed.

(** X15. A run of the page that returns, in a session without the flag,
    registers one job on the list object of that run and sets the flag;
    the list holds what was loaded, followed by the name added in this
    run, if one was. In a session with the flag, such a run leaves the
    jobs as they are. *)
Theorem scheduler_captures_first_list
    (u : ui) (loaded : list string) (s s' : state) :
  page u loaded s = (Ok tt, s') ->
  let watchlist := length (heap s) in
  ("_scheduler_started" ∉ session_state s ->
   jobs s' = jobs s ++ [{| job_callback := cb_run_news_agent;
                           job_watchlist := watchlist |}] /\
   "_scheduler_started" ∈ session_state s' /\
   heap s' !! watchlist
   = Some (if add_pressed u && bool_decide (company_input u ∉ loaded)
           then loaded ++ [company_input u] else loaded)) /\
  ("_scheduler_started" ∈ session_state s ->
   jobs s' = jobs s /\ "_scheduler_started" ∈ session_state s').
Proof.
  intros Hpage. simpl. split.
  - intros Hflag. by apply page_registers.
  - intros Hflag.
    pose proof (page_keeps
                  (fun x => jobs x = jobs s /\
                            "_scheduler_started" ∈ session_state x)
                  u loaded) as Hkeep.
    rewrite <-(f_equal snd Hpage : snd (page u loaded s) = s').
    apply Hkeep; [by intros ??|by intros ??| | | |done].
    + intros _. apply fetch_summary_keeps; [by split|by intros ??].
    + intros _ l. apply save_watchlist_keeps; by intros ??.
    + intros r. apply registered_page_scheduler.
Qed.

(** ** A run of the page returns *)

(** A final summary as the program writes it. *)
Definition summary_ok (v : json) : Prop :=
  exists summary timestamp, v = final_summary summary timestamp.

(** Every record of the store is a dict whose ["final_summary"], when it
    has one, is as the program writes it. *)
Definition summaries_ok (s : state) : Prop :=
  exists d, store_value s = JObj d /\
    Forall (fun kv => exists r, snd kv = JObj r /\
              forall v, dict_get "final_summary" r = Some v -> summary_ok v) d.

(** The watch-list file holds nothing that parses, or an array of
    strings. *)
Definition watchlist_ok (s : state) : Prop :=
  is_Some (as_str_list (watchlist_value s)).

Lemma summaries_ok_record s d company rec :
  summaries_ok s -> store_value s = JObj d -> dict_get company d = Some rec ->
  exists r, rec = JObj r /\
            forall v, dict_get "final_summary" r = Some v -> summary_ok v.
Proof.
  intros (d' & Hs & Hall) Hs' Hg. rewrite Hs in Hs'. simplify_eq.
  apply dict_get_elem_of in Hg. rewrite Forall_forall in Hall.
  apply (Hall _ Hg).
Qed.

Lemma summaries_ok_written s d company key value r :
  summaries_ok s -> store_value s = JObj d -> wf_json value = true ->
  (dict_get company d = None /\ r = [] \/ dict_get company d = Some (JObj r)) ->
  (key = "final_summary" -> summary_ok value) ->
  summaries_ok
    (written (JObj (dict_set company (JObj (dict_set key value r)) d)) s).
Proof.
  intros Hok Hs Hv Hr Hkey.
  pose proof (store_value_wf s) as Hwf. rewrite Hs in Hwf.
  eexists. split.
  { apply store_value_written. by apply wf_json_record_update. }
  apply dict_set_Forall.
  - simpl. eexists. split; [done|]. intros v.
    destruct (decide (key = "final_summary")) as [->|Hne].
    + rewrite dict_get_set_eq. intros [= <-]. by apply Hkey.
    + rewrite dict_get_set_ne by done.
      destruct Hr as [[_ ->]|Hr]; [done|].
      destruct (summaries_ok_record _ _ _ _ Hok Hs Hr) as (r' & [= <-] & Hr').
      apply Hr'.
  - destruct Hok as (d' & Hs' & Hall). rewrite Hs in Hs'. by simplify_eq.
Qed.

Lemma summaries_ok_save_intermediate_data company key data :
  key <> "final_summary" ->
  preserves summaries_ok (save_intermediate_data company key data).
Proof.
  intros Hkey s Hok. rewrite save_intermediate_data_eq.
  destruct (intermediate_update _ _ _ _) as [v|e] eqn:Hu; [|done].
  apply intermediate_update_Ok in Hu as (d & value & r & Hs & Hl & Hr & ->).
  simpl. apply summaries_ok_written; try done. by eapply loads_wf.
Qed.

Lemma summaries_ok_save_company_data company summary timestamp :
  preserves summaries_ok
    (save_company_data company (final_summary summary timestamp)).
Proof.
  intros s Hok. rewrite save_company_data_eq.
  destruct (py_setitem_nested _ _ _ _) as [v|e] eqn:Hu; [|done].
  apply final_update_Ok in Hu as (d & r & Hs & Hr & ->).
  simpl. apply summaries_ok_written;
    [done|done|apply wf_final_summary|by right|].
  intros _. by eexists _, _.
Qed.

Lemma summaries_ok_store_only : store_only summaries_ok.
Proof.
  intros s s' Heq (d & Hs & Hall). exists d. split; [|done].
  by rewrite <-(store_value_file _ _ Heq).
Qed.

Lemma summaries_ok_ignores_trace : ignores_trace summaries_ok.
Proof. intros e s. by apply summaries_ok_store_only. Qed.

Lemma summaries_ok_run_news_agent company :
  preserves summaries_ok (run_news_agent company).
Proof.
  apply preserves_run_news_agent.
  - apply store_only_ignores_io, summaries_ok_store_only.
  - intros key data Hkey. apply summaries_ok_save_intermediate_data.
    unfold stage_keys in Hkey. set_solver.
Qed.

Lemma summaries_ok_fetch_summary company :
  preserves summaries_ok (fetch_summary company).
Proof.
  apply preserves_fetch_summary.
  - apply store_only_ignores_io, summaries_ok_store_only.
  - apply summaries_ok_run_news_agent.
  - intros ??. apply summaries_ok_save_company_data.
Qed.

Lemma summaries_ok_refresh_all watchlist :
  preserves summaries_ok (refresh_all run_news_agent watchlist).
Proof.
  apply preserves_for_each. intros comp. apply preserves_refresh_one.
  - apply store_only_ignores_io, summaries_ok_store_only.
  - apply summaries_ok_run_news_agent.
  - intros ??. apply summaries_ok_save_company_data.
Qed.

(** What [get_company_data] returns on such a store. *)
Lemma summaries_ok_get_company_data company s :
  summaries_ok s ->
  get_company_data company s = (Ok JNull, s) \/
  exists summary timestamp,
    get_company_data company s = (Ok (final_summary summary timestamp), s).
Proof.
  intros Hok. pose proof Hok as (d & Hs & _).
  rewrite get_company_data_eq, Hs. simpl.
  destruct (dict_get company d) as [rec|] eqn:Hg; simpl; [|by left].
  destruct (summaries_ok_record _ _ _ _ Hok Hs Hg) as (r & -> & Hr). simpl.
  destruct (dict_get "final_summary" r) as [v|]; simpl; [|by left].
  destruct (Hr v eq_refl) as (summary & timestamp & ->). right. by eexists _, _.
Qed.

Lemma display_summary_Ok comp s :
  summaries_ok s -> fst (display_summary comp s) = Ok tt.
Proof.
  intros Hok. unfold display_summary.
  destruct (summaries_ok_get_company_data comp s Hok)
    as [Hget|(summary & timestamp & Hget)];
    by rewrite (bind_Ok _ _ _ _ _ Hget).
Qed.

Lemma for_each_display_summary_Ok l s :
  summaries_ok s -> fst (for_each l display_summary s) = Ok tt.
Proof.
  revert s. induction l as [|comp l IH]; intros s Hok; [done|].
  simpl. unfold bind.
  pose proof (display_summary_Ok comp s Hok) as H1.
  pose proof (display_summary_keeps summaries_ok comp
                summaries_ok_ignores_trace s Hok) as H2.
  destruct (display_summary comp s) as [[[]|e] s1]; simpl in *; [|done].
  by apply IH.
Qed.

Lemma page_tabs_Ok u watchlist s :
  summaries_ok s -> fst (page_tabs u watchlist s) = Ok tt.
Proof.
  intros Hok. unfold page_tabs.
  pose proof summaries_ok_ignores_trace as Ht.
  unfold bind at 1.
  assert (fst ((if bool_decide (company_input u = "") then ret tt
                else display_summary (company_input u)) s) = Ok tt) as H1.
  { destruct (bool_decide _); [done|by apply display_summary_Ok]. }
  assert (summaries_ok
            (snd ((if bool_decide (company_input u = "") then ret tt
                   else display_summary (company_input u)) s))) as H2.
  { destruct (bool_decide _); [done|by apply display_summary_keeps]. }
  destruct ((if bool_decide (company_input u = "") then ret tt
             else display_summary (company_input u)) s)
    as [[[]|e] s1]; simpl in *; [|done].
  unfold bind at 1, list_contents. simpl. unfold bind at 1.
  set (l := default [] (heap s1 !! watchlist)).
  assert (exists s2, (if bool_decide (l = []) then
                        emit (EStInfo "Watch‑list is empty. Add companies using the input above.")
                      else ret tt) s1 = (Ok tt, s2) /\ summaries_ok s2)
    as (s2 & -> & Hok2).
  { destruct (bool_decide _); eexists; (split; [done|]); [by apply Ht|done]. }
  unfold bind at 1.
  pose proof (for_each_display_summary_Ok l s2 Hok2) as H3.
  destruct (for_each l display_summary s2) as [[[]|e] s3]; simpl in *; [|done].
  unfold page_scheduler, bind, session_state_lacks. simpl.
  by destruct (bool_decide _).
Qed.

Lemma add_step_Ok (b : bool) company_input watchlist s :
  fst ((if b then add_to_watchlist company_input watchlist else ret tt) s)
  = Ok tt.
Proof.
  destruct b; [|done]. unfold add_to_watchlist, bind, list_contents. simpl.
  by destruct (bool_decide _).
Qed.

Lemma page_Ok u loaded s : summaries_ok s -> fst (page u loaded s) = Ok tt.
Proof.
  intros Hok. rewrite page_eq. unfold bind at 1. simpl. unfold bind at 1.
  pose proof (fetch_step_Ok (fetch_pressed u) (company_input u)
                (set_heap (heap s ++ [loaded]) s)) as H1.
  assert (summaries_ok
            (snd ((if fetch_pressed u then fetch_summary (company_input u)
                   else ret tt) (set_heap (heap s ++ [loaded]) s)))) as H2.
  { destruct (fetch_pressed u); [|done]. by apply summaries_ok_fetch_summary. }
  destruct ((if fetch_pressed u then fetch_summary (company_input u)
             else ret tt) (set_heap (heap s ++ [loaded]) s))
    as [[[]|e] s2]; simpl in *; [|done].
  unfold bind at 1.
  pose proof (add_step_Ok (add_pressed u) (company_input u)
                (length (heap s)) s2) as H3.
  assert (summaries_ok
            (snd ((if add_pressed u
                   then add_to_watchlist (company_input u) (length (heap s))
                   else ret tt) s2))) as H4.
  { destruct (add_pressed u); [|done].
    by apply preserves_add_to_watchlist; [apply summaries_ok_store_only|]. }
  destruct ((if add_pressed u
             then add_to_watchlist (company_input u) (length (heap s))
             else ret tt) s2) as [[[]|e] s3]; simpl in *; [|done].
  by apply page_tabs_Ok.
Qed.

Lemma session_summaries_ok acts s s' :
  summaries_ok s -> session acts s = Some s' -> summaries_ok s'.
Proof.
  apply preserves_session.
  - apply summaries_ok_store_only.
  - apply summaries_ok_fetch_summary.
  - apply summaries_ok_refresh_all.
Qed.

Lemma session_watchlist_ok acts s s' :
  watchlist_ok s -> session acts s = Some s' -> watchlist_ok s'.
Proof.
  apply session_keeps.
  - by intros ??.
  - by intros ??.
  - intros c. apply fetch_summary_keeps; [by split|by intros ??].
  - intros l s0 _. unfold watchlist_ok. rewrite watchlist_value_saved.
    by rewrite as_str_list_strings.
  - intros r. apply page_scheduler_keeps. by split.
  - intros l. apply refresh_all_keeps; [by split|by intros ??].
Qed.

Lemma step_defined a s : watchlist_ok s -> is_Some (step a s).
Proof.
  intros [l Hl]. destruct a as [u|]; simpl; [|done].
  unfold script. rewrite load_watchlist_eq, Hl. done.
Qed.

(** X20. From a state whose final summaries are as the program writes
    them and whose watch-list file is absent, unreadable or an array of
    strings (the state with no file is one), every session is defined and
    ends in such a state, and a run of the page there returns without an
    exception, whatever is entered and pressed. *)
Theorem page_never_raises (acts : list action) (s : state) :
  summaries_ok s -> watchlist_ok s ->
  exists s',
    session acts s = Some s' /\ summaries_ok s' /\ watchlist_ok s' /\
    forall u, exists s'', script u s' = Some (Ok tt, s'').
Proof.
  revert s. induction acts as [|a acts IH]; intros s Hsum Hwl.
  - exists s. split_and!; [done..|]. intros u. destruct Hwl as [l Hl].
    unfold script. rewrite load_watchlist_eq, Hl.
    pose proof (page_Ok u l s Hsum) as Hpage.
    destruct (page u l s) as [r s'']. simpl in Hpage. subst r. by eexists.
  - destruct (step_defined a s Hwl) as [s1 Hs1]. simpl. rewrite Hs1.
    apply IH.
    + apply (session_summaries_ok [a] s); [done|]. simpl. by rewrite Hs1.
    + apply (session_watchlist_ok [a] s); [done|]. simpl. by rewrite Hs1.
Qed.

(** ** What is shown for a company *)

(** X19. On a store whose final summaries are as the program writes
    them, [display_summary] either finds no final summary and shows the
    "No cached data" note only, or finds one and shows the company as
    subheader, the timestamp as caption and the summary as markdown; it
    does not raise. *)
Theorem display_summary_shows (comp : string) (s : state) :
  summaries_ok s ->
  get_company_data comp s = (Ok JNull, s) /\
  display_summary comp s
  = (Ok tt, add_event
              (EStInfo "No cached data – click *Fetch Summary* first.") s) \/
  exists summary timestamp,
    get_company_data comp s
    = (Ok (JObj [("summary", JStr summary); ("timestamp", JStr timestamp)]),
       s) /\
    display_summary comp s
    = (Ok tt, add_event (EStMarkdown (JStr summary))
                (add_event (EStCaption (JStr timestamp))
                   (add_event (EStSubheader comp) s))).
Proof.
  intros Hok. unfold display_summary.
  destruct (summaries_ok_get_company_data comp s Hok)
    as [Hget|(summary & timestamp & Hget)].
  - left. by rewrite (bind_Ok _ _ _ _ _ Hget).
  - right. exists summary, timestamp. by rewrite (bind_Ok _ _ _ _ _ Hget).
Qed.

(** ** What a run that fails leaves behind *)

Lemma stage_kept_save_intermediate_data company k v key data :
  k <> key ->
  preserves (fun x => fst (lookup_stage company k x) = Ok v)
    (save_intermediate_data company key data).
Proof.
  intros Hk s HP.
  destruct (save_intermediate_data company key data s) as [[[]|e] s'] eqn:Hsave.
  - apply save_intermediate_data_sets in Hsave as (_ & _ & _ & _ & Hkeep).
    by apply (Hkeep s).
  - rewrite save_intermediate_data_eq in Hsave.
    destruct (intermediate_update _ _ _ _); [done|]. by injection Hsave as _ <-.
Qed.

Lemma stage_kept_ignores_io company k v :
  ignores_io (fun x => fst (lookup_stage company k x) = Ok v).
Proof.
  split; intros ? s HP; rewrite <-HP; by apply lookup_stage_file.
Qed.

(** X10. On a store of the data model, once the personnel answer has
    been parsed and saved it is what the store holds for the company at
    the end of the run, whether the run returns or raises later: a failed
    run leaves the results of its completed stages in the file. *)
Theorem failed_run_keeps_earlier_stages
    (company personnel : string) (w1 : World) (vp : json) (s : state) :
  store_ok s ->
  responses_parse CompanyPersonnelResponse
    (format_prompt_get_company_personnel company) (world s)
  = (Ok personnel, w1) ->
  loads personnel = Some vp ->
  fst (lookup_stage company "personnel" (snd (run_news_agent company s)))
  = Ok vp.
Proof.
  intros Hok Hr1 Hl1.
  pose proof (get_company_personnel_eq company s) as H1. simpl in H1.
  rewrite Hr1 in H1.
  rewrite run_news_agent_format_stage, (bind_Ok _ _ _ _ _ H1).
  match type of H1 with
  | _ = (_, ?s1) =>
      destruct (save_intermediate_data_store_ok company "personnel" personnel
                  vp s1) as (s2 & Hsave & _ & _);
        [by eapply store_ok_file, Hok|done|]
  end.
  rewrite (bind_Ok _ _ _ _ _ Hsave).
  apply save_intermediate_data_sets in Hsave as (v & Hl & Hstored & _).
  rewrite Hl1 in Hl. injection Hl as <-.
  pose proof (stage_kept_ignores_io company "personnel" vp) as Hio.
  revert Hstored.
  apply (preserves_bind (fun x => fst (lookup_stage company "personnel" x)
                                  = Ok vp)).
  { by apply preserves_get_company_personnel_news. }
  intros personnel_news. apply preserves_bind.
  { by apply stage_kept_save_intermediate_data. }
  intros _. apply preserves_bind.
  { by apply preserves_get_company_details. }
  intros details. apply preserves_bind.
  { by apply stage_kept_save_intermediate_data. }
  intros _. by apply preserves_format_stage.
Qed.

(** ** The records of other companies *)

Lemma other_record_ignores_io c k s0 :
  ignores_io (fun x => fst (lookup_stage c k x) = fst (lookup_stage c k s0)).
Proof.
  split; intros ? s HP; rewrite <-HP; by apply lookup_stage_file.
Qed.

Lemma other_record_save_intermediate_data c k s0 company key data :
  c <> company ->
  preserves (fun x => fst (lookup_stage c k x) = fst (lookup_stage c k s0))
    (save_intermediate_data company key data).
Proof.
  intros Hc s HP. rewrite <-HP.
  destruct (save_intermediate_data company key data s) as [[[]|e] s'] eqn:Hsave.
  - destruct (save_intermediate_data_inv _ _ _ _ _ Hsave)
      as (d & value & r & Hs & _ & _ & _ & Hv').
    simpl. rewrite !lookup_stage_eq, Hv', Hs. simpl.
    by rewrite dict_get_set_ne.
  - rewrite save_intermediate_data_eq in Hsave.
    destruct (intermediate_update _ _ _ _); [done|]. by injection Hsave as _ <-.
Qed.

Lemma other_record_save_company_data c k s0 company data :
  c <> company -> wf_json data = true ->
  preserves (fun x => fst (lookup_stage c k x) = fst (lookup_stage c k s0))
    (save_company_data company data).
Proof.
  intros Hc Hwf s HP. rewrite <-HP. rewrite save_company_data_eq.
  destruct (py_setitem_nested _ _ _ _) as [v|e] eqn:Hu; [|done].
  apply final_update_Ok in Hu as (d & r & Hs & Hr & ->). simpl.
  pose proof (store_value_wf s) as Hwfs. rewrite Hs in Hwfs.
  rewrite !lookup_stage_eq, store_value_written, Hs.
  - simpl. by rewrite dict_get_set_ne.
  - apply wf_json_record_update; [done..|by right].
Qed.

(** X22. A run of the pipeline for one company, and the "Fetch Summary"
    flow for it, leave every entry of the record of any other company as
    it was; the weekly job leaves the records of the companies that are
    not on its list as they were. *)
Theorem pipeline_touches_own_record
    (company c key : string) (watchlist : list string) (s : state) :
  (c <> company ->
   fst (lookup_stage c key (snd (run_news_agent company s)))
   = fst (lookup_stage c key s) /\
   fst (lookup_stage c key (snd (fetch_summary company s)))
   = fst (lookup_stage c key s)) /\
  (c ∉ watchlist ->
   fst (lookup_stage c key (snd (refresh_all run_news_agent watchlist s)))
   = fst (lookup_stage c key s)).
Proof.
  pose proof (other_record_ignores_io c key s) as Hio.
  assert (forall comp, c <> comp ->
            preserves (fun x => fst (lookup_stage c key x)
                                = fst (lookup_stage c key s))
              (run_news_agent comp)) as Hrun.
  { intros comp Hc. apply preserves_run_news_agent; [done|].
    intros k data _. by apply other_record_save_intermediate_data. }
  split.
  - intros Hc. split; [by apply Hrun|].
    apply (preserves_fetch_summary
             (fun x => fst (lookup_stage c key x) = fst (lookup_stage c key s)));
      [done|by apply Hrun| |done].
    intros ??. apply other_record_save_company_data; [done|].
    apply wf_final_summary.
  - intros Hc. unfold refresh_all.
    assert (forall s1,
              fst (lookup_stage c key s1) = fst (lookup_stage c key s) ->
              fst (lookup_stage c key
                     (snd (for_each watchlist (refresh_one run_news_agent) s1)))
              = fst (lookup_stage c key s)) as Hall; [|by apply Hall].
    induction watchlist as [|comp l IH]; intros s1 H1; [done|].
    apply not_elem_of_cons in Hc as [Hne Hc]. simpl. unfold bind.
    pose proof (preserves_refresh_one
                  (fun x => fst (lookup_stage c key x)
                            = fst (lookup_stage c key s))
                  run_news_agent comp Hio (Hrun comp Hne)) as Hone.
    specialize (Hone ltac:(intros ??; apply other_record_save_company_data;
                             [done|apply wf_final_summary]) s1 H1).
    destruct (refresh_one run_news_agent comp s1) as [[[]|e] s2];
      simpl in *; [|done].
    by apply IH.
Qed.

(** ** What the "Fetch Summary" button leaves alone *)

(** X12. The "Fetch Summary" flow never raises. It leaves the
    watch-list file, the list objects, the jobs and the session state as
    they are, and does not change what [get_company_data] returns for
    another company. *)
Theorem fetch_summary_frame (company : string) (s : state) :
  let s' := snd (fetch_summary company s) in
  fst (fetch_summary company s) = Ok tt /\
  watchlist_json s' = watchlist_json s /\
  heap s' = heap s /\ jobs s' = jobs s /\
  session_state s' = session_state s /\
  forall c, c <> company ->
            fst (get_company_data c s') = fst (get_company_data c s).
Proof.
  simpl. split_and!.
  - apply fetch_summary_Ok.
  - apply (fetch_summary_keeps (fun s' => watchlist_json s' = watchlist_json s));
      [by split|by intros ??|done].
  - apply (fetch_summary_keeps (fun s' => heap s' = heap s));
      [by split|by intros ??|done].
  - apply (fetch_summary_keeps (fun s' => jobs s' = jobs s));
      [by split|by intros ??|done].
  - apply (fetch_summary_keeps (fun s' => session_state s' = session_state s));
      [by split|by intros ??|done].
  - intros c Hc.
    apply (preserves_fetch_summary
             (fun s' => fst (get_company_data c s')
                        = fst (get_company_data c s))); [| | |done].
    + split; intros ? s0 HP; rewrite <-HP; by rewrite !get_company_data_eq.
    + intros s0 HP. rewrite <-HP. apply run_news_agent_keeps_final_summary.
    + intros ??. apply save_company_data_keeps_others; [done|].
      apply wf_final_summary.
Qed.

(** ** The weekly job of a new deployment *)

Lemma fresh_summaries_ok w : summaries_ok (fresh w).
Proof. exists []. split; [done|constructor]. Qed.

Lemma fresh_watchlist_ok w : watchlist_ok (fresh w).
Proof. by exists []. Qed.

(** X21. In a session that starts with no file, after the first run of
    the page there is one job, on list object 0, and that list holds the
    name added in the first run, or nothing. Whatever reruns and triggers
    follow, a trigger of the job requests the personnel of exactly these
    names. *)
Theorem first_run_fixes_weekly_job
    (w : World) (u : ui) (acts : list action) (s : state) :
  session (Rerun u :: acts) (fresh w) = Some s ->
  let j := {| job_callback := cb_run_news_agent; job_watchlist := 0 |} in
  let l := if add_pressed u then [company_input u] else [] in
  jobs s = [j] /\ heap s !! 0 = Some l /\
  personnel_requests (trace (snd (fire j s)))
  = personnel_requests (trace s) ++ (format_prompt_get_company_personnel <$> l).
Proof.
  intros Hs.
  assert (step (Rerun u) (fresh w) = Some (snd (page u [] (fresh w)))) as Hstep.
  { unfold step, script. by rewrite load_watchlist_eq. }
  change (session (Rerun u :: acts) (fresh w))
    with (match step (Rerun u) (fresh w) with
          | Some s' => session acts s'
          | None => None
          end) in Hs.
  rewrite Hstep in Hs. clear Hstep.
  pose proof (page_Ok u [] (fresh w) (fresh_summaries_ok w)) as Hok.
  destruct (page u [] (fresh w)) as [r s1] eqn:Hpage. simpl in Hok, Hs. subst r.
  destruct (page_registers u [] (fresh w) s1) as (Hj & Hflag & Hheap);
    [set_solver|done|].
  simpl in Hj, Hheap.
  rewrite andb_true_r in Hheap.
  destruct (registered_session _ acts s1 s Hj Hflag Hs) as [Hj' _].
  destruct (captured_session
              {| job_callback := cb_run_news_agent; job_watchlist := 0 |}
              (if add_pressed u then [company_input u] else [])
              acts s1 s) as [_ Hheap']; [|done|].
  { split; [rewrite Hj; set_solver|done]. }
  simpl in Hheap'. simpl. split_and!; [done..|].
  unfold fire, list_contents. unfold bind at 1. simpl. rewrite Hheap'. simpl.
  apply refresh_all_requests.
Qed.

End Further.

(** * The claims on the scripted environment *)

#[local] Existing Instance codec.
#[local] Existing Instance Demo.env.

(** The store with no file, at the start of the scripted world. *)
Definition fresh0 : state := fresh (0 : @World Demo.env).

(** A store whose watch-list file holds text that is not JSON. *)
Definition corrupt0 : state :=
  {| world := (0 : @World Demo.env); watchlist_json := Some "not json";
     company_data_json := Some "{"; heap := []; session_state := ∅;
     jobs := []; trace := [] |}.

Lemma loaders_fail_soft_witness :
  load_watchlist corrupt0 = (Ok (JArr []), corrupt0) /\
  load_company_data corrupt0 = (Ok (JObj []), corrupt0) /\
  get_company_data "X" corrupt0 = (Ok JNull, corrupt0) /\
  load_watchlist fresh0 = (Ok (JArr []), fresh0) /\
  get_company_data "X" fresh0 = (Ok JNull, fresh0).
Proof.
  destruct (loaders_fail_soft corrupt0 "X") as [Hw Hc].
  destruct (loaders_fail_soft fresh0 "X") as [Hw0 Hc0].
  split_and!.
  - apply Hw. right. exists "not json". split; [reflexivity|vm_compute; reflexivity].
  - apply Hc. right. exists "{". split; [reflexivity|vm_compute; reflexivity].
  - apply Hc. right. exists "{". split; [reflexivity|vm_compute; reflexivity].
  - apply Hw0. left. reflexivity.
  - apply Hc0. left. reflexivity.
Defined.

Lemma save_intermediate_data_invalid_json_witness :
  exists e, save_intermediate_data "Bolt Studios" "personnel" "not json" fresh0
            = (Raise e, fresh0).
Proof.
  apply (save_intermediate_data_invalid_json fresh0). vm_compute. reflexivity.
Defined.

Lemma save_intermediate_data_round_trip_witness :
  exists s',
    save_intermediate_data "Bolt Studios" "personnel" Demo.personnel_text fresh0
    = (Ok tt, s') /\
    lookup_stage "Bolt Studios" "personnel" s'
    = (Ok (Demo.answer CompanyPersonnelResponse), s').
Proof.
  apply (save_intermediate_data_round_trip fresh0).
  - exists []. split; [reflexivity|constructor].
  - vm_compute. reflexivity.
Defined.

Lemma save_load_watchlist_witness :
  load_watchlist (snd (save_watchlist ["Bolt Studios"; "Acme Games"; "Bolt Studios"] fresh0))
  = (Ok (JArr [JStr "Acme Games"; JStr "Bolt Studios"]),
     snd (save_watchlist ["Bolt Studios"; "Acme Games"; "Bolt Studios"] fresh0)) /\
  watchlist_json (snd (save_watchlist
                         (["Bolt Studios"; "Acme Games"; "Bolt Studios"]
                          ++ ["Acme Games"]) fresh0))
  = watchlist_json (snd (save_watchlist
                           ["Bolt Studios"; "Acme Games"; "Bolt Studios"] fresh0)).
Proof.
  destruct (save_load_watchlist ["Bolt Studios"; "Acme Games"; "Bolt Studios"] fresh0)
    as (_ & Hload & _ & _ & _ & Hidem).
  split.
  - exact Hload.
  - apply Hidem. apply list_elem_of_further, list_elem_of_here.
Defined.

Lemma record_keys_invariant_witness :
  keys_ok (snd (fetch_summary "Bolt Studios" fresh0)) /\
  keys_ok (snd (refresh_all run_news_agent ["Acme Games"; "Bolt Studios"] fresh0)) /\
  exists personnel personnel_news details news line prompt2 prompt4
         text1 text2 text3,
    trace (snd (run_news_agent "Bolt Studios" fresh0))
    = trace fresh0 ++ run_events "Bolt Studios" personnel personnel_news details
                        news "### Company Details" line prompt2 prompt4
                        text1 text2 text3.
Proof.
  assert (keys_ok fresh0) as Hok.
  { exists []. split; [reflexivity|constructor]. }
  destruct (record_keys_invariant fresh0 Hok)
    as (_ & _ & _ & Hfetch & Hjob & _ & _ & Hrun).
  split; [apply Hfetch|]. split; [apply Hjob|].
  apply Hrun. vm_compute. reflexivity.
Defined.

Lemma news_prompts_need_every_category_witness :
  exists missing,
    missing ∈ required_categories /\
    delete "company_channels" TRUSTED_NEWS_SOURCES !! missing = None /\
    format_prompt_company_personnel_news_prompt "Bolt Studios" "[]" 180
      (delete "company_channels" TRUSTED_NEWS_SOURCES) fresh0
    = (Raise (KeyError missing), fresh0) /\
    format_prompt_company_news_prompt "Bolt Studios" "[]" 180
      (delete "company_channels" TRUSTED_NEWS_SOURCES) fresh0
    = (Raise (KeyError missing), fresh0).
Proof.
  apply (news_prompts_need_every_category _ _ _ _ "company_channels").
  - apply list_elem_of_further, list_elem_of_further, list_elem_of_here.
  - vm_compute. reflexivity.
Defined.

Lemma failed_pipeline_saves_no_final_summary_witness :
  fetch_summary "Acme Games" fresh0
  = (Ok tt, add_event (EStError (RemoteError "quota"))
              (snd (run_news_agent "Acme Games" fresh0))) /\
  refresh_one run_news_agent "Acme Games" fresh0
  = (Ok tt, add_event (ESchedulerError "Acme Games" (RemoteError "quota"))
              (snd (run_news_agent "Acme Games" fresh0))) /\
  ([] : list event) = [] /\
  fst (run_news_agent "Acme Games" fresh0) = Raise (RemoteError "quota").
Proof.
  destruct (failed_pipeline_saves_no_final_summary "Acme Games" fresh0)
    as [Hstop Hraise].
  destruct (Hraise (RemoteError "quota")) as (Hfetch & Hjob & _).
  { vm_compute. reflexivity. }
  split; [exact Hfetch|]. split; [exact Hjob|].
  apply (Hstop [] CompanyPersonnelResponse
           (format_prompt_get_company_personnel "Acme Games")).
  vm_compute. reflexivity.
Defined.

(** The state after the job has gone through four names, of which
    "Acme Games", twice on the list, fails. *)
Definition refreshed0 : state :=
  snd (refresh_all run_news_agent
         ["Acme Games"; "Acme Games"; "Bolt Studios"; "Cog Works"] fresh0).

Lemma refresh_all_continues_after_failure_witness :
  fst (refresh_all run_news_agent
         ["Acme Games"; "Acme Games"; "Bolt Studios"; "Cog Works"] fresh0)
  = Ok tt /\
  ESchedulerError "Acme Games" (RemoteError "quota") ∈ trace refreshed0 /\
  get_company_data "Bolt Studios" refreshed0
  = (Ok (JObj [("summary", JStr "### Company Details");
               ("timestamp", JStr "2025-01-06T09:00:07")]), refreshed0) /\
  personnel_requests (trace refreshed0)
  = personnel_requests (trace fresh0)
    ++ (format_prompt_get_company_personnel
          <$> ["Acme Games"; "Acme Games"; "Bolt Studios"; "Cog Works"]).
Proof.
  pose proof (refresh_all_continues_after_failure [] ["Acme Games"]
                ["Cog Works"] "Acme Games" "Bolt Studios" fresh0
                (snd (run_news_agent "Acme Games" fresh0))
                (RemoteError "quota")) as H.
  cbv zeta in H.
  destruct H as (_ & _ & Hlog & Hreq & _ & Hlater & Hok).
  { vm_compute. reflexivity. }
  split; [apply Hok|]. split; [exact Hlog|]. split; [|exact Hreq].
  set (s2 := snd (refresh_all run_news_agent ["Acme Games"]
                    (add_event
                       (ESchedulerError "Acme Games" (RemoteError "quota"))
                       (snd (run_news_agent "Acme Games"
                               (snd (refresh_all run_news_agent [] fresh0))))))).
  destruct (Hlater "### Company Details"
              (snd (run_news_agent "Bolt Studios" s2)))
    as (s4 & _ & _ & Hfinal).
  { vm_compute. reflexivity. }
  assert (datetime_now (world (snd (run_news_agent "Bolt Studios" s2)))
          = "2025-01-06T09:00:07") as Htime.
  { vm_compute. reflexivity. }
  rewrite Htime in Hfinal. apply Hfinal.
  rewrite list_elem_of_singleton. discriminate.
Defined.

(** ** The job and the persisted watch-list *)


(** A first run of the page, which starts the scheduler, and a second run
    in which "Bolt Studios" is added to the watch-list. *)
Definition first_run : action :=
  Rerun {| company_input := ""; fetch_clicked := false; add_clicked := false |}.

Definition add_bolt : action :=
  Rerun {| company_input := "Bolt Studios"; fetch_clicked := false;
           add_clicked := true |}.

(** The job registered by the first run. *)
Definition first_job : job :=
  {| job_callback := cb_run_news_agent; job_watchlist := 0 |}.


(** The state after both runs. *)
Definition added0 : state :=
  default fresh0 (session [first_run; add_bolt] fresh0).

Lemma session_default acts s :
  match session acts s with Some _ => true | None => false end = true ->
  session acts s = Some (default s (session acts s)).
Proof. by destruct (session acts s). Qed.





(** * Further properties on the scripted environment *)

(** The store after the personnel of "Bolt Studios" have been saved. *)
Definition staged0 : state :=
  snd (save_intermediate_data "Bolt Studios" "personnel" Demo.personnel_text
         fresh0).

Lemma save_company_data_round_trip_witness :
  exists s',
    save_company_data "Bolt Studios"
      (final_summary "### Company Details" "2025-01-06T09:00:05") staged0
    = (Ok tt, s') /\
    get_company_data "Bolt Studios" s'
    = (Ok (final_summary "### Company Details" "2025-01-06T09:00:05"), s') /\
    fst (lookup_stage "Bolt Studios" "personnel" s')
    = fst (lookup_stage "Bolt Studios" "personnel" staged0).
Proof.
  destruct (save_company_data_round_trip staged0
              [("Bolt Studios",
                JObj [("personnel", Demo.answer CompanyPersonnelResponse)])]
              [("personnel", Demo.answer CompanyPersonnelResponse)]
              "Bolt Studios"
              (final_summary "### Company Details" "2025-01-06T09:00:05"))
    as (s' & Hsave & Hget & _ & Hstage).
  - vm_compute. reflexivity.
  - vm_compute. reflexivity.
  - vm_compute. reflexivity.
  - exists s'. split; [exact Hsave|]. split; [exact Hget|].
    apply Hstage. right. discriminate.
Defined.

(** A company-data file that someone replaced by a JSON array. *)
Definition hand_edited0 : state :=
  {| world := (0 : @World Demo.env); watchlist_json := None;
     company_data_json := Some "[]"; heap := []; session_state := ∅;
     jobs := []; trace := [] |}.

Lemma store_not_a_dict_witness :
  save_intermediate_data "Bolt Studios" "personnel" Demo.personnel_text
    hand_edited0 = (Raise TypeError, hand_edited0) /\
  save_company_data "Bolt Studios" JNull hand_edited0
  = (Raise TypeError, hand_edited0) /\
  get_company_data "Bolt Studios" hand_edited0
  = (Raise AttributeError, hand_edited0).
Proof.
  apply (store_not_a_dict hand_edited0 "Bolt Studios" "personnel"
           Demo.personnel_text (Demo.answer CompanyPersonnelResponse) JNull).
  - vm_compute. reflexivity.
  - left. intros d. vm_compute. discriminate.
Defined.

Lemma save_intermediate_data_frame_witness :
  fst (lookup_stage "Acme Games" "personnel" staged0)
  = fst (lookup_stage "Acme Games" "personnel" fresh0) /\
  world staged0 = world fresh0 /\
  forall c, fst (get_company_data c staged0) = fst (get_company_data c fresh0).
Proof.
  destruct (save_intermediate_data_frame fresh0 staged0 "Bolt Studios"
              "personnel" Demo.personnel_text)
    as (Hother & _ & Hfinal & Hworld & _).
  - vm_compute. reflexivity.
  - split; [apply Hother; discriminate|]. split; [exact Hworld|].
    apply Hfinal. discriminate.
Defined.

Lemma save_watchlist_names_only_witness :
  save_watchlist ["Bolt Studios"; "Acme Games"; "Bolt Studios"] fresh0
  = save_watchlist ["Acme Games"; "Bolt Studios"] fresh0 /\
  as_str_list
    (watchlist_value
       (snd (save_watchlist ["Bolt Studios"; "Acme Games"; "Bolt Studios"]
               fresh0)))
  = Some (sorted_set ["Bolt Studios"; "Acme Games"; "Bolt Studios"]).
Proof.
  destruct (save_watchlist_names_only
              ["Bolt Studios"; "Acme Games"; "Bolt Studios"]
              ["Acme Games"; "Bolt Studios"] fresh0) as (Hsame & Hload & _).
  - intros x. rewrite !elem_of_cons, !elem_of_nil. tauto.
  - split; [exact Hsame|exact Hload].
Defined.

(** The state after the pipeline has run for "Bolt Studios". *)
Definition ran0 : state := snd (run_news_agent "Bolt Studios" fresh0).

Lemma run_news_agent_returns_inv_witness :
  exists vp vpn vd,
    lookup_stage "Bolt Studios" "personnel" ran0 = (Ok vp, ran0) /\
    lookup_stage "Bolt Studios" "personnel_news" ran0 = (Ok vpn, ran0) /\
    lookup_stage "Bolt Studios" "company_details" ran0 = (Ok vd, ran0).
Proof.
  destruct (run_news_agent_returns_inv "Bolt Studios" "### Company Details"
              fresh0 ran0)
    as (personnel & personnel_news & details & news & prompt2 & prompt4
        & w1 & w2 & w3 & w4 & vp & vpn & vd & H).
  - vm_compute. reflexivity.
  - exists vp, vpn, vd.
    destruct H as (_ & _ & _ & _ & _ & _ & _ & _ & _ & _ & Hp & Hpn & Hd).
    split; [exact Hp|]. split; [exact Hpn|exact Hd].
Defined.

(** The prompts of the two news requests for "Bolt Studios". *)
Definition personnel_news_prompt0 : string :=
  match fst (format_prompt_company_personnel_news_prompt "Bolt Studios"
               Demo.personnel_text NUMBER_OF_DAYS TRUSTED_NEWS_SOURCES fresh0)
  with Ok prompt => prompt | Raise _ => "" end.

Definition company_news_prompt0 : string :=
  match fst (format_prompt_company_news_prompt "Bolt Studios"
               Demo.details_text NUMBER_OF_DAYS TRUSTED_NEWS_SOURCES fresh0)
  with Ok prompt => prompt | Raise _ => "" end.

Lemma run_news_agent_returns_witness :
  exists s',
    run_news_agent "Bolt Studios" fresh0 = (Ok "### Company Details", s') /\
    world s' = (5 : @World Demo.env) /\ store_ok s'.
Proof.
  apply (run_news_agent_returns "Bolt Studios" Demo.personnel_text
           Demo.personnel_news_text Demo.details_text Demo.news_text
           "### Company Details" personnel_news_prompt0 company_news_prompt0
           (1 : @World Demo.env) (2 : @World Demo.env) (3 : @World Demo.env)
           (4 : @World Demo.env) (5 : @World Demo.env)
           (Demo.answer CompanyPersonnelResponse)
           (Demo.answer CompanyPersonnelNewsResponse)
           (Demo.answer CompanyDetails) fresh0).
  - exists []. split; [reflexivity|constructor].
  - vm_compute. reflexivity.
  - vm_compute. reflexivity.
  - vm_compute. reflexivity.
  - vm_compute. reflexivity.
  - vm_compute. reflexivity.
  - vm_compute. reflexivity.
  - vm_compute. reflexivity.
  - vm_compute. reflexivity.
  - vm_compute. reflexivity.
  - vm_compute. reflexivity.
Defined.

(** A service that answers one kind of request in plain text and every
    other kind with an empty JSON array. *)
Definition plain_same_shape (a b : shape) : bool :=
  match a, b with
  | CompanyPersonnelResponse, CompanyPersonnelResponse
  | CompanyPersonnelNewsResponse, CompanyPersonnelNewsResponse
  | CompanyDetails, CompanyDetails
  | CompanyNewsResponse, CompanyNewsResponse => true
  | _, _ => false
  end.

Definition plain_responses_parse (plain sh : shape) (prompt : string) (w : nat)
  : res string * nat :=
  (Ok (if plain_same_shape plain sh then "Sorry, no results." else "[]"), S w).

Definition plain_env (plain : shape) : Env :=
  Build_Env nat (plain_responses_parse plain) Demo.chat_completions_create
    Demo.datetime_now.

(** The store with no file, at the start of such a world. *)
Definition plain0 (plain : shape) : @state (plain_env plain) :=
  fresh (EV := plain_env plain) 0.

Lemma unparseable_answer_ends_run_witness :
  fst (run_news_agent (EV := plain_env CompanyPersonnelResponse)
         "Bolt Studios" (plain0 _)) = Raise JSONDecodeError /\
  (exists s',
     run_news_agent (EV := plain_env CompanyPersonnelNewsResponse)
       "Bolt Studios" (plain0 _) = (Raise JSONDecodeError, s') /\
     world s' = 2 /\
     last (trace s') = Some (EPrintObj "Sorry, no results.")) /\
  (exists s',
     run_news_agent (EV := plain_env CompanyDetails)
       "Bolt Studios" (plain0 _) = (Raise JSONDecodeError, s') /\
     world s' = 3 /\
     last (trace s') = Some (EPrintObj "Sorry, no results.")).
Proof.
  split; [|split].
  - destruct (unparseable_answer_ends_run
                (EV := plain_env CompanyPersonnelResponse)
                "Bolt Studios" "Sorry, no results." 1 (plain0 _))
      as [Hfirst _].
    + exists []. split; [reflexivity|constructor].
    + vm_compute. reflexivity.
    + rewrite Hfirst; [reflexivity|]. vm_compute. reflexivity.
  - destruct (unparseable_answer_ends_run
                (EV := plain_env CompanyPersonnelNewsResponse)
                "Bolt Studios" "[]" 1 (plain0 _))
      as [_ Hlater].
    + exists []. split; [reflexivity|constructor].
    + vm_compute. reflexivity.
    + destruct (Hlater (JArr [])
                  (match fst (format_prompt_company_personnel_news_prompt
                                (EV := plain_env CompanyPersonnelNewsResponse)
                                "Bolt Studios" "[]" NUMBER_OF_DAYS
                                TRUSTED_NEWS_SOURCES (plain0 _))
                   with Ok prompt => prompt | Raise _ => "" end)
                  "Sorry, no results." 2) as [Hsecond _].
      * vm_compute. reflexivity.
      * vm_compute. reflexivity.
      * vm_compute. reflexivity.
      * apply Hsecond. vm_compute. reflexivity.
  - destruct (unparseable_answer_ends_run
                (EV := plain_env CompanyDetails)
                "Bolt Studios" "[]" 1 (plain0 _))
      as [_ Hlater].
    + exists []. split; [reflexivity|constructor].
    + vm_compute. reflexivity.
    + destruct (Hlater (JArr [])
                  (match fst (format_prompt_company_personnel_news_prompt
                                (EV := plain_env CompanyDetails)
                                "Bolt Studios" "[]" NUMBER_OF_DAYS
                                TRUSTED_NEWS_SOURCES (plain0 _))
                   with Ok prompt => prompt | Raise _ => "" end)
                  "[]" 2) as [_ Hthird].
      * vm_compute. reflexivity.
      * vm_compute. reflexivity.
      * vm_compute. reflexivity.
      * apply (Hthird (JArr []) "Sorry, no results." 3).
        -- vm_compute. reflexivity.
        -- vm_compute. reflexivity.
        -- vm_compute. reflexivity.
Defined.

Lemma fetch_summary_then_display_witness :
  exists s2,
    fetch_summary "Bolt Studios" fresh0 = (Ok tt, s2) /\
    get_company_data "Bolt Studios" s2
    = (Ok (final_summary "### Company Details"
             (datetime_now (world ran0))), s2) /\
    display_summary "Bolt Studios" s2
    = (Ok tt, add_event (EStMarkdown (JStr "### Company Details"))
                (add_event (EStCaption (JStr (datetime_now (world ran0))))
                   (add_event (EStSubheader "Bolt Studios") s2))).
Proof.
  apply (fetch_summary_then_display "Bolt Studios" "### Company Details"
           fresh0 ran0).
  vm_compute. reflexivity.
Defined.

(** "Bolt Studios" in the text input and the "Add to Watch-List" button
    pressed. *)
Definition add_bolt_ui : ui :=
  {| company_input := "Bolt Studios"; fetch_clicked := false;
     add_clicked := true |}.

Lemma page_without_fetch_witness :
  world (snd (page add_bolt_ui [] fresh0)) = world fresh0 /\
  company_data_json (snd (page add_bolt_ui [] fresh0))
  = company_data_json fresh0.
Proof.
  destruct (page_without_fetch add_bolt_ui [] fresh0) as (Hworld & Hfile & _).
  - left. reflexivity.
  - split; [exact Hworld|exact Hfile].
Defined.

Lemma add_to_watchlist_persists_witness :
  as_str_list (watchlist_value (snd (page add_bolt_ui [] fresh0)))
  = Some (sorted_set ([] ++ ["Bolt Studios"])) /\
  EStSuccess ("Bolt Studios" +:+ " added to watch‑list!")
  ∈ trace (snd (page add_bolt_ui [] fresh0)).
Proof.
  destruct (add_to_watchlist_persists add_bolt_ui [] fresh0) as [Hnew _].
  - reflexivity.
  - discriminate.
  - apply Hnew. apply not_elem_of_nil.
Defined.

Lemma scheduler_captures_first_list_witness :
  jobs (snd (page add_bolt_ui [] fresh0)) = [first_job] /\
  heap (snd (page add_bolt_ui [] fresh0)) !! 0 = Some ["Bolt Studios"].
Proof.
  destruct (scheduler_captures_first_list add_bolt_ui [] fresh0
              (snd (page add_bolt_ui [] fresh0))) as [Hfirst _].
  - vm_compute. reflexivity.
  - destruct Hfirst as (Hjobs & _ & Hheap); [apply not_elem_of_empty|].
    split; [exact Hjobs|exact Hheap].
Defined.

Lemma scheduler_started_once_witness :
  scheduler_once added0 /\ (jobs fresh0 <> [] -> jobs added0 = jobs fresh0).
Proof.
  apply (scheduler_started_once [first_run; add_bolt] fresh0 added0).
  - left. split; [reflexivity|apply not_elem_of_empty].
  - apply (session_default _ fresh0). vm_compute. reflexivity.
Defined.

Lemma page_never_raises_witness :
  exists s',
    session [first_run; add_bolt] fresh0 = Some s' /\
    summaries_ok s' /\ watchlist_ok s' /\
    forall u, exists s'', script u s' = Some (Ok tt, s'').
Proof.
  apply (page_never_raises [first_run; add_bolt] fresh0).
  - exists []. split; [reflexivity|constructor].
  - exists []. reflexivity.
Defined.

(** The state after a run of the page in which "Bolt Studios" is added,
    and one more run. *)
Definition deployed0 : state :=
  default fresh0 (session [Rerun add_bolt_ui; first_run] fresh0).

Lemma first_run_fixes_weekly_job_witness :
  jobs deployed0 = [first_job] /\
  heap deployed0 !! 0 = Some ["Bolt Studios"].
Proof.
  destruct (first_run_fixes_weekly_job (0 : @World Demo.env) add_bolt_ui
              [first_run] deployed0) as (Hjobs & Hheap & _).
  - apply (session_default _ fresh0). vm_compute. reflexivity.
  - split; [exact Hjobs|exact Hheap].
Defined.

(** The state after "Fetch Summary" for "Bolt Studios". *)
Definition fetched0 : state := snd (fetch_summary "Bolt Studios" fresh0).

Definition fetched_store0 : list (string * json) :=
  Eval vm_compute in
    match store_value fetched0 with JObj d => d | _ => [] end.

Lemma display_summary_shows_witness :
  display_summary "Bolt Studios" fetched0
  = (Ok tt, add_event (EStMarkdown (JStr "### Company Details"))
              (add_event (EStCaption (JStr "2025-01-06T09:00:05"))
                 (add_event (EStSubheader "Bolt Studios") fetched0))) /\
  display_summary "Bolt Studios" fresh0
  = (Ok tt, add_event
              (EStInfo "No cached data – click *Fetch Summary* first.")
              fresh0).
Proof.
  split.
  - destruct (display_summary_shows "Bolt Studios" fetched0)
      as [[Hnone _]|(summary & timestamp & Hget & Hshow)].
    + exists fetched_store0. split; [vm_compute; reflexivity|].
      repeat constructor. eexists. split; [reflexivity|].
      intros v Hv. vm_compute in Hv. injection Hv as <-.
      exists "### Company Details", "2025-01-06T09:00:05". reflexivity.
    + apply (f_equal fst) in Hnone. vm_compute in Hnone. discriminate Hnone.
    + apply (f_equal fst) in Hget. vm_compute in Hget.
      injection Hget as <- <-. exact Hshow.
  - destruct (display_summary_shows "Bolt Studios" fresh0)
      as [[_ Hshow]|(summary & timestamp & Hget & _)].
    + exists []. split; [reflexivity|constructor].
    + exact Hshow.
    + apply (f_equal fst) in Hget. vm_compute in Hget. discriminate Hget.
Defined.

Lemma failed_run_keeps_earlier_stages_witness :
  fst (run_news_agent (EV := plain_env CompanyDetails) "Bolt Studios"
         (plain0 _)) = Raise JSONDecodeError /\
  fst (lookup_stage "Bolt Studios" "personnel"
         (snd (run_news_agent (EV := plain_env CompanyDetails) "Bolt Studios"
                 (plain0 _)))) = Ok (JArr []).
Proof.
  split; [vm_compute; reflexivity|].
  apply (failed_run_keeps_earlier_stages (EV := plain_env CompanyDetails)
           "Bolt Studios" "[]" 1 (JArr []) (plain0 _)).
  - exists []. split; [reflexivity|constructor].
  - vm_compute. reflexivity.
  - vm_compute. reflexivity.
Defined.

Lemma extraction_prompts_injective_witness :
  format_prompt_get_company_personnel "Acme Games"
  <> format_prompt_get_company_personnel "Bolt Studios".
Proof.
  intros H.
  destruct (extraction_prompts_injective "Acme Games" "Bolt Studios")
    as [Hpersonnel _].
  specialize (Hpersonnel H). discriminate Hpersonnel.
Defined.

Lemma pipeline_touches_own_record_witness :
  fst (lookup_stage "Acme Games" "personnel" ran0)
  = fst (lookup_stage "Acme Games" "personnel" fresh0).
Proof.
  destruct (pipeline_touches_own_record "Bolt Studios" "Acme Games"
              "personnel" [] fresh0) as [Hrun _].
  destruct Hrun as [Hrun _]; [discriminate|]. exact Hrun.
Defined.
